(** * CrashSimulator: the replay driver [rreplay.py]

    A shallow embedding of [src/src/rreplay.py] and the properties of its
    notification reader, subject registry, configuration emitter, replay
    launcher, process-set matcher, supervisor waiter and cleanup, and of the
    run [call_replay] makes of them.

    Conventions of the embedding.
    - Python strings are Rocq strings; a subject (a Python dict with a fixed
      set of keys, some optional) is a record whose optional keys are
      [option] fields.
    - The program runs against a [world]: the file system, the FIFO written by
      rr, the module-level global [rrdump_pipe], the answers of the operating
      system, and the trace of observable effects.
    - Functions are computations in a state-and-exception monad [M].  Loops
      that Python runs without a bound take a [fuel] argument; [OutOfFuel]
      for every amount of fuel means that the Python loop never exits.
    - [logger.debug] lines are not recorded in the trace (the evaluation of
      their arguments is kept where it can raise); warnings, errors and
      [print] are recorded. *)

From stdpp Require Import gmap strings list fin_maps.
From Stdlib Require Import ZArith Ascii String Sorted Permutation Lia.

Local Open Scope string_scope.
Local Open Scope list_scope.

(* stdpp keeps [simpl] from unfolding string concatenation; the proofs below
   compute with it. *)
#[local] Arguments String.append !_ _ / : simpl nomatch.

(** ** Python string primitives *)

Module Py.

Definition newline : ascii := "010"%char.
Definition quote : ascii := "034"%char.
Definition backslash : ascii := "092"%char.

(** [str.isspace] on one byte: space, tab, line feed, vertical tab, form
    feed, carriage return. *)
Definition is_space (c : ascii) : bool :=
  let n := N_of_ascii c in
  (n =? 32)%N || ((9 <=? n)%N && (n <=? 13)%N).

Fixpoint lstrip (s : string) : string :=
  match s with
  | String c r => if is_space c then lstrip r else s
  | EmptyString => EmptyString
  end.

Fixpoint str_rev_app (s acc : string) : string :=
  match s with
  | String c r => str_rev_app r (String c acc)
  | EmptyString => acc
  end.

Definition str_rev (s : string) : string := str_rev_app s EmptyString.

Definition rstrip (s : string) : string := str_rev (lstrip (str_rev s)).

(** [s.strip()] *)
Definition strip (s : string) : string := lstrip (rstrip s).

(** [s[:-1]]: everything but the last character (the empty string stays
    empty). *)
Fixpoint drop_last (s : string) : string :=
  match s with
  | EmptyString => EmptyString
  | String c EmptyString => EmptyString
  | String c r => String c (drop_last r)
  end.

(** [s[-1]]; [None] stands for the IndexError on the empty string. *)
Fixpoint last_char (s : string) : option ascii :=
  match s with
  | EmptyString => None
  | String c EmptyString => Some c
  | String c r => last_char r
  end.

(** [s.split(sep)] for a one-character separator: never the empty list,
    adjacent separators give empty fields. *)
Fixpoint split (sep : ascii) (s : string) : list string :=
  match s with
  | EmptyString => [EmptyString]
  | String c r =>
      if Ascii.eqb c sep then EmptyString :: split sep r
      else match split sep r with
           | h :: t => String c h :: t
           | [] => [String c EmptyString]
           end
  end.

Definition is_digit (c : ascii) : bool :=
  let n := N_of_ascii c in (48 <=? n)%N && (n <=? 57)%N.

Fixpoint digits_value (acc : Z) (s : string) : option Z :=
  match s with
  | EmptyString => Some acc
  | String c r =>
      if is_digit c
      then digits_value (10 * acc + (Z.of_N (N_of_ascii c) - 48)) r
      else None
  end.

Definition unsigned_int (s : string) : option Z :=
  match s with
  | EmptyString => None
  | _ => digits_value 0 s
  end.

(** [int(s)] in base ten: surrounding white space is dropped, one sign is
    allowed, at least one digit is required.  [None] is ValueError. *)
Definition int (s : string) : option Z :=
  match strip s with
  | String "-" r => Z.opp <$> unsigned_int r
  | String "+" r => unsigned_int r
  | t => unsigned_int t
  end.

End Py.

(** ** Exceptions, subjects, effects *)

Inductive exn :=
| IOError | OSError | IndexError | ValueError | TypeError
| UnboundLocalError | NoOptionError | NoSectionError.

(** A [subprocess.Popen] object, named by the order of its creation. *)
Definition handle := nat.

(** One test subject: the dict built by [get_configuration].  The keys
    [mmap_backing_files], [checker] and [handle] may be missing. *)
Record subject := Subject {
  event : string;
  rec_pid : string;
  trace_file : string;
  trace_start : string;
  trace_end : string;
  mutator : string;
  injected_state_file : string;
  other_procs : list string;
  mmap_backing_files : option string;
  checker : option string;
  s_handle : option handle
}.

Definition with_other_procs (l : list string) (s : subject) : subject :=
  Subject (event s) (rec_pid s) (trace_file s) (trace_start s) (trace_end s)
          (mutator s) (injected_state_file s) l
          (mmap_backing_files s) (checker s) (s_handle s).

Definition with_handle (h : handle) (s : subject) : subject :=
  Subject (event s) (rec_pid s) (trace_file s) (trace_start s) (trace_end s)
          (mutator s) (injected_state_file s) (other_procs s)
          (mmap_backing_files s) (checker s) (Some h).

(** The key under which the matcher remembers a handled subject. *)
Definition key (s : subject) : string * string := (event s, mutator s).

Inductive level := WARNING | ERROR.

Inductive logarg :=
| LStr (s : string)
| LSubject (s : subject).

Inductive effect :=
| EOpen (path : string)
| EPrint (msg : string)
| ELog (lvl : level) (fmt : string) (args : list logarg)
| EPopen (argv : list string) (h : handle)
| EWait (h : handle)
| EKill (pid : Z).

(** ** The world *)

(** One section of the INI file as ConfigParser presents it. *)
Record ini_section := IniSection {
  sec_name : string;
  sec_options : gmap string string
}.

Record world := World {
  (** regular files (and the FIFO, as a name) by path *)
  files : gmap string string;
  (** what [ConfigParser.read] obtains from a path *)
  ini_files : gmap string (list ini_section);
  (** the bytes rr has still to write into the FIFO *)
  pipe_data : string;
  (** whether rr closes its end after them (otherwise a read past the last
      byte blocks for ever) *)
  pipe_eof : bool;
  (** the module-level global: [true] once the FIFO has been opened *)
  rrdump_pipe : bool;
  (** number of unsuccessful polls so far *)
  clock : nat;
  (** what the other processes do to the files between two polls *)
  env : nat -> gmap string string -> gmap string string;
  (** [util.process_is_alive] as it answers at a given time *)
  alive_at : nat -> string -> bool;
  (** whether [subprocess.Popen] can start the program *)
  can_spawn : list string -> bool;
  (** handles given out so far *)
  spawned : nat;
  (** exit status reported by [Popen.wait] *)
  exit_status : handle -> Z;
  (** whether [os.kill] finds the process *)
  kill_ok : Z -> bool;
  (** observable effects, oldest first *)
  trace : list effect
}.

Definition set_files (f : gmap string string) (w : world) : world :=
  World f (ini_files w) (pipe_data w) (pipe_eof w) (rrdump_pipe w) (clock w)
        (env w) (alive_at w) (can_spawn w) (spawned w) (exit_status w)
        (kill_ok w) (trace w).

Definition set_pipe_data (d : string) (w : world) : world :=
  World (files w) (ini_files w) d (pipe_eof w) (rrdump_pipe w) (clock w)
        (env w) (alive_at w) (can_spawn w) (spawned w) (exit_status w)
        (kill_ok w) (trace w).

Definition set_rrdump_pipe (b : bool) (w : world) : world :=
  World (files w) (ini_files w) (pipe_data w) (pipe_eof w) b (clock w)
        (env w) (alive_at w) (can_spawn w) (spawned w) (exit_status w)
        (kill_ok w) (trace w).

Definition set_spawned (n : nat) (w : world) : world :=
  World (files w) (ini_files w) (pipe_data w) (pipe_eof w) (rrdump_pipe w)
        (clock w) (env w) (alive_at w) (can_spawn w) n (exit_status w)
        (kill_ok w) (trace w).

Definition emit (e : effect) (w : world) : world :=
  World (files w) (ini_files w) (pipe_data w) (pipe_eof w) (rrdump_pipe w)
        (clock w) (env w) (alive_at w) (can_spawn w) (spawned w)
        (exit_status w) (kill_ok w) (trace w ++ [e]).

(** One unsuccessful poll: the other processes act, time advances. *)
Definition tick (w : world) : world :=
  World (env w (clock w) (files w)) (ini_files w) (pipe_data w) (pipe_eof w)
        (rrdump_pipe w) (S (clock w)) (env w) (alive_at w) (can_spawn w)
        (spawned w) (exit_status w) (kill_ok w) (trace w).

(** ** The monad of computations *)

Inductive outcome (A : Type) :=
| Done (a : A) (w : world)
| Raise (e : exn) (tr : list effect)
| OutOfFuel.
Arguments Done {A} a w.
Arguments Raise {A} e tr.
Arguments OutOfFuel {A}.

Definition M (A : Type) : Type := world -> outcome A.

Definition ret {A} (a : A) : M A := fun w => Done a w.

Definition bind {A B} (m : M A) (k : A -> M B) : M B := fun w =>
  match m w with
  | Done a w' => k a w'
  | Raise e tr => Raise e tr
  | OutOfFuel => OutOfFuel
  end.

Definition raise {A} (e : exn) : M A := fun w => Raise e (trace w).

Notation "x <- m ;; k" := (bind m (fun x => k))
  (at level 100, m at next level, right associativity).
Notation "m ;;; k" := (bind m (fun _ => k))
  (at level 100, right associativity).

Definition do_emit (e : effect) : M unit := fun w => Done tt (emit e w).

(** [for x in l: body x] *)
Fixpoint for_each {A} (l : list A) (body : A -> M unit) : M unit :=
  match l with
  | [] => ret tt
  | x :: r => body x ;;; for_each r body
  end.

(** An option whose [None] is the given exception. *)
Definition or_raise {A} (e : exn) (o : option A) : M A :=
  match o with
  | Some a => ret a
  | None => raise e
  end.

(** ** Operating-system calls *)

Definition os_path_exists (p : string) : M bool := fun w =>
  Done (bool_decide (is_Some (files w !! p))) w.

(** [os.unlink] / [os.remove]: OSError when there is no such file.  A path
    that is there is taken to be a file that can be removed; a directory, or
    a file the process may not remove, is not described. *)
Definition os_unlink (p : string) : M unit := fun w =>
  match files w !! p with
  | Some _ => Done tt (set_files (delete p (files w)) w)
  | None => Raise OSError (trace w)
  end.

(** [try: os.remove(p) except OSError: pass] *)
Definition os_remove_quietly (p : string) : M unit := fun w =>
  match files w !! p with
  | Some _ => Done tt (set_files (delete p (files w)) w)
  | None => Done tt w
  end.

(** ** Notification reader: [get_message] *)

(** [while not os.path.exists(pipe_name): continue] *)
Fixpoint wait_for_path (fuel : nat) (p : string) : M unit := fun w =>
  match fuel with
  | O => OutOfFuel
  | S fuel' =>
      if bool_decide (is_Some (files w !! p)) then Done tt w
      else wait_for_path fuel' p (tick w)
  end.

(** [rrdump_pipe = open(pipe_name, 'r')] *)
Definition open_pipe (p : string) : M unit := fun w =>
  Done tt (set_rrdump_pipe true (emit (EOpen p) w)).

(** [rrdump_pipe.read(1)]: one byte, or the empty string at end of file;
    [None] when the read blocks for ever. *)
Definition pipe_read1 (w : world) : option (string * world) :=
  match pipe_data w with
  | String c r => Some (String c EmptyString, set_pipe_data r w)
  | EmptyString => if pipe_eof w then Some (EmptyString, w) else None
  end.

(** The [while True] loop of [get_message]. *)
Fixpoint read_message (fuel : nat) (buf : string) : M string := fun w =>
  match fuel with
  | O => OutOfFuel
  | S fuel' =>
      match pipe_read1 w with
      | None => OutOfFuel
      | Some (c, w') =>
          let buf := buf +:+ c in
          if String.eqb buf EmptyString then Done EmptyString w'
          else if bool_decide (Py.last_char buf = Some Py.newline)
               then Done buf w'
               else read_message fuel' buf w'
      end
  end.

Definition get_message (fuel : nat) (pipe_name : string) : M string :=
  (fun w =>
     if rrdump_pipe w then ret tt w
     else (wait_for_path fuel pipe_name ;;; open_pipe pipe_name) w) ;;;
  read_message fuel EmptyString.

(** ** Cleanup *)

(** [rreplay.py] imports the module [consts], which is defined elsewhere:
    the two path names it takes from it are parameters here. *)
Record consts_module := Consts {
  PROC_FILE : string;
  RR_PIPE : string
}.

Definition cleanup (consts : consts_module) : M unit :=
  (b <- os_path_exists (PROC_FILE consts) ;;
   if b : bool then os_unlink (PROC_FILE consts) else ret tt) ;;;
  (b <- os_path_exists (RR_PIPE consts) ;;
   if b : bool then os_unlink (RR_PIPE consts) else ret tt).

(** ** JSON as [json.dump] writes it and [json.load] reads it

    The fragment used by the state files: strings, arrays and objects.  A
    character stands for a code point below 256; the text written is pure
    ASCII, every character outside the printable range being escaped.  For
    ASCII strings this is the text Python writes, byte for byte; the UTF-8
    decoding that Python 2 applies to other byte strings, after which it
    raises or writes other code points, is not modelled.  [loads] reads
    strings, arrays and objects, which is all the emitter writes, and no
    other JSON value. *)

Module Json.

#[warnings="-register-all"]
Inductive value :=
| Str (s : string)
| Arr (l : list value)
| Obj (m : list (string * value)).

(** *** Dicts *)

Fixpoint dict_get (k : string) (m : list (string * value)) : option value :=
  match m with
  | [] => None
  | (k', v) :: r => if String.eqb k k' then Some v else dict_get k r
  end.

(** [m[k] = v]: an existing key keeps its place, a new one is added. *)
Fixpoint dict_set (k : string) (v : value) (m : list (string * value))
  : list (string * value) :=
  match m with
  | [] => [(k, v)]
  | (k', v') :: r =>
      if String.eqb k k' then (k, v) :: r else (k', v') :: dict_set k v r
  end.

(** *** Writing *)

Definition hex_digit (n : N) : ascii :=
  if (n <? 10)%N then ascii_of_N (48 + n) else ascii_of_N (87 + n).

Definition escape_char (c : ascii) : string :=
  let n := N_of_ascii c in
  if Ascii.eqb c Py.quote then String Py.backslash (String Py.quote EmptyString)
  else if Ascii.eqb c Py.backslash
  then String Py.backslash (String Py.backslash EmptyString)
  else if (n =? 10)%N then String Py.backslash "n"
  else if (n =? 13)%N then String Py.backslash "r"
  else if (n =? 9)%N then String Py.backslash "t"
  else if (n =? 8)%N then String Py.backslash "b"
  else if (n =? 12)%N then String Py.backslash "f"
  else if (32 <=? n)%N && (n <=? 126)%N then String c EmptyString
  else String Py.backslash
         (String "u" (String "0" (String "0"
            (String (hex_digit (n / 16)) (String (hex_digit (n mod 16))
               EmptyString))))).

Fixpoint escape (s : string) : string :=
  match s with
  | EmptyString => EmptyString
  | String c r => escape_char c +:+ escape r
  end.

Definition encode_string (s : string) : string :=
  String Py.quote (escape s +:+ String Py.quote EmptyString).

(** [json.dumps] with its default separators. *)
Fixpoint encode (v : value) : string :=
  match v with
  | Str s => encode_string s
  | Arr l =>
      "[" +:+
      (fix items (l : list value) : string :=
         match l with
         | [] => "]"
         | x :: r =>
             encode x +:+
             match r with [] => "]" | _ :: _ => ", " +:+ items r end
         end) l
  | Obj m =>
      "{" +:+
      (fix members (m : list (string * value)) : string :=
         match m with
         | [] => "}"
         | (k, x) :: r =>
             encode_string k +:+ ": " +:+ encode x +:+
             match r with [] => "}" | _ :: _ => ", " +:+ members r end
         end) m
  end.

(** *** Reading *)

Definition is_ws (c : ascii) : bool :=
  let n := N_of_ascii c in
  (n =? 32)%N || (n =? 9)%N || (n =? 10)%N || (n =? 13)%N.

Fixpoint skip_ws (s : string) : string :=
  match s with
  | String c r => if is_ws c then skip_ws r else s
  | EmptyString => EmptyString
  end.

Definition hex_value (c : ascii) : option N :=
  let n := N_of_ascii c in
  if (48 <=? n)%N && (n <=? 57)%N then Some (n - 48)%N
  else if (97 <=? n)%N && (n <=? 102)%N then Some (n - 87)%N
  else if (65 <=? n)%N && (n <=? 70)%N then Some (n - 55)%N
  else None.

Definition hex4 (a b c d : ascii) : option N :=
  x3 ← hex_value a; x2 ← hex_value b; x1 ← hex_value c; x0 ← hex_value d;
  Some (((x3 * 16 + x2) * 16 + x1) * 16 + x0)%N.

Definition unescape (e : ascii) : option ascii :=
  if Ascii.eqb e Py.quote then Some Py.quote
  else if Ascii.eqb e Py.backslash then Some Py.backslash
  else if Ascii.eqb e "/" then Some "/"%char
  else if Ascii.eqb e "b" then Some "008"%char
  else if Ascii.eqb e "f" then Some "012"%char
  else if Ascii.eqb e "n" then Some "010"%char
  else if Ascii.eqb e "r" then Some "013"%char
  else if Ascii.eqb e "t" then Some "009"%char
  else None.

Definition push (c : ascii) (o : option (string * string))
  : option (string * string) :=
  '(str, rest) ← o; Some (String c str, rest).

(** The characters of a string literal after its opening quote, and what
    follows the closing quote.  Control characters must be escaped. *)
Fixpoint scanstring (s : string) : option (string * string) :=
  match s with
  | EmptyString => None
  | String c r =>
      if Ascii.eqb c Py.quote then Some (EmptyString, r)
      else if Ascii.eqb c Py.backslash then
        match r with
        | String e r1 =>
            if Ascii.eqb e "u" then
              match r1 with
              | String h3 (String h2 (String h1 (String h0 r2))) =>
                  match hex4 h3 h2 h1 h0 with
                  | Some n =>
                      if (n <? 256)%N then push (ascii_of_N n) (scanstring r2)
                      else None
                  | None => None
                  end
              | _ => None
              end
            else
              match unescape e with
              | Some ch => push ch (scanstring r1)
              | None => None
              end
        | EmptyString => None
        end
      else if (N_of_ascii c <? 32)%N then None
      else push c (scanstring r)
  end.

Fixpoint parse_value (fuel : nat) (s : string) : option (value * string) :=
  match fuel with
  | O => None
  | S fuel' =>
      match s with
      | String c r =>
          if Ascii.eqb c Py.quote then
            '(str, r') ← scanstring r; Some (Str str, r')
          else if Ascii.eqb c "[" then
            match skip_ws r with
            | String c' r' =>
                if Ascii.eqb c' "]" then Some (Arr [], r')
                else parse_elems fuel' (String c' r') []
            | EmptyString => None
            end
          else if Ascii.eqb c "{" then
            match skip_ws r with
            | String c' r' =>
                if Ascii.eqb c' "}" then Some (Obj [], r')
                else parse_members fuel' (String c' r') []
            | EmptyString => None
            end
          else None
      | EmptyString => None
      end
  end
with parse_elems (fuel : nat) (s : string) (acc : list value)
  : option (value * string) :=
  match fuel with
  | O => None
  | S fuel' =>
      '(v, r) ← parse_value fuel' s;
      match skip_ws r with
      | String c r' =>
          if Ascii.eqb c "," then parse_elems fuel' (skip_ws r') (acc ++ [v])
          else if Ascii.eqb c "]" then Some (Arr (acc ++ [v]), r')
          else None
      | EmptyString => None
      end
  end
with parse_members (fuel : nat) (s : string) (acc : list (string * value))
  : option (value * string) :=
  match fuel with
  | O => None
  | S fuel' =>
      match s with
      | String c r =>
          if Ascii.eqb c Py.quote then
            '(k, r1) ← scanstring r;
            match skip_ws r1 with
            | String c1 r2 =>
                if Ascii.eqb c1 ":" then
                  '(v, r3) ← parse_value fuel' (skip_ws r2);
                  match skip_ws r3 with
                  | String c3 r4 =>
                      if Ascii.eqb c3 "," then
                        parse_members fuel' (skip_ws r4) (dict_set k v acc)
                      else if Ascii.eqb c3 "}" then
                        Some (Obj (dict_set k v acc), r4)
                      else None
                  | EmptyString => None
                  end
                else None
            | EmptyString => None
            end
          else None
      | EmptyString => None
      end
  end.

(** [json.loads]: one value, white space allowed around it, nothing else.
    [None] is ValueError. *)
Definition loads (text : string) : option value :=
  '(v, rest) ← parse_value (String.length text) (skip_ws text);
  match skip_ws rest with
  | EmptyString => Some v
  | _ => None
  end.

End Json.

(** The dict of a subject as [json.dump] sees it.  A [Popen] object is not
    serialisable: [None] is the TypeError it causes. *)
Definition subject_items (s : subject) : list (string * Json.value) :=
  [ ("event", Json.Str (event s));
    ("rec_pid", Json.Str (rec_pid s));
    ("trace_file", Json.Str (trace_file s));
    ("trace_start", Json.Str (trace_start s));
    ("trace_end", Json.Str (trace_end s));
    ("mutator", Json.Str (mutator s));
    ("injected_state_file", Json.Str (injected_state_file s));
    ("other_procs", Json.Arr (Json.Str <$> other_procs s)) ]
  ++ match mmap_backing_files s with
     | Some x => [("mmap_backing_files", Json.Str x)]
     | None => []
     end
  ++ match checker s with
     | Some x => [("checker", Json.Str x)]
     | None => []
     end.

Definition subject_json (s : subject) : option Json.value :=
  match s_handle s with
  | Some _ => None
  | None => Some (Json.Obj (subject_items s))
  end.

(** ** Subject registry: [get_configuration] *)

Abbreviation config := (list ini_section).

(** [cfg.sections()] *)
Definition cfg_sections (cfg : config) : list string := sec_name <$> cfg.

Fixpoint find_section (cfg : config) (name : string) : option ini_section :=
  match cfg with
  | [] => None
  | sec :: r =>
      if String.eqb (sec_name sec) name then Some sec else find_section r name
  end.

(** [cfg.get(section, option)]; [sec_options] holds the values as ConfigParser
    resolves them.  A file that ConfigParser cannot parse and a value that it
    cannot interpolate are not described by [ini_files]. *)
Definition cfg_get (cfg : config) (section opt : string)
  : exn + string :=
  match find_section cfg section with
  | None => inl NoSectionError
  | Some sec =>
      match sec_options sec !! opt with
      | Some v => inr v
      | None => inl NoOptionError
      end
  end.

Definition lift_get (r : exn + string) : M string :=
  match r with
  | inr v => ret v
  | inl e => raise e
  end.

(** [try: s[k] = cfg.get(i, k) except ConfigParser.NoOptionError: pass] *)
Definition cfg_get_optional (cfg : config) (section opt : string)
  : M (option string) :=
  match cfg_get cfg section opt with
  | inr v => ret (Some v)
  | inl NoOptionError => ret None
  | inl e => raise e
  end.

(** The body of the loop over the sections: one subject per section. *)
Definition parse_section (cfg : config) (i : string) : M subject :=
  ev <- lift_get (cfg_get cfg i "event") ;;
  pid <- lift_get (cfg_get cfg i "pid") ;;
  tf <- lift_get (cfg_get cfg i "trace_file") ;;
  ts <- lift_get (cfg_get cfg i "trace_start") ;;
  te <- lift_get (cfg_get cfg i "trace_end") ;;
  mu <- lift_get (cfg_get cfg i "mutator") ;;
  mm <- cfg_get_optional cfg i "mmap_backing_files" ;;
  ch <- cfg_get_optional cfg i "checker" ;;
  ret (Subject ev pid tf ts te mu (ev +:+ "_" +:+ mu +:+ "_state.json") []
               mm ch None).

Fixpoint parse_sections (cfg : config) (sections : list string)
  : M (list subject) :=
  match sections with
  | [] => ret []
  | i :: r =>
      s <- parse_section cfg i ;;
      rest <- parse_sections cfg r ;;
      ret (s :: rest)
  end.

(** [subjects.sort(key=_sort_by_event)]: the keys are computed first (a
    non-numeric event is a ValueError), then the list is sorted on them,
    equal keys keeping their order. *)
Fixpoint event_keys (subjects : list subject) : option (list (Z * subject)) :=
  match subjects with
  | [] => Some []
  | s :: r =>
      k ← Py.int (event s);
      ks ← event_keys r;
      Some ((k, s) :: ks)
  end.

Fixpoint insert_by_key (x : Z * subject) (l : list (Z * subject))
  : list (Z * subject) :=
  match l with
  | [] => [x]
  | y :: r => if (x.1 <=? y.1)%Z then x :: y :: r else y :: insert_by_key x r
  end.

Fixpoint sort_by_key (l : list (Z * subject)) : list (Z * subject) :=
  match l with
  | [] => []
  | x :: r => insert_by_key x (sort_by_key r)
  end.

Definition sort_by_event (subjects : list subject) : M (list subject) :=
  match event_keys subjects with
  | Some ks => ret (snd <$> sort_by_key ks)
  | None => raise ValueError
  end.

Definition get_configuration (ini_path : string)
  : M (string * list subject) :=
  cfg <- (fun w => or_raise IOError (ini_files w !! ini_path) w) ;;
  let sections := cfg_sections cfg in
  rr_dir_section <- or_raise IndexError (head sections) ;;
  rr_dir <- lift_get (cfg_get cfg rr_dir_section "rr_dir") ;;
  let sections := tail sections in
  if (List.length sections =? 0)%nat then raise NoSectionError
  else
    subjects <- parse_sections cfg sections ;;
    (* the loop variable [s] stays bound to the last subject parsed *)
    let s := last subjects in
    subjects <- sort_by_event subjects ;;
    for_each subjects
      (fun i =>
         s <- or_raise UnboundLocalError s ;;
         os_remove_quietly (rec_pid s +:+ "_brks.json")) ;;;
    ret (rr_dir, subjects).

(** ** Event configuration emitter *)

(** [open(p, 'w')] and the writing of [content]: the file is created or
    replaced.  The path is taken to be one that can be opened for writing;
    a name in a directory that is missing or cannot be written is not
    described. *)
Definition write_file (p content : string) : M unit := fun w =>
  Done tt (set_files (<[p := content]> (files w)) w).

Definition read_file (p : string) : M string := fun w =>
  or_raise IOError (files w !! p) w.

Definition create_event_configuration_files (subjects : list subject)
  : M unit :=
  for_each subjects
    (fun s =>
       d <- or_raise TypeError (subject_json s) ;;
       write_file (injected_state_file s) (Json.encode d)).

(** ** Process-set matcher: [process_messages] *)

(** The local variables of [process_messages].  The dicts in [subjects] are
    shared with the caller and with [s]; [m_s] is the position in the list of
    the dict [s] is bound to, [None] while [s] is unbound. *)
Record matcher := Matcher {
  m_subjects : list subject;
  m_handled : gset (string * string);
  m_s : option nat
}.

(** The loop that fills [subjects_for_event], from position [i] on. *)
Fixpoint subjects_for_event (handled : gset (string * string)) (ev : string)
    (i : nat) (l : list subject) : list (nat * subject) :=
  match l with
  | [] => []
  | x :: r =>
      if decide (event x = ev ∧ key x ∉ handled)
      then (i, x) :: subjects_for_event handled ev (S i) r
      else subjects_for_event handled ev (S i) r
  end.

(** [while not util.process_is_alive(pid): print('waiting...')] *)
Fixpoint wait_alive (fuel : nat) (pid : string) : M unit := fun w =>
  match fuel with
  | O => OutOfFuel
  | S fuel' =>
      if alive_at w (clock w) pid then Done tt w
      else wait_alive fuel' pid (tick (emit (EPrint "waiting...") w))
  end.

(** [subprocess.Popen(argv)] *)
Definition popen (argv : list string) : M handle := fun w =>
  if can_spawn w argv
  then Done (spawned w)
            (emit (EPopen argv (spawned w)) (set_spawned (S (spawned w)) w))
  else Raise OSError (trace w).

(** The three fields the matcher takes from a message; [None] is the
    IndexError of a line with too few fields. *)
Definition parse_notification (message : string)
  : option (string * string * string) :=
  let parts := Py.split " " message in
  part0 ← parts !! 0%nat;
  let inject := Py.drop_last (Py.strip part0) in
  event ← parts !! 2%nat;
  pid ← parts !! 4%nat;
  Some (inject, event, pid).

(** The two warnings logged when [subjects_for_event.pop()] finds the list
    empty. *)
Definition orphan_warning_1 : effect :=
  ELog WARNING "rr generated an extra process for which we have no subject" [].

Definition orphan_warning_2 : effect :=
  ELog WARNING "We will ignore it but the zombie will remain running" [].

Definition orphan_warnings : M unit :=
  do_emit orphan_warning_1 ;;; do_emit orphan_warning_2.

(** The branch [if inject == 'INJECT'] once a subject has been popped. *)
Definition inject_subject (st : matcher) (i : nat) (s : subject)
    (pid : string) : M matcher :=
  let handled := m_handled st ∪ {[ key s ]} in
  let eventwise_statefile := injected_state_file s in
  text <- read_file eventwise_statefile ;;
  tmp <- or_raise ValueError (Json.loads text) ;;
  match tmp with
  | Json.Obj tmp =>
      let tmp := Json.dict_set "pid" (Json.Str pid) tmp in
      let pid_unique_statefile := pid +:+ "_" +:+ eventwise_statefile in
      write_file pid_unique_statefile (Json.encode (Json.Obj tmp)) ;;;
      h <- popen ["inject"; "--verbosity=40"; pid_unique_statefile] ;;
      ret (Matcher (<[i := with_handle h s]> (m_subjects st)) handled (Some i))
  | _ => raise TypeError
  end.

(** [s['other_procs'].append(pid)], with whatever [s] is bound to. *)
Definition track_other_proc (st : matcher) (pid : string) : M matcher :=
  i <- or_raise UnboundLocalError (m_s st) ;;
  ret (Matcher
         (alter (fun s => with_other_procs (other_procs s ++ [pid]) s) i
                (m_subjects st))
         (m_handled st) (m_s st)).

(** The [if]/[elif] on the decision keyword. *)
Definition dispatch (inject pid : string) (candidates : list (nat * subject))
    (st : matcher) : M matcher :=
  if String.eqb inject "INJECT" then
    match last candidates with
    | None => orphan_warnings ;;; ret st
    | Some (i, s) => inject_subject st i s pid
    end
  else if String.eqb inject "DONT_INJECT" then track_other_proc st pid
  else ret st.

(** One turn of the [while] loop. *)
Definition process_message (consts : consts_module) (fuel : nat)
    (st : matcher) : M matcher :=
  message <- get_message fuel (RR_PIPE consts) ;;
  notification <- or_raise IndexError (parse_notification message) ;;
  let '(inject, event, pid) := notification in
  let candidates :=
    subjects_for_event (m_handled st) event 0 (m_subjects st) in
  wait_alive fuel pid ;;;
  dispatch inject pid candidates st.

Fixpoint process_messages_loop (consts : consts_module) (fuel : nat)
    (st : matcher) : M matcher := fun w =>
  match fuel with
  | O => OutOfFuel
  | S fuel' =>
      if (size (m_handled st) <? List.length (m_subjects st))%nat
      then (st' <- process_message consts fuel' st ;;
            process_messages_loop consts fuel' st') w
      else Done st w
  end.

(** [process_messages(subjects)]; the result is the list of dicts as the
    function leaves them. *)
Definition process_messages (consts : consts_module) (fuel : nat)
    (subjects : list subject) : M (list subject) :=
  st <- process_messages_loop consts fuel (Matcher subjects ∅ None) ;;
  ret (m_subjects st).

(** ** Supervisor waiter: [wait_on_handles] *)

(** What a list is indexed with.  The pids kept in [other_procs] are
    strings. *)
Inductive pyindex :=
| IInt (i : Z)
| IStr (s : string).

(** [l[i]] *)
Definition list_getitem {A} (l : list A) (i : pyindex) : M A :=
  match i with
  | IStr _ => raise TypeError
  | IInt z =>
      let n := Z.of_nat (List.length l) in
      if (0 <=? z)%Z then or_raise IndexError (l !! Z.to_nat z)
      else if (0 <=? n + z)%Z then or_raise IndexError (l !! Z.to_nat (n + z))
      else raise IndexError
  end.

(** [s['handle'].wait()], for a supervisor that ends: [exit_status] is the
    status it ends with.  A supervisor that never ends, on which [wait]
    blocks for ever, is not described. *)
Definition popen_wait (h : handle) : M Z := fun w =>
  Done (exit_status w h) (emit (EWait h) w).

(** [try: os.kill(pid, signal.SIGKILL) except OSError: pass] *)
Definition os_kill_quietly (pid : Z) : M unit := fun w =>
  if kill_ok w pid then Done tt (emit (EKill pid) w)
  else Done tt (emit (EKill pid) w).

Definition wait_on_handle (s : subject) : M unit :=
  ret_code <-
    match s_handle s with
    | Some h => popen_wait h
    | None =>
        do_emit (ELog ERROR "No handle associated with subject {}"
                      [LSubject s]) ;;;
        ret (-1)%Z
    end ;;
  for_each (other_procs s)
    (fun i =>
       (* the argument of the debug line, [s['other_procs'][i]] *)
       _ <- list_getitem (other_procs s) (IStr i) ;;
       n <- or_raise ValueError (Py.int i) ;;
       os_kill_quietly n) ;;;
  if (ret_code =? 0)%Z then ret tt
  else do_emit (ELog ERROR
                  "CrashSimulator supervisor for event:rec_pid {}:{} failed"
                  [LStr (event s); LStr (rec_pid s)]).

Definition wait_on_handles (subjects : list subject) : M unit :=
  for_each subjects wait_on_handle.

(** ** Replay engine launcher: [execute_rr] *)

(** The loop that builds [events_str]. *)
Definition events_string (subjects : list subject) : string :=
  fold_left
    (fun events_str i => events_str +:+ rec_pid i +:+ ":" +:+ event i +:+ ",")
    subjects EmptyString.

(** The capture file is opened for writing, which creates or empties it, and
    rr is started with its output directed there. *)
Definition execute_rr (consts : consts_module) (rr_dir : string)
    (subjects : list subject) : M unit :=
  let events_str := events_string subjects in
  let command := ["rr"; "replay"; "-a"; "-n"; events_str; rr_dir] in
  write_file (PROC_FILE consts) EmptyString ;;;
  _ <- popen command ;;
  ret tt.

(** ** The whole run: [call_replay] *)

(** How a function that may call [sys.exit] ends. *)
Inductive run (A : Type) :=
| Exited (code : Z) (w : world)
| Ran (o : outcome A).
Arguments Exited {A} code w.
Arguments Ran {A} o.

(** [consts.DEFAULT_CONFIG_PATH], like the two other names of [consts], is a
    parameter.  The test directory is looked up like any other path.  The
    function takes [verbosity] and makes no use of it. *)
Definition call_replay (consts : consts_module) (DEFAULT_CONFIG_PATH : string)
    (fuel : nat) (test_name : string) (verbosity : option Z)
  : world -> run unit := fun w =>
  match cleanup consts w with
  | Done _ w1 =>
      let test_dir := DEFAULT_CONFIG_PATH +:+ test_name in
      if bool_decide (is_Some (files w1 !! test_dir)) then
        Ran ((r <- get_configuration (test_dir +:+ "/" +:+ "config.ini") ;;
              let '(rr_dir, subjects) := r in
              create_event_configuration_files subjects ;;;
              execute_rr consts rr_dir subjects ;;;
              subjects <- process_messages consts fuel subjects ;;
              wait_on_handles subjects ;;;
              cleanup consts) w1)
      else
        Exited 1
          (emit (EPrint ("Test " +:+ test_name +:+
                         " does not exist. Create before attempting to configure!"))
                w1)
  | Raise e tr => Ran (Raise e tr)
  | OutOfFuel => Ran OutOfFuel
  end.

(** ** Vocabulary of the statements *)

(** Whether the character occurs in the string. *)
Fixpoint contains (c : ascii) (s : string) : bool :=
  match s with
  | EmptyString => false
  | String a r => Ascii.eqb a c || contains c r
  end.

(** The line terminator as a string. *)
Definition nl : string := String Py.newline EmptyString.

(** Number of times the FIFO has been opened. *)
Fixpoint opens (tr : list effect) : nat :=
  match tr with
  | [] => 0
  | EOpen _ :: r => S (opens r)
  | _ :: r => opens r
  end.

(** A complete message: one line terminator, at the end. *)
Definition complete_message (r : string) : Prop :=
  exists body, r = body +:+ nl /\ contains Py.newline body = false.

(** [n] successive calls of [get_message]. *)
Fixpoint get_messages (fuel : nat) (pipe_name : string) (n : nat)
  : M (list string) :=
  match n with
  | O => ret []
  | S n' =>
      r <- get_message fuel pipe_name ;;
      rs <- get_messages fuel pipe_name n' ;;
      ret (r :: rs)
  end.

(** The members of a JSON array and of a JSON object as [Json.encode] lays
    them out after the opening bracket. *)
Fixpoint encode_items (l : list Json.value) : string :=
  match l with
  | [] => "]"
  | x :: r =>
      Json.encode x +:+
      match r with [] => "]" | _ :: _ => ", " +:+ encode_items r end
  end.

Fixpoint encode_members (m : list (string * Json.value)) : string :=
  match m with
  | [] => "}"
  | (k, x) :: r =>
      Json.encode_string k +:+ ": " +:+ Json.encode x +:+
      match r with [] => "}" | _ :: _ => ", " +:+ encode_members r end
  end.

(** A value as a Python dict can hold it: no key twice in an object. *)
Fixpoint json_wf (v : Json.value) : Prop :=
  match v with
  | Json.Str _ => True
  | Json.Arr l =>
      (fix all (l : list Json.value) : Prop :=
         match l with
         | [] => True
         | x :: r => json_wf x /\ all r
         end) l
  | Json.Obj m =>
      NoDup (fst <$> m) /\
      (fix all (m : list (string * Json.value)) : Prop :=
         match m with
         | [] => True
         | (_, x) :: r => json_wf x /\ all r
         end) m
  end.

(** Fuel that suffices to read a value back. *)
Fixpoint json_size (v : Json.value) : nat :=
  match v with
  | Json.Str _ => 1
  | Json.Arr l =>
      S ((fix sum (l : list Json.value) : nat :=
            match l with
            | [] => 0
            | x :: r => S (json_size x + sum r)
            end) l)
  | Json.Obj m =>
      S ((fix sum (m : list (string * Json.value)) : nat :=
            match m with
            | [] => 0
            | (_, x) :: r => S (json_size x + sum r)
            end) m)
  end.

Fixpoint sizes (l : list Json.value) : nat :=
  match l with
  | [] => 0
  | x :: r => S (json_size x + sizes r)
  end.

Fixpoint member_sizes (m : list (string * Json.value)) : nat :=
  match m with
  | [] => 0
  | (_, x) :: r => S (json_size x + member_sizes r)
  end.

(** What reading back one value means, for any fuel that covers its size
    and whatever text follows. *)
Definition reads_back (v : Json.value) : Prop :=
  forall fuel rest,
    json_size v <= fuel ->
    Json.parse_value fuel (Json.encode v +:+ rest) = Some (v, rest).

(** The text [json.dump] writes for a subject that has no handle yet. *)
Definition subject_text (s : subject) : string :=
  Json.encode (Json.Obj (subject_items s)).

(** The files after the emitter has written the subjects in order. *)
Definition emitted_files (subjects : list subject)
    (f : gmap string string) : gmap string string :=
  fold_left (fun f s => <[injected_state_file s := subject_text s]> f)
            subjects f.

(** The numeric event id of a subject. *)
Definition event_id (s : subject) : Z := default 0%Z (Py.int (event s)).

(** The order the registry sorts by. *)
Definition event_le (a b : subject) : Prop := (event_id a <= event_id b)%Z.

Definition event_lt (a b : subject) : Prop := (event_id a < event_id b)%Z.

(** The order on the keys computed for the sort. *)
Definition key_le (a b : Z * subject) : Prop := (a.1 <= b.1)%Z.

(** Effects that start, await or kill no process. *)
Definition harmless (e : effect) : Prop :=
  match e with
  | EKill _ | EPopen _ _ | EWait _ => False
  | _ => True
  end.

(** What reading a message and waiting for a process may do to the world:
    the trace grows by harmless effects, no process is started, and the
    files change only through what the other processes do to them. *)
Record undisturbed (w w' : world) : Prop := Undisturbed {
  und_env : env w' = env w;
  und_spawned : spawned w' = spawned w;
  und_files : (forall t f, env w t f = f) -> files w' = files w;
  und_trace : exists added, trace w' = trace w ++ added /\ Forall harmless added
}.

(** What the waiter records for a subject that has no sibling to kill. *)
Definition waiter_report (w : world) (s : subject) : list effect :=
  let failed :=
    ELog ERROR "CrashSimulator supervisor for event:rec_pid {}:{} failed"
         [LStr (event s); LStr (rec_pid s)] in
  match s_handle s with
  | Some h => EWait h :: (if (exit_status w h =? 0)%Z then [] else [failed])
  | None =>
      [ELog ERROR "No handle associated with subject {}" [LSubject s]; failed]
  end.

(** ** Concrete runs *)

(** The two names as the log messages of [cleanup] give them. *)
Definition consts0 : consts_module := Consts "proc.out" "rrdump_proc.pipe".

(** A world in which nothing else happens: the other processes leave the
    files alone, every reported pid is alive at once, [inject] can be
    started and exits with the given status. *)
Definition quiet_world (inis : gmap string config)
    (fs : gmap string string) (pipe : string) (status : Z) : world :=
  World fs inis pipe true false 0 (fun _ f => f) (fun _ _ => true)
        (fun _ => true) 0 (fun _ => status) (fun _ => true) [].

Definition rr_section : ini_section :=
  IniSection "rr" {[ "rr_dir" := "/traces" ]}.

Definition subject_section (name ev pid mut : string) : ini_section :=
  IniSection name
    (list_to_map [("event", ev); ("pid", pid); ("trace_file", "t.bin");
                  ("trace_start", "0"); ("trace_end", "10");
                  ("mutator", mut)]).

Definition plain_subject (ev pid mut : string) : subject :=
  Subject ev pid "t.bin" "0" "10" mut (ev +:+ "_" +:+ mut +:+ "_state.json")
          [] None None None.

(** Two subjects, at events 5 and 7. *)
Definition s5 : subject := plain_subject "5" "100" "drop_write".
Definition s7 : subject := plain_subject "7" "200" "drop_write".

(** Their configuration, and a world that holds it together with a stale
    cache file for each of the two recorded pids. *)

Definition cfg_two : config :=
  [rr_section; subject_section "a" "5" "100" "drop_write";
   subject_section "b" "7" "200" "drop_write"].

Definition w_two : world :=
  quiet_world {[ "config.ini" := cfg_two ]}
              {[ "100_brks.json" := "stale"; "200_brks.json" := "stale" ]}
              EmptyString 0.

(** Two sections with the same event and the same mutator. *)
Definition cfg_dup : config :=
  [rr_section; subject_section "a" "5" "100" "drop_write";
   subject_section "b" "5" "101" "drop_write"].

Definition w_dup : world :=
  quiet_world {[ "config.ini" := cfg_dup ]} ∅ EmptyString 0.

(** The state files of [s5] and [s7] as the emitter leaves them. *)
Definition state_files : gmap string string :=
  emitted_files [s5; s7] {[ "rrdump_proc.pipe" := EmptyString ]}.

Definition line (decision ev pid rec : string) : string :=
  decision +:+ ": EVENT: " +:+ ev +:+ " PID: " +:+ pid
           +:+ " REC_PID: " +:+ rec +:+ nl.

(** rr reports the sibling of event 7 before the process to inject. *)
Definition w_sibling_first : world :=
  quiet_world ∅ state_files
    (line "INJECT" "5" "4242" "100" +:+ line "DONT_INJECT" "7" "4300" "200"
     +:+ line "INJECT" "7" "4301" "200") 0.

(** rr reports a sibling before any process to inject. *)
Definition w_sibling_only : world :=
  quiet_world ∅ state_files (line "DONT_INJECT" "5" "4243" "100") 0.

(** A line with an unknown keyword, then the expected one. *)
Definition w_bogus : world :=
  quiet_world ∅ state_files
    (line "BOGUS" "5" "4242" "100" +:+ line "INJECT" "5" "4242" "100") 0.

(** Event 5 is handled already and rr reports one more process for it. *)
Definition st_5_handled : matcher :=
  Matcher [with_handle 0 s5; s7] {[ key s5 ]} (Some 0).

Definition w_extra : world :=
  quiet_world ∅ state_files (line "INJECT" "5" "4250" "100") 0.

(** A matched subject with one sibling, whose supervisor exits with 1. *)
Definition s5_matched : subject :=
  with_other_procs ["4243"] (with_handle 0 s5).

Definition w_failed : world := quiet_world ∅ ∅ EmptyString 1.

(** The world once the FIFO has been opened and a first message read, with
    [rest] still to come. *)
Definition after_first_message (rest : string) (w : world) : world :=
  set_pipe_data rest
    (set_rrdump_pipe true (emit (EOpen "rrdump_proc.pipe") w)).

(** Bytes without a line terminator, after which rr closes the FIFO. *)
Definition w_partial : world := quiet_world ∅ state_files "INJECT: EVE" 0.

(** ** Further vocabulary *)

(** The pids a trace shows a kill signal sent to, and the command lines it
    shows started. *)
Fixpoint kills (tr : list effect) : list Z :=
  match tr with
  | [] => []
  | EKill pid :: r => pid :: kills r
  | _ :: r => kills r
  end.

Fixpoint popens (tr : list effect) : list (list string) :=
  match tr with
  | [] => []
  | EPopen argv _ :: r => argv :: popens r
  | _ :: r => popens r
  end.

(** Whether a white-space character occurs in the string. *)
Fixpoint has_space (s : string) : bool :=
  match s with
  | EmptyString => false
  | String c r => Py.is_space c || has_space r
  end.

(** The strings of a list one after the other. *)
Fixpoint joined (l : list string) : string :=
  match l with
  | [] => EmptyString
  | x :: r => x +:+ joined r
  end.

(** The pair rr is asked for on behalf of a subject. *)
Definition event_request (s : subject) : string :=
  rec_pid s +:+ ":" +:+ event s.

(** Two states of the same subject dict: everything read from the
    configuration is the same, and the sibling list has only grown. *)
Record grown (a b : subject) : Prop := Grown {
  grown_event : event b = event a;
  grown_rec_pid : rec_pid b = rec_pid a;
  grown_trace_file : trace_file b = trace_file a;
  grown_trace_start : trace_start b = trace_start a;
  grown_trace_end : trace_end b = trace_end a;
  grown_mutator : mutator b = mutator a;
  grown_state_file : injected_state_file b = injected_state_file a;
  grown_backing : mmap_backing_files b = mmap_backing_files a;
  grown_checker : checker b = checker a;
  grown_other_procs : other_procs a `prefix_of` other_procs b
}.

(** The keys a subject section must have. *)
Definition required_keys : list string :=
  ["event"; "pid"; "trace_file"; "trace_start"; "trace_end"; "mutator"].

(** The condition of the [while] loop of [process_messages]. *)
Definition pending (st : matcher) : bool :=
  (size (m_handled st) <? List.length (m_subjects st))%nat.

(** The subjects at the positions [J] are those matched so far: they have
    a handle, their keys are pairwise distinct and make up the handled set. *)
Definition matched_at (st : matcher) (J : list nat) : Prop :=
  NoDup J
  /\ (exists ks,
         Forall2 (fun j k =>
                    exists s, m_subjects st !! j = Some s /\ key s = k
                              /\ is_Some (s_handle s)) J ks
         /\ NoDup ks
         /\ m_handled st = list_to_set ks).

(** A subject as the registry builds it from a section: the values of the
    six required options, the state-file name made of the event and the
    mutator, an empty sibling list, the two optional options when the
    section has them, and no handle. *)
Record read_from (sec : ini_section) (s : subject) : Prop := ReadFrom {
  rf_event : sec_options sec !! "event" = Some (event s);
  rf_pid : sec_options sec !! "pid" = Some (rec_pid s);
  rf_trace_file : sec_options sec !! "trace_file" = Some (trace_file s);
  rf_trace_start : sec_options sec !! "trace_start" = Some (trace_start s);
  rf_trace_end : sec_options sec !! "trace_end" = Some (trace_end s);
  rf_mutator : sec_options sec !! "mutator" = Some (mutator s);
  rf_state_file :
    injected_state_file s = event s +:+ "_" +:+ mutator s +:+ "_state.json";
  rf_other_procs : other_procs s = [];
  rf_backing : sec_options sec !! "mmap_backing_files" = mmap_backing_files s;
  rf_checker : sec_options sec !! "checker" = checker s;
  rf_handle : s_handle s = None
}.

(** A section the registry can turn into a subject: the required options
    are there and the event is a number. *)
Definition usable (sec : ini_section) : Prop :=
  Forall (fun k => is_Some (sec_options sec !! k)) required_keys
  /\ exists ev, sec_options sec !! "event" = Some ev /\ is_Some (Py.int ev).

(** A section that lacks a required option. *)
Definition incomplete (sec : ini_section) : Prop :=
  Exists (fun k => sec_options sec !! k = None) required_keys.

(** A complete run: the test directory and its configuration are there, rr
    creates the FIFO once started and reports one process to inject for
    each of the two subjects, and both supervisors exit with status 0. *)
Definition w_run : world :=
  World {[ "tests/demo" := EmptyString ]}
        {[ "tests/demo/config.ini" := cfg_two ]}
        (line "INJECT" "5" "4242" "100" +:+ line "INJECT" "7" "4301" "200")
        true false 0
        (fun _ f => <["rrdump_proc.pipe" := EmptyString]> f)
        (fun _ _ => true) (fun _ => true) 0 (fun _ => 0%Z) (fun _ => true) [].

(** The world it ends in. *)
Definition w_run_end : world :=
  match call_replay consts0 "tests/" 60 "demo" None w_run with
  | Ran (Done _ w') => w'
  | _ => w_run
  end.

(** ** Strings on which the JSON text is the text Python writes *)

(** Whether every byte of the string is below 128. *)
Fixpoint is_ascii (s : string) : bool :=
  match s with
  | EmptyString => true
  | String c r => (N_of_ascii c <? 128)%N && is_ascii r
  end.

(** The strings [json.dump] meets in the dict of a subject. *)
Definition subject_strings (s : subject) : list string :=
  [event s; rec_pid s; trace_file s; trace_start s; trace_end s; mutator s;
   injected_state_file s]
  ++ other_procs s
  ++ option_list (mmap_backing_files s)
  ++ option_list (checker s).

(** A subject all of whose strings are ASCII.  For such a subject the text
    of the model is the text [json.dump] writes and the strings [json.load]
    gives back compare equal to the ones written; for other byte strings
    Python 2 decodes UTF-8 first, and raises or reads back another string. *)
Definition ascii_subject (s : subject) : Prop :=
  Forall (fun x => is_ascii x = true) (subject_strings s).

(** A section with the six required options. *)
Definition complete (sec : ini_section) : Prop :=
  Forall (fun k => is_Some (sec_options sec !! k)) required_keys.

(** A section whose event is there and is not a number. *)
Definition bad_event (sec : ini_section) : Prop :=
  exists ev, sec_options sec !! "event" = Some ev /\ Py.int ev = None.

(** ** Further concrete runs *)

(** The orphan of [w_extra], a process that is never reported alive. *)
Definition w_dead_orphan : world :=
  World state_files ∅ (line "INJECT" "5" "4250" "100") true false 0
        (fun _ f => f) (fun _ _ => false) (fun _ => true) 0 (fun _ => 0%Z)
        (fun _ => true) [].

(** A configuration whose second subject has an event that is no number. *)
Definition cfg_bad_event : config :=
  [rr_section; subject_section "a" "5" "100" "drop_write";
   subject_section "b" "x7" "200" "drop_write"].

Definition w_bad_event : world :=
  quiet_world {[ "config.ini" := cfg_bad_event ]} ∅ EmptyString 0.

(** * Properties *)

Lemma bind_unfold {A B} (m : M A) (k : A -> M B) (w : world) :
  bind m k w =
  match m w with
  | Done a w' => k a w'
  | Raise e tr => Raise e tr
  | OutOfFuel => OutOfFuel
  end.
Proof. reflexivity. Qed.

(** ** Strings *)

Lemma append_empty_r (s : string) : s +:+ EmptyString = s.
Proof. induction s as [|c s IH]; simpl; [reflexivity | now rewrite IH]. Qed.

Lemma append_assoc' (a b c : string) : (a +:+ b) +:+ c = a +:+ (b +:+ c).
Proof. induction a as [|x a IH]; simpl; [reflexivity | now rewrite IH]. Qed.

Lemma append_cons (c : ascii) (a b : string) :
  String c a +:+ b = String c (a +:+ b).
Proof. reflexivity. Qed.

Lemma append_char_not_empty (buf : string) (c : ascii) :
  buf +:+ String c EmptyString <> EmptyString.
Proof. destruct buf; discriminate. Qed.

Lemma last_char_append_char (buf : string) (c : ascii) :
  Py.last_char (buf +:+ String c EmptyString) = Some c.
Proof.
  induction buf as [|x buf IH]; [reflexivity|].
  simpl. rewrite IH.
  destruct (buf +:+ String c EmptyString) eqn:E; [|reflexivity].
  now apply append_char_not_empty in E.
Qed.

Lemma contains_append (c : ascii) (a b : string) :
  contains c (a +:+ b) = contains c a || contains c b.
Proof.
  induction a as [|x a IH]; simpl; [reflexivity|].
  rewrite IH. now rewrite orb_assoc.
Qed.

Lemma last_char_contains (s : string) (c : ascii) :
  Py.last_char s = Some c -> contains c s = true.
Proof.
  induction s as [|x s IH]; simpl; [discriminate|].
  destruct s as [|y s].
  - intros [= ->]. now rewrite Ascii.eqb_refl.
  - intros H. rewrite (IH H). apply orb_true_r.
Qed.

(** ** The world under the reader *)

Lemma set_pipe_data_same (w : world) : set_pipe_data (pipe_data w) w = w.
Proof. now destruct w. Qed.

Lemma iter_tick_frame (n : nat) (w : world) :
  pipe_data (Nat.iter n tick w) = pipe_data w
  /\ pipe_eof (Nat.iter n tick w) = pipe_eof w
  /\ rrdump_pipe (Nat.iter n tick w) = rrdump_pipe w
  /\ trace (Nat.iter n tick w) = trace w.
Proof. induction n as [|n IH]; simpl; [tauto | exact IH]. Qed.

Lemma iter_tick_shift (n : nat) (w : world) :
  Nat.iter n tick (tick w) = tick (Nat.iter n tick w).
Proof. induction n as [|n IH]; simpl; [reflexivity | now rewrite IH]. Qed.

(** The busy wait ends after some number of polls, and only time passed. *)
Lemma wait_for_path_done (fuel : nat) (p : string) (w w' : world) (u : unit) :
  wait_for_path fuel p w = Done u w' ->
  exists n, w' = Nat.iter n tick w.
Proof.
  revert w. induction fuel as [|fuel IH]; intros w; simpl; [discriminate|].
  case_bool_decide as Hp.
  - intros [= _ <-]. now exists 0.
  - intros H. destruct (IH _ H) as [n ->].
    exists (S n). simpl. now rewrite iter_tick_shift.
Qed.

Lemma wait_for_path_never_raises (fuel : nat) (p : string) (w : world) e tr :
  wait_for_path fuel p w <> Raise e tr.
Proof.
  revert w. induction fuel as [|fuel IH]; intros w; simpl; [discriminate|].
  case_bool_decide; [discriminate | apply IH].
Qed.

(** With the path appearing after [n] polls, [n + 1] units of fuel do. *)
Lemma wait_for_path_enough (n : nat) (p : string) (w : world) :
  is_Some (files (Nat.iter n tick w) !! p) ->
  forall fuel, n < fuel ->
  exists m, wait_for_path fuel p w = Done tt (Nat.iter m tick w).
Proof.
  revert w. induction n as [|n IH]; intros w Hn fuel Hf.
  - destruct fuel as [|fuel]; [lia|]. simpl in *.
    rewrite bool_decide_eq_true_2 by assumption. now exists 0.
  - destruct fuel as [|fuel]; [lia|]. simpl.
    case_bool_decide; [now exists 0|].
    change (Nat.iter (S n) tick w) with (tick (Nat.iter n tick w)) in Hn.
    rewrite <- iter_tick_shift in Hn.
    destruct (IH (tick w) Hn fuel ltac:(lia)) as [m Hm].
    exists (S m). rewrite Hm. simpl. now rewrite iter_tick_shift.
Qed.

(** ** The read loop *)

Lemma read_message_done (fuel : nat) (buf : string) (w w' : world) (r : string) :
  read_message fuel buf w = Done r w' ->
  contains Py.newline buf = false ->
  exists taken,
    r = buf +:+ taken
    /\ pipe_data w = taken +:+ pipe_data w'
    /\ w' = set_pipe_data (pipe_data w') w
    /\ ((r = EmptyString /\ pipe_data w = EmptyString /\ pipe_eof w = true)
        \/ complete_message r).
Proof.
  revert buf w. induction fuel as [|fuel IH]; intros buf w; simpl; [discriminate|].
  unfold pipe_read1.
  destruct (pipe_data w) as [|c d] eqn:Hd.
  - destruct (pipe_eof w) eqn:He; [|discriminate].
    rewrite append_empty_r.
    destruct (String.eqb buf EmptyString) eqn:Hb.
    + apply String.eqb_eq in Hb. subst buf.
      intros [= <- <-] _. exists EmptyString. simpl.
      rewrite Hd. repeat split; try reflexivity.
      * now rewrite <- Hd, set_pipe_data_same.
      * left. repeat split; assumption.
    + case_bool_decide as Hl.
      * intros _ Hc. apply last_char_contains in Hl. congruence.
      * intros H Hc. destruct (IH _ _ H Hc) as (taken & -> & Ht & Hw & Hr).
        exists taken. split; [reflexivity|]. split; [congruence|].
        split; [assumption|]. destruct Hr as [(Hr & _) | Hr]; [|now right].
        left. now rewrite Hr.
  - destruct (String.eqb (buf +:+ String c EmptyString) EmptyString) eqn:Hb.
    { apply String.eqb_eq in Hb. now apply append_char_not_empty in Hb. }
    case_bool_decide as Hl.
    + intros [= <- <-] Hc. rewrite last_char_append_char in Hl.
      injection Hl as ->.
      exists nl. simpl. repeat split; try reflexivity.
      right. exists buf. split; [reflexivity | assumption].
    + intros H Hc.
      assert (Hc' : contains Py.newline (buf +:+ String c EmptyString) = false).
      { rewrite contains_append, Hc. simpl. rewrite orb_false_r.
        rewrite last_char_append_char in Hl.
        apply Ascii.eqb_neq. congruence. }
      destruct (IH _ _ H Hc') as (taken & -> & Ht & Hw & Hr).
      exists (String c taken). simpl in Ht. rewrite append_assoc'. simpl.
      repeat split.
      * now rewrite Ht.
      * rewrite Hw at 1. reflexivity.
      * right. destruct Hr as [(Hr & _) | Hr]; [|rewrite append_assoc' in Hr; exact Hr].
        rewrite append_assoc' in Hr. simpl in Hr.
        destruct buf; discriminate.
Qed.

Lemma read_message_never_raises (fuel : nat) (buf : string) (w : world) e tr :
  read_message fuel buf w <> Raise e tr.
Proof.
  revert buf w. induction fuel as [|fuel IH]; intros buf w; simpl; [discriminate|].
  destruct (pipe_read1 w) as [[c w1]|]; [|discriminate].
  destruct (String.eqb _ _); [discriminate|].
  case_bool_decide; [discriminate | apply IH].
Qed.

(** Once a byte is in the buffer and no terminator is left to come, the
    loop cannot exit: at the end of the data every read returns the empty
    string (or blocks) and the buffer, never empty, never ends a line. *)
Lemma read_message_stuck (fuel : nat) (buf : string) (w : world) :
  contains Py.newline (pipe_data w) = false ->
  contains Py.newline buf = false ->
  buf <> EmptyString \/ pipe_data w <> EmptyString ->
  read_message fuel buf w = OutOfFuel.
Proof.
  revert buf w. induction fuel as [|fuel IH]; intros buf w Hd Hb Hne; simpl;
    [reflexivity|].
  unfold pipe_read1. destruct (pipe_data w) as [|c d] eqn:E.
  - destruct (pipe_eof w); [|reflexivity].
    rewrite append_empty_r.
    destruct Hne as [Hne|Hne]; [|congruence].
    apply String.eqb_neq in Hne. rewrite Hne.
    case_bool_decide as Hl.
    + apply last_char_contains in Hl. congruence.
    + apply IH; [now rewrite E | assumption | left; now apply String.eqb_neq].
  - simpl in Hd. apply orb_false_iff in Hd as [Hc Hd].
    destruct (String.eqb (buf +:+ String c EmptyString) EmptyString) eqn:Hbe.
    { apply String.eqb_eq in Hbe. now apply append_char_not_empty in Hbe. }
    rewrite last_char_append_char.
    case_bool_decide as Hl.
    + injection Hl as ->. now rewrite Ascii.eqb_refl in Hc.
    + apply IH; [exact Hd | | left; apply append_char_not_empty].
      rewrite contains_append, Hb. simpl. now rewrite Hc.
Qed.

Lemma read_message_enough (d : string) :
  forall (w : world) (buf : string) (fuel : nat),
    pipe_data w = d ->
    contains Py.newline d = true ->
    String.length d <= fuel ->
    exists r w', read_message fuel buf w = Done r w'.
Proof.
  induction d as [|c d IH]; intros w buf fuel Hw Hc Hf; [discriminate|].
  destruct fuel as [|fuel]; [simpl in Hf; lia|].
  simpl. unfold pipe_read1. rewrite Hw.
  destruct (String.eqb (buf +:+ String c EmptyString) EmptyString) eqn:Hbe.
  { apply String.eqb_eq in Hbe. now apply append_char_not_empty in Hbe. }
  rewrite last_char_append_char.
  case_bool_decide as Hl; [eauto|].
  apply IH; [reflexivity | | simpl in Hf; lia].
  simpl in Hc. apply orb_true_iff in Hc as [Hc|Hc]; [|assumption].
  apply Ascii.eqb_eq in Hc. congruence.
Qed.

Lemma read_message_at_eof (fuel : nat) (w : world) :
  pipe_data w = EmptyString -> pipe_eof w = true ->
  read_message (S fuel) EmptyString w = Done EmptyString w.
Proof. intros Hd He. simpl. unfold pipe_read1. now rewrite Hd, He. Qed.

(** ** [get_message] *)

Lemma get_message_unfold (fuel : nat) (name : string) (w : world) :
  get_message fuel name w =
  if rrdump_pipe w then read_message fuel EmptyString w
  else match wait_for_path fuel name w with
       | Done _ w1 =>
           read_message fuel EmptyString
             (set_rrdump_pipe true (emit (EOpen name) w1))
       | Raise e tr => Raise e tr
       | OutOfFuel => OutOfFuel
       end.
Proof.
  unfold get_message, bind, ret, open_pipe.
  destruct (rrdump_pipe w); [reflexivity|].
  destruct (wait_for_path fuel name w); reflexivity.
Qed.

Lemma opens_app (tr1 tr2 : list effect) :
  opens (tr1 ++ tr2) = opens tr1 + opens tr2.
Proof.
  induction tr1 as [|e tr1 IH]; [reflexivity|].
  destruct e; simpl; rewrite IH; reflexivity.
Qed.

Lemma get_message_never_raises (fuel : nat) (name : string) (w : world) e tr :
  get_message fuel name w <> Raise e tr.
Proof.
  rewrite get_message_unfold. destruct (rrdump_pipe w).
  - apply read_message_never_raises.
  - destruct (wait_for_path fuel name w) eqn:E.
    + apply read_message_never_raises.
    + now apply wait_for_path_never_raises in E.
    + discriminate.
Qed.

(** What one call that returns has done. *)
Lemma get_message_done (fuel : nat) (name : string) (w w' : world) (r : string) :
  get_message fuel name w = Done r w' ->
  ((r = EmptyString /\ pipe_data w = EmptyString /\ pipe_eof w = true)
   \/ complete_message r)
  /\ pipe_data w = r +:+ pipe_data w'
  /\ rrdump_pipe w' = true
  /\ opens (trace w') = opens (trace w) + (if rrdump_pipe w then 0 else 1).
Proof.
  rewrite get_message_unfold. destruct (rrdump_pipe w) eqn:Hrp.
  - intros H. apply read_message_done in H as (taken & -> & Ht & Hw & Hr);
      [|reflexivity].
    simpl. repeat split; try assumption.
    + rewrite Hw. exact Hrp.
    + rewrite Hw. simpl. lia.
  - destruct (wait_for_path fuel name w) as [u w1| |] eqn:Ew; try discriminate.
    apply wait_for_path_done in Ew as [n ->].
    destruct (iter_tick_frame n w) as (Fd & Fe & Fr & Ft).
    intros H. apply read_message_done in H as (taken & -> & Ht & Hw & Hr);
      [|reflexivity].
    simpl in Ht, Hr. rewrite Fd in Ht, Hr. rewrite Fe in Hr.
    simpl. repeat split; try assumption.
    + rewrite Hw. reflexivity.
    + rewrite Hw. simpl. rewrite opens_app, Ft. reflexivity.
Qed.

(** A call returns when the FIFO is there (or turns up) and a whole line, or
    the end of the stream, is what comes next. *)
Lemma get_message_returns (name : string) (w : world) :
  rrdump_pipe w = true
    \/ (exists n, is_Some (files (Nat.iter n tick w) !! name)) ->
  contains Py.newline (pipe_data w) = true
    \/ (pipe_data w = EmptyString /\ pipe_eof w = true) ->
  exists fuel r w', get_message fuel name w = Done r w'.
Proof.
  intros Hopen Hdata.
  assert (Hread : forall w1 fuel,
             pipe_data w1 = pipe_data w -> pipe_eof w1 = pipe_eof w ->
             String.length (pipe_data w) < fuel ->
             exists r w', read_message fuel EmptyString w1 = Done r w').
  { intros w1 fuel Hd He Hf. destruct Hdata as [Hc|[Hd0 He0]].
    - apply (read_message_enough (pipe_data w)); [assumption..|lia].
    - destruct fuel as [|fuel]; [lia|].
      exists EmptyString, w1. apply read_message_at_eof; congruence. }
  destruct Hopen as [Hrp|[n Hn]].
  - destruct (Hread w (S (String.length (pipe_data w)))) as (r & w' & H);
      [reflexivity | reflexivity | lia |].
    exists (S (String.length (pipe_data w))), r, w'.
    now rewrite get_message_unfold, Hrp.
  - set (fuel := S (n + String.length (pipe_data w))).
    destruct (rrdump_pipe w) eqn:Hrp.
    + destruct (Hread w fuel) as (r & w' & H);
        [reflexivity | reflexivity | unfold fuel; lia |].
      exists fuel, r, w'. now rewrite get_message_unfold, Hrp.
    + destruct (wait_for_path_enough n name w Hn fuel) as [m Hm];
        [unfold fuel; lia|].
      destruct (iter_tick_frame m w) as (Fd & Fe & _).
      destruct (Hread (set_rrdump_pipe true (emit (EOpen name) (Nat.iter m tick w)))
                      fuel) as (r & w' & H);
        [exact Fd | exact Fe | unfold fuel; lia |].
      exists fuel, r, w'. now rewrite get_message_unfold, Hrp, Hm.
Qed.

(** C8.  A call of [get_message] that returns gives either the empty string,
    and then the channel was closed with no byte left to deliver, or one
    complete message: the bytes of the channel up to and including the first
    line terminator, taken from the channel in order.  The channel is opened
    by the call that finds the global handle unset, once, and the handle is
    set afterwards; a call that finds it set opens nothing.  A call does
    return whenever the channel exists or comes to exist and a terminator or
    the end of an empty stream is ahead. *)
Theorem get_message_complete_or_empty (name : string) (w : world) :
  (forall fuel r w',
      get_message fuel name w = Done r w' ->
      ((r = EmptyString /\ pipe_data w = EmptyString /\ pipe_eof w = true)
       \/ complete_message r)
      /\ pipe_data w = r +:+ pipe_data w'
      /\ rrdump_pipe w' = true
      /\ opens (trace w') = opens (trace w) + (if rrdump_pipe w then 0 else 1))
  /\ (rrdump_pipe w = true
        \/ (exists n, is_Some (files (Nat.iter n tick w) !! name)) ->
      contains Py.newline (pipe_data w) = true
        \/ (pipe_data w = EmptyString /\ pipe_eof w = true) ->
      exists fuel r w', get_message fuel name w = Done r w').
Proof.
  split.
  - intros fuel r w'. apply get_message_done.
  - apply get_message_returns.
Qed.

(** X1.  Over a run of calls of [get_message] that all return, the FIFO is
    opened once, by the first call, and not at all when it was open before
    or no call is made; every string returned is empty or a complete
    line. *)
Lemma get_messages_open_once (fuel : nat) (name : string) (n : nat) :
  forall (w w' : world) (rs : list string),
    get_messages fuel name n w = Done rs w' ->
    opens (trace w') =
    opens (trace w)
    + (if rrdump_pipe w then 0 else match n with O => 0 | S _ => 1 end)
    /\ Forall (fun r => r = EmptyString \/ complete_message r) rs.
Proof.
  induction n as [|n IH]; intros w w' rs; simpl.
  - intros [= <- <-]. split; [destruct (rrdump_pipe w); lia | constructor].
  - unfold bind, ret.
    destruct (get_message fuel name w) as [r w1| |] eqn:E1; try discriminate.
    destruct (get_messages fuel name n w1) as [rs1 w2| |] eqn:E2; try discriminate.
    intros [= <- <-].
    apply get_message_done in E1 as (Hr & _ & Hrp & Ho).
    apply IH in E2 as (Ho2 & Hall). rewrite Hrp in Ho2.
    split; [lia|]. constructor; [|assumption].
    destruct Hr as [(Hr & _)|Hr]; [now left | now right].
Qed.

(** C10.  [get_message] returns only when a line terminator is among the
    bytes still to come or the channel is closed with nothing left; when at
    least one byte is to come and no terminator, no amount of fuel makes it
    return, whether the writer then closes the channel or not. *)
Theorem get_message_termination (name : string) (w : world) :
  (forall fuel r w',
      get_message fuel name w = Done r w' ->
      contains Py.newline (pipe_data w) = true
      \/ (pipe_data w = EmptyString /\ pipe_eof w = true))
  /\ (pipe_data w <> EmptyString ->
      contains Py.newline (pipe_data w) = false ->
      forall fuel, get_message fuel name w = OutOfFuel).
Proof.
  split.
  - intros fuel r w' H.
    apply get_message_done in H as ([(_ & Hd & He)|(body & -> & Hb)] & Hp & _).
    + right. now split.
    + left. rewrite Hp, !contains_append. simpl.
      now rewrite orb_true_r.
  - intros Hne Hc fuel. rewrite get_message_unfold.
    destruct (rrdump_pipe w).
    + apply read_message_stuck; [assumption | reflexivity | now right].
    + destruct (wait_for_path fuel name w) as [u w1|e tr|] eqn:Ew.
      * apply wait_for_path_done in Ew as [n ->].
        destruct (iter_tick_frame n w) as (Fd & _).
        apply read_message_stuck; simpl; rewrite ?Fd;
          [assumption | reflexivity | now right].
      * now apply wait_for_path_never_raises in Ew.
      * reflexivity.
Qed.

(** ** Cleanup *)

(** C9.  Cleanup always succeeds, and a second cleanup right after it
    succeeds too and leaves the world exactly as the first one left it:
    both paths are then absent and neither guarded removal runs. *)
Theorem cleanup_idempotent (consts : consts_module) (w : world) :
  exists w1,
    cleanup consts w = Done tt w1
    /\ cleanup consts w1 = Done tt w1
    /\ files w1 !! PROC_FILE consts = None
    /\ files w1 !! RR_PIPE consts = None.
Proof.
  assert (Hstep : forall p v,
             (b <- os_path_exists p ;;
              if b : bool then os_unlink p else ret tt) v
             = Done tt (if bool_decide (is_Some (files v !! p))
                        then set_files (delete p (files v)) v else v)).
  { intros p v. unfold bind, os_path_exists, os_unlink, ret.
    case_bool_decide as Hp.
    - destruct Hp as [x Hx]. now rewrite Hx.
    - reflexivity. }
  assert (Hgone : forall p v,
             files (if bool_decide (is_Some (files v !! p))
                    then set_files (delete p (files v)) v else v) !! p = None).
  { intros p v. case_bool_decide as Hp.
    - simpl. apply lookup_delete_eq.
    - destruct (files v !! p) eqn:E; [|reflexivity]. destruct Hp. eauto. }
  assert (Hkeep : forall p q v,
             files v !! q = None ->
             files (if bool_decide (is_Some (files v !! p))
                    then set_files (delete p (files v)) v else v) !! q = None).
  { intros p q v Hq. case_bool_decide; [|assumption].
    simpl. rewrite lookup_delete_None. now right. }
  assert (Hboth : forall v,
             cleanup consts v
             = Done tt
                 (let va := if bool_decide (is_Some (files v !! PROC_FILE consts))
                            then set_files (delete (PROC_FILE consts) (files v)) v
                            else v in
                  if bool_decide (is_Some (files va !! RR_PIPE consts))
                  then set_files (delete (RR_PIPE consts) (files va)) va
                  else va)).
  { intros v. unfold cleanup. rewrite bind_unfold, Hstep. cbv beta iota.
    now rewrite Hstep. }
  rewrite Hboth. cbv zeta.
  set (wa := if bool_decide _ then _ else w).
  set (wb := if bool_decide _ then _ else wa).
  assert (Ha : files wb !! PROC_FILE consts = None).
  { apply Hkeep, Hgone. }
  assert (Hb : files wb !! RR_PIPE consts = None) by apply Hgone.
  exists wb. split; [reflexivity|]. split; [|now split].
  rewrite Hboth. cbv zeta.
  rewrite (bool_decide_eq_false_2 (is_Some (files wb !! PROC_FILE consts)))
    by (rewrite Ha; now intros [? ?]).
  rewrite bool_decide_eq_false_2 by (rewrite Hb; now intros [? ?]).
  reflexivity.
Qed.

(** ** JSON: what is written is read back *)

Lemma value_induction (P : Json.value -> Prop) :
  (forall s, P (Json.Str s)) ->
  (forall l, Forall P l -> P (Json.Arr l)) ->
  (forall m, Forall (fun kv => P kv.2) m -> P (Json.Obj m)) ->
  forall v, P v.
Proof.
  intros HS HA HO. fix IH 1. intros [s|l|m].
  - apply HS.
  - apply HA. induction l as [|x l IHl]; constructor; [apply IH | exact IHl].
  - apply HO. induction m as [|[k x] m IHm]; constructor; [apply IH | exact IHm].
Qed.

Lemma scan_escape_char (c : ascii) (rest : string) :
  Json.scanstring (Json.escape_char c +:+ rest)
  = Json.push c (Json.scanstring rest).
Proof.
  destruct c as [[] [] [] [] [] [] [] []]; reflexivity.
Qed.

Lemma scan_escape (s rest : string) :
  Json.scanstring (Json.escape s +:+ String Py.quote rest) = Some (s, rest).
Proof.
  induction s as [|c s IH]; [reflexivity|].
  change (Json.escape (String c s)) with (Json.escape_char c +:+ Json.escape s).
  rewrite append_assoc', scan_escape_char, IH. reflexivity.
Qed.

Lemma encode_string_append (s rest : string) :
  Json.encode_string s +:+ rest
  = String Py.quote (Json.escape s +:+ String Py.quote rest).
Proof. unfold Json.encode_string. simpl. now rewrite append_assoc'. Qed.

Lemma encode_arr (l : list Json.value) :
  Json.encode (Json.Arr l) = String "[" (encode_items l).
Proof. reflexivity. Qed.

Lemma encode_obj (m : list (string * Json.value)) :
  Json.encode (Json.Obj m) = String "{" (encode_members m).
Proof. reflexivity. Qed.

Lemma encode_items_cons (x : Json.value) (l : list Json.value) :
  encode_items (x :: l)
  = Json.encode x +:+
    match l with [] => "]" | _ :: _ => ", " +:+ encode_items l end.
Proof. reflexivity. Qed.

Lemma encode_members_cons (k : string) (x : Json.value)
    (m : list (string * Json.value)) :
  encode_members ((k, x) :: m)
  = Json.encode_string k +:+ ": " +:+ Json.encode x +:+
    match m with [] => "}" | _ :: _ => ", " +:+ encode_members m end.
Proof. reflexivity. Qed.

(** An encoded value starts with a quote or a bracket, never white space. *)
Lemma encode_head (v : Json.value) :
  exists c t,
    Json.encode v = String c t
    /\ (c = Py.quote \/ c = "["%char \/ c = "{"%char).
Proof.
  destruct v as [s|l|m].
  - eexists _, _. split; [reflexivity | now left].
  - rewrite encode_arr. eexists _, _. split; [reflexivity | auto].
  - rewrite encode_obj. eexists _, _. split; [reflexivity | auto].
Qed.

Lemma json_wf_arr (l : list Json.value) :
  json_wf (Json.Arr l) <-> Forall json_wf l.
Proof.
  induction l as [|x l IH].
  - split; [constructor | exact (fun _ => I)].
  - split.
    + intros [Hx Hl]. constructor; [exact Hx | now apply IH].
    + intros H. inversion_clear H as [|? ? Hx Hl]. split; [exact Hx | now apply IH].
Qed.

Lemma json_wf_obj (m : list (string * Json.value)) :
  json_wf (Json.Obj m)
  <-> NoDup (fst <$> m) /\ Forall (fun kv => json_wf kv.2) m.
Proof.
  enough (Hall : forall m : list (string * Json.value),
             (fix all (m : list (string * Json.value)) : Prop :=
                match m with
                | [] => True
                | (_, x) :: r => json_wf x /\ all r
                end) m
             <-> Forall (fun kv => json_wf kv.2) m).
  { simpl. now rewrite Hall. }
  clear m. intros m. induction m as [|[k x] m IH].
  - split; [constructor | exact (fun _ => I)].
  - split.
    + intros [Hx Hl]. constructor; [exact Hx | now apply IH].
    + intros H. inversion_clear H as [|? ? Hx Hl]. split; [exact Hx | now apply IH].
Qed.

Lemma skip_ws_head (c : ascii) (t : string) :
  Json.is_ws c = false -> Json.skip_ws (String c t) = String c t.
Proof. intros H. simpl. now rewrite H. Qed.

Lemma skip_ws_space (t : string) :
  Json.skip_ws (String " " t) = Json.skip_ws t.
Proof. reflexivity. Qed.

Lemma skip_ws_encode (v : Json.value) (rest : string) :
  Json.skip_ws (Json.encode v +:+ rest) = Json.encode v +:+ rest.
Proof.
  destruct (encode_head v) as (c & t & -> & [-> | [-> | ->]]); reflexivity.
Qed.

Lemma skip_ws_encode_items (l : list Json.value) (rest : string) :
  Json.skip_ws (encode_items l +:+ rest) = encode_items l +:+ rest.
Proof.
  destruct l as [|x l]; [reflexivity|].
  simpl. rewrite append_assoc'. apply skip_ws_encode.
Qed.

Lemma skip_ws_encode_members (m : list (string * Json.value)) (rest : string) :
  Json.skip_ws (encode_members m +:+ rest) = encode_members m +:+ rest.
Proof. destruct m as [|[k x] m]; reflexivity. Qed.

Lemma dict_set_fresh (k : string) (v : Json.value)
    (acc : list (string * Json.value)) :
  k ∉ fst <$> acc -> Json.dict_set k v acc = acc ++ [(k, v)].
Proof.
  induction acc as [|[k' v'] acc IH]; intros Hk; [reflexivity|].
  simpl in *. apply not_elem_of_cons in Hk as [Hne Hk].
  apply String.eqb_neq in Hne. rewrite Hne. now rewrite IH.
Qed.

Lemma parse_value_S (fuel : nat) (c : ascii) (r : string) :
  Json.parse_value (S fuel) (String c r) =
  if Ascii.eqb c Py.quote then
    '(str, r') ← Json.scanstring r; Some (Json.Str str, r')
  else if Ascii.eqb c "[" then
    match Json.skip_ws r with
    | String c' r' =>
        if Ascii.eqb c' "]" then Some (Json.Arr [], r')
        else Json.parse_elems fuel (String c' r') []
    | EmptyString => None
    end
  else if Ascii.eqb c "{" then
    match Json.skip_ws r with
    | String c' r' =>
        if Ascii.eqb c' "}" then Some (Json.Obj [], r')
        else Json.parse_members fuel (String c' r') []
    | EmptyString => None
    end
  else None.
Proof. reflexivity. Qed.

Lemma parse_elems_S (fuel : nat) (s : string) (acc : list Json.value) :
  Json.parse_elems (S fuel) s acc =
  '(v, r) ← Json.parse_value fuel s;
  match Json.skip_ws r with
  | String c r' =>
      if Ascii.eqb c "," then Json.parse_elems fuel (Json.skip_ws r') (acc ++ [v])
      else if Ascii.eqb c "]" then Some (Json.Arr (acc ++ [v]), r')
      else None
  | EmptyString => None
  end.
Proof. reflexivity. Qed.

Lemma parse_members_S (fuel : nat) (r : string)
    (acc : list (string * Json.value)) :
  Json.parse_members (S fuel) (String Py.quote r) acc =
  '(k, r1) ← Json.scanstring r;
  match Json.skip_ws r1 with
  | String c1 r2 =>
      if Ascii.eqb c1 ":" then
        '(v, r3) ← Json.parse_value fuel (Json.skip_ws r2);
        match Json.skip_ws r3 with
        | String c3 r4 =>
            if Ascii.eqb c3 "," then
              Json.parse_members fuel (Json.skip_ws r4) (Json.dict_set k v acc)
            else if Ascii.eqb c3 "}" then
              Some (Json.Obj (Json.dict_set k v acc), r4)
            else None
        | EmptyString => None
        end
      else None
  | EmptyString => None
  end.
Proof. reflexivity. Qed.

Lemma parse_elems_encode (l : list Json.value) :
  Forall reads_back l -> l <> [] ->
  forall acc fuel rest,
    sizes l <= fuel ->
    Json.parse_elems fuel (encode_items l +:+ rest) acc
    = Some (Json.Arr (acc ++ l), rest).
Proof.
  induction l as [|x l IH]; intros Hall Hne acc fuel rest Hf; [done|].
  inversion_clear Hall as [|? ? Hx Hl].
  destruct fuel as [|fuel]; [simpl in Hf; lia|].
  rewrite parse_elems_S, encode_items_cons, append_assoc'.
  rewrite Hx by (simpl in Hf; lia). simpl.
  destruct l as [|y l].
  - reflexivity.
  - rewrite !append_cons. rewrite skip_ws_head by reflexivity.
    change (Ascii.eqb "," ",") with true. cbv iota.
    rewrite skip_ws_space, skip_ws_encode_items.
    rewrite IH; [|assumption|done|simpl in Hf |- *; lia].
    now rewrite <- app_assoc.
Qed.

Lemma parse_members_encode (m : list (string * Json.value)) :
  Forall (fun kv => reads_back kv.2) m -> m <> [] ->
  forall acc fuel rest,
    NoDup (fst <$> (acc ++ m)) ->
    member_sizes m <= fuel ->
    Json.parse_members fuel (encode_members m +:+ rest) acc
    = Some (Json.Obj (acc ++ m), rest).
Proof.
  induction m as [|[k x] m IH]; intros Hall Hne acc fuel rest Hnd Hf; [done|].
  inversion_clear Hall as [|? ? Hx Hl]. simpl in Hx.
  destruct fuel as [|fuel]; [simpl in Hf; lia|].
  assert (Hk : k ∉ fst <$> acc).
  { rewrite fmap_app in Hnd. apply NoDup_app in Hnd as (_ & Hd & _).
    intros Hin. apply (Hd _ Hin). simpl. left. }
  rewrite encode_members_cons, !append_assoc', encode_string_append.
  rewrite parse_members_S, scan_escape. simpl.
  rewrite skip_ws_encode.
  rewrite Hx by (simpl in Hf; lia). simpl.
  rewrite (dict_set_fresh _ _ _ Hk).
  destruct m as [|kv m].
  - reflexivity.
  - rewrite !append_cons. rewrite skip_ws_head by reflexivity.
    change (Ascii.eqb "," ",") with true. cbv iota.
    rewrite skip_ws_space, skip_ws_encode_members.
    rewrite IH; [|assumption|done| |simpl in Hf |- *; lia].
    + now rewrite <- app_assoc.
    + now rewrite <- app_assoc.
Qed.

(** Every well-formed value is read back from its encoding. *)
Lemma parse_encode (v : Json.value) : json_wf v -> reads_back v.
Proof.
  induction v as [s|l IHl|m IHm] using value_induction; intros Hwf fuel rest Hf.
  - destruct fuel as [|fuel]; [simpl in Hf; lia|].
    change (Json.encode (Json.Str s)) with (Json.encode_string s).
    rewrite encode_string_append, parse_value_S.
    change (Ascii.eqb Py.quote Py.quote) with true. cbv iota.
    now rewrite scan_escape.
  - apply json_wf_arr in Hwf.
    assert (Hall : Forall reads_back l).
    { rewrite Forall_forall in *. auto. }
    destruct fuel as [|fuel]; [simpl in Hf; lia|].
    rewrite encode_arr, append_cons, parse_value_S.
    change (Ascii.eqb "[" Py.quote) with false.
    change (Ascii.eqb "[" "[") with true. cbv iota.
    destruct l as [|x l]; [reflexivity|].
    rewrite skip_ws_encode_items.
    pose proof (parse_elems_encode (x :: l) Hall ltac:(done) [] fuel rest) as He.
    simpl app in He. rewrite encode_items_cons in He |- *.
    rewrite append_assoc' in He |- *.
    destruct (encode_head x) as (c & t & Ec & Hc).
    rewrite Ec in He |- *. rewrite append_cons in He |- *.
    replace (Ascii.eqb c "]") with false
      by (destruct Hc as [-> | [-> | ->]]; reflexivity).
    apply He. change (json_size (Json.Arr (x :: l))) with (S (sizes (x :: l))) in Hf.
    lia.
  - apply json_wf_obj in Hwf as [Hnd Hwf].
    assert (Hall : Forall (fun kv => reads_back kv.2) m).
    { rewrite Forall_forall in *. auto. }
    destruct fuel as [|fuel]; [simpl in Hf; lia|].
    rewrite encode_obj, append_cons, parse_value_S.
    change (Ascii.eqb "{" Py.quote) with false.
    change (Ascii.eqb "{" "[") with false.
    change (Ascii.eqb "{" "{") with true. cbv iota.
    destruct m as [|[k x] m]; [reflexivity|].
    rewrite skip_ws_encode_members.
    pose proof (parse_members_encode ((k, x) :: m) Hall ltac:(done) [] fuel rest
                  Hnd) as He.
    simpl app in He. rewrite encode_members_cons in He |- *.
    rewrite !append_assoc' in He |- *.
    rewrite encode_string_append in He |- *.
    change (Ascii.eqb Py.quote "}") with false. cbv iota.
    apply He.
    change (json_size (Json.Obj ((k, x) :: m)))
      with (S (member_sizes ((k, x) :: m))) in Hf.
    lia.
Qed.

Lemma length_append' (a b : string) :
  String.length (a +:+ b) = String.length a + String.length b.
Proof. induction a as [|c a IH]; simpl; [reflexivity | now rewrite IH]. Qed.

Lemma json_size_lt_length (v : Json.value) :
  json_size v < String.length (Json.encode v).
Proof.
  induction v as [s|l IHl|m IHm] using value_induction.
  - change (Json.encode (Json.Str s))
      with (String Py.quote (Json.escape s +:+ String Py.quote EmptyString)).
    change (json_size (Json.Str s)) with 1.
    cbn [String.length]. rewrite length_append'. cbn [String.length]. lia.
  - rewrite encode_arr. change (json_size (Json.Arr l)) with (S (sizes l)).
    cbn [String.length]. apply -> Nat.succ_lt_mono.
    induction l as [|x l IH]; [cbn; lia|].
    inversion_clear IHl as [|? ? Hx Hl]. specialize (IH Hl).
    rewrite encode_items_cons, length_append'.
    change (sizes (x :: l)) with (S (json_size x + sizes l)).
    destruct l as [|y l].
    + change (sizes []) with 0. cbn [String.length]. lia.
    + rewrite length_append'. change (String.length ", ") with 2. lia.
  - rewrite encode_obj.
    change (json_size (Json.Obj m)) with (S (member_sizes m)).
    cbn [String.length]. apply -> Nat.succ_lt_mono.
    induction m as [|[k x] m IH]; [cbn; lia|].
    inversion_clear IHm as [|? ? Hx Hl]. specialize (IH Hl). cbn [snd] in Hx.
    rewrite encode_members_cons, !length_append'.
    change (member_sizes ((k, x) :: m)) with (S (json_size x + member_sizes m)).
    destruct m as [|kv m].
    + change (member_sizes []) with 0. cbn [String.length]. lia.
    + rewrite length_append'. change (String.length ", ") with 2. lia.
Qed.

(** [json.loads(json.dumps(v)) == v] *)
Lemma loads_encode (v : Json.value) :
  json_wf v -> Json.loads (Json.encode v) = Some v.
Proof.
  intros Hwf. unfold Json.loads.
  pose proof (skip_ws_encode v EmptyString) as Hs.
  rewrite append_empty_r in Hs. rewrite Hs.
  pose proof (parse_encode v Hwf (String.length (Json.encode v)) EmptyString) as Hp.
  rewrite append_empty_r in Hp. rewrite Hp; [reflexivity|].
  pose proof (json_size_lt_length v). lia.
Qed.

(** ** Event configuration emitter *)

Lemma subject_items_wf (s : subject) : json_wf (Json.Obj (subject_items s)).
Proof.
  apply json_wf_obj. split.
  - unfold subject_items.
    destruct (mmap_backing_files s), (checker s); cbn; compute_done.
  - assert (Ho : json_wf (Json.Arr (Json.Str <$> other_procs s))).
    { apply json_wf_arr. induction (other_procs s); constructor; [exact I | assumption]. }
    unfold subject_items.
    destruct (mmap_backing_files s), (checker s);
      repeat (constructor; try exact I; try exact Ho).
Qed.

Lemma subject_text_loads (s : subject) :
  Json.loads (subject_text s) = Some (Json.Obj (subject_items s)).
Proof. apply loads_encode, subject_items_wf. Qed.

Lemma subject_items_fields (s : subject) :
  let tmp := subject_items s in
  Json.dict_get "event" tmp = Some (Json.Str (event s))
  /\ Json.dict_get "rec_pid" tmp = Some (Json.Str (rec_pid s))
  /\ Json.dict_get "trace_file" tmp = Some (Json.Str (trace_file s))
  /\ Json.dict_get "trace_start" tmp = Some (Json.Str (trace_start s))
  /\ Json.dict_get "trace_end" tmp = Some (Json.Str (trace_end s))
  /\ Json.dict_get "mutator" tmp = Some (Json.Str (mutator s))
  /\ Json.dict_get "mmap_backing_files" tmp
     = Json.Str <$> mmap_backing_files s
  /\ Json.dict_get "checker" tmp = Json.Str <$> checker s.
Proof.
  unfold subject_items.
  destruct (mmap_backing_files s), (checker s); cbn; repeat split; reflexivity.
Qed.

Lemma for_each_cons {A} (x : A) (r : list A) (body : A -> M unit) (w : world) :
  for_each (x :: r) body w =
  match body x w with
  | Done _ w' => for_each r body w'
  | Raise e tr => Raise e tr
  | OutOfFuel => OutOfFuel
  end.
Proof. reflexivity. Qed.

(** The emitter succeeds on subjects that have no handle yet, and writes
    their texts in order, a later subject overwriting an earlier one of the
    same file name. *)
Lemma create_event_configuration_files_done (subjects : list subject) :
  forall w,
    Forall (fun x => s_handle x = None) subjects ->
    create_event_configuration_files subjects w
    = Done tt (set_files (emitted_files subjects (files w)) w).
Proof.
  unfold create_event_configuration_files.
  induction subjects as [|s subjects IH]; intros w Hall.
  - simpl. unfold ret. now destruct w.
  - inversion_clear Hall as [|? ? Hs Hrest].
    rewrite for_each_cons. unfold bind at 1, subject_json. rewrite Hs.
    unfold or_raise, ret, write_file.
    rewrite IH by assumption. reflexivity.
Qed.

Lemma emitted_files_other (subjects : list subject) (p : string) :
  forall f,
    p ∉ injected_state_file <$> subjects ->
    emitted_files subjects f !! p = f !! p.
Proof.
  induction subjects as [|s subjects IH]; intros f Hp; [reflexivity|].
  simpl in Hp. apply not_elem_of_cons in Hp as [Hne Hp].
  unfold emitted_files. simpl. fold (emitted_files subjects).
  rewrite IH by assumption. now rewrite lookup_insert_ne.
Qed.

(** The file of a subject holds its text unless a later subject of the
    list has the same file name. *)
Lemma emitted_files_last_writer (pre post : list subject) (s : subject)
    (f : gmap string string) :
  injected_state_file s ∉ injected_state_file <$> post ->
  emitted_files (pre ++ s :: post) f !! injected_state_file s
  = Some (subject_text s).
Proof.
  intros Hp. unfold emitted_files. rewrite fold_left_app. simpl.
  fold (emitted_files post). rewrite emitted_files_other by assumption.
  apply lookup_insert_eq.
Qed.

(** An emitter call that has returned met no handle, and the files are
    those written subject by subject. *)
Lemma emitter_done_inv (subjects : list subject) :
  forall w w',
    create_event_configuration_files subjects w = Done tt w' ->
    Forall (fun x => s_handle x = None) subjects
    /\ w' = set_files (emitted_files subjects (files w)) w.
Proof.
  unfold create_event_configuration_files.
  induction subjects as [|s r IH]; intros w w'.
  - intros [= <-]. split; [constructor | now destruct w].
  - rewrite for_each_cons, bind_unfold. unfold subject_json.
    destruct (s_handle s) as [h|] eqn:Hh; [discriminate|].
    simpl or_raise. unfold ret at 1, write_file.
    intros H. apply IH in H as [Hall ->].
    split; [now constructor | reflexivity].
Qed.

(** C7 (amended).  Take a call of the emitter that returns normally, and a
    subject of its list all of whose strings are ASCII and after which the
    list has no subject of the same [injected_state_file].  After the call
    the file at that name loads as a dict whose entries for event, recorded
    pid, trace file, trace start, trace end and mutator are the strings of
    the subject, and whose entries for the backing files and the checker are
    present exactly when the subject has them, with the same strings. *)
Theorem emitted_configuration_round_trip
    (pre post : list subject) (s : subject) (w w' : world) :
  create_event_configuration_files (pre ++ s :: post) w = Done tt w' ->
  injected_state_file s ∉ injected_state_file <$> post ->
  ascii_subject s ->
  exists text tmp,
    files w' !! injected_state_file s = Some text
    /\ Json.loads text = Some (Json.Obj tmp)
    /\ Json.dict_get "event" tmp = Some (Json.Str (event s))
    /\ Json.dict_get "rec_pid" tmp = Some (Json.Str (rec_pid s))
    /\ Json.dict_get "trace_file" tmp = Some (Json.Str (trace_file s))
    /\ Json.dict_get "trace_start" tmp = Some (Json.Str (trace_start s))
    /\ Json.dict_get "trace_end" tmp = Some (Json.Str (trace_end s))
    /\ Json.dict_get "mutator" tmp = Some (Json.Str (mutator s))
    /\ Json.dict_get "mmap_backing_files" tmp
       = Json.Str <$> mmap_backing_files s
    /\ Json.dict_get "checker" tmp = Json.Str <$> checker s.
Proof.
  intros Hdone Hlast _.
  apply emitter_done_inv in Hdone as [_ ->].
  exists (subject_text s), (subject_items s).
  split; [now apply emitted_files_last_writer|].
  split; [apply subject_text_loads|].
  apply subject_items_fields.
Qed.

(** C7, as stated, fails: two subjects of the same event and mutator share
    one [injected_state_file]; after the emitter has written both, the file
    of the first, read back, gives the recorded pid of the second. *)
Lemma emitted_configuration_overwritten :
  exists w' text tmp,
    create_event_configuration_files
      [plain_subject "5" "100" "drop_write";
       plain_subject "5" "101" "drop_write"] w_dup = Done tt w'
    /\ ascii_subject (plain_subject "5" "100" "drop_write")
    /\ files w' !! injected_state_file (plain_subject "5" "100" "drop_write")
       = Some text
    /\ Json.loads text = Some (Json.Obj tmp)
    /\ rec_pid (plain_subject "5" "100" "drop_write") = "100"
    /\ Json.dict_get "rec_pid" tmp = Some (Json.Str "101").
Proof.
  exists (set_files
            (emitted_files [plain_subject "5" "100" "drop_write";
                            plain_subject "5" "101" "drop_write"]
                           (files w_dup)) w_dup),
         (subject_text (plain_subject "5" "101" "drop_write")),
         (subject_items (plain_subject "5" "101" "drop_write")).
  split; [apply create_event_configuration_files_done; repeat constructor|].
  split; [repeat constructor|].
  split; [vm_compute; reflexivity|].
  split; [apply subject_text_loads|].
  split; reflexivity.
Qed.

(** Two subjects of the same event and mutator share one file: the second
    text replaces the first. *)
Example emitted_configuration_same_name :
  let a := plain_subject "5" "100" "drop_write" in
  let b := plain_subject "5" "101" "drop_write" in
  exists w',
    create_event_configuration_files [a; b] w_dup = Done tt w'
    /\ injected_state_file a = injected_state_file b
    /\ files w' !! injected_state_file a = Some (subject_text b).
Proof.
  eexists. split; [apply create_event_configuration_files_done|].
  - repeat constructor.
  - split; vm_compute; reflexivity.
Qed.

(** ** Subject registry *)

Lemma parse_section_pure (cfg : config) (i : string) (w : world) :
  match parse_section cfg i w with
  | Done s w' => w' = w /\ other_procs s = [] /\ s_handle s = None
  | _ => True
  end.
Proof.
  unfold parse_section, bind, lift_get, cfg_get_optional, ret, raise.
  repeat (match goal with
          | |- context [cfg_get ?c ?i ?o] =>
              destruct (cfg_get c i o) as [[]|?]; try exact I
          end).
  all: repeat split.
Qed.

Lemma parse_sections_pure (cfg : config) (sections : list string) (w : world) :
  match parse_sections cfg sections w with
  | Done l w' =>
      w' = w /\ Forall (fun s => other_procs s = [] /\ s_handle s = None) l
  | _ => True
  end.
Proof.
  induction sections as [|i r IH]; simpl.
  - unfold ret. split; [reflexivity | constructor].
  - rewrite bind_unfold. pose proof (parse_section_pure cfg i w) as Hs.
    destruct (parse_section cfg i w) as [s w1| |]; try exact I.
    destruct Hs as (-> & Hs). rewrite bind_unfold.
    destruct (parse_sections cfg r w) as [l w2| |]; try exact I.
    destruct IH as (-> & Hl). unfold ret. split; [reflexivity|].
    now constructor.
Qed.

Lemma insert_by_key_perm (x : Z * subject) (l : list (Z * subject)) :
  Permutation (insert_by_key x l) (x :: l).
Proof.
  induction l as [|y l IH]; simpl; [reflexivity|].
  destruct (x.1 <=? y.1)%Z; [reflexivity|].
  rewrite IH. apply perm_swap.
Qed.

Lemma sort_by_key_perm (l : list (Z * subject)) :
  Permutation (sort_by_key l) l.
Proof.
  induction l as [|x l IH]; simpl; [reflexivity|].
  rewrite insert_by_key_perm. now constructor.
Qed.

Lemma insert_by_key_sorted (x : Z * subject) (l : list (Z * subject)) :
  StronglySorted key_le l -> StronglySorted key_le (insert_by_key x l).
Proof.
  induction l as [|y l IH]; intros Hs; simpl.
  - repeat constructor.
  - inversion_clear Hs as [|? ? Hl Hy].
    destruct (Z.leb_spec x.1 y.1) as [Hle|Hgt].
    + constructor; [now constructor|].
      constructor; [exact Hle|].
      eapply Forall_impl; [exact Hy|]. unfold key_le. intros z Hz. lia.
    + constructor; [now apply IH|].
      rewrite insert_by_key_perm. constructor; [unfold key_le; lia | exact Hy].
Qed.

Lemma sort_by_key_sorted (l : list (Z * subject)) :
  StronglySorted key_le (sort_by_key l).
Proof.
  induction l as [|x l IH]; simpl; [constructor|].
  now apply insert_by_key_sorted.
Qed.

(** The keys computed before sorting are the numeric event ids. *)
Lemma event_keys_spec (subjects : list subject) (ks : list (Z * subject)) :
  event_keys subjects = Some ks ->
  snd <$> ks = subjects
  /\ Forall (fun p => Py.int (event p.2) = Some p.1) ks.
Proof.
  revert ks. induction subjects as [|s r IH]; intros ks; simpl.
  - intros [= <-]. split; [reflexivity | constructor].
  - destruct (Py.int (event s)) as [k|] eqn:Hk; [|discriminate]. simpl.
    destruct (event_keys r) as [ks'|]; [|discriminate]. simpl.
    intros [= <-]. destruct (IH _ eq_refl) as [Hs Hall].
    split; [rewrite fmap_cons; simpl; f_equal; exact Hs | now constructor].
Qed.

Lemma sorted_by_event_id (ks : list (Z * subject)) :
  Forall (fun p => Py.int (event p.2) = Some p.1) ks ->
  StronglySorted key_le ks ->
  StronglySorted event_le (snd <$> ks).
Proof.
  assert (Hid : forall p : Z * subject,
             Py.int (event p.2) = Some p.1 -> event_id p.2 = p.1).
  { intros p Hp. unfold event_id. now rewrite Hp. }
  induction ks as [|p ks IH]; intros Hall Hs; simpl; [constructor|].
  inversion_clear Hall as [|? ? Hp Hrest].
  inversion_clear Hs as [|? ? Hks Hle].
  constructor; [now apply IH|].
  rewrite Forall_fmap. rewrite Forall_forall in *.
  intros q Hq. unfold event_le. simpl.
  rewrite (Hid _ Hp), (Hid _ (Hrest _ Hq)). now apply Hle.
Qed.

(** The loop that is meant to remove the stale cache files removes the
    same file at every turn. *)
Lemma remove_same_file (A : Type) (l : list A) (s : subject) (w : world) :
  l <> [] ->
  for_each l
    (fun _ =>
       s <- or_raise UnboundLocalError (Some s) ;;
       os_remove_quietly (rec_pid s +:+ "_brks.json")) w
  = Done tt (set_files (delete (rec_pid s +:+ "_brks.json") (files w)) w).
Proof.
  set (p := rec_pid s +:+ "_brks.json").
  assert (Hone : forall v,
             (s0 <- or_raise UnboundLocalError (Some s) ;;
              os_remove_quietly (rec_pid s0 +:+ "_brks.json")) v
             = Done tt (set_files (delete p (files v)) v)).
  { intros v. unfold bind, or_raise, ret, os_remove_quietly. fold p.
    destruct (files v !! p) eqn:E; [reflexivity|].
    rewrite delete_id by assumption. now destruct v. }
  assert (Hrest : forall (r : list A) v,
             files v !! p = None ->
             for_each r
               (fun _ =>
                  s0 <- or_raise UnboundLocalError (Some s) ;;
                  os_remove_quietly (rec_pid s0 +:+ "_brks.json")) v
             = Done tt v).
  { induction r as [|x r IH]; intros v Hv; [reflexivity|].
    rewrite for_each_cons, Hone. rewrite delete_id by assumption.
    replace (set_files (files v) v) with v by now destruct v.
    now apply IH. }
  destruct l as [|x l]; [done|]. intros _.
  rewrite for_each_cons, Hone. apply Hrest. simpl. apply lookup_delete_eq.
Qed.

(** What a successful call of the registry has done. *)
Lemma get_configuration_done (ini_path : string) (w w' : world)
    (rr_dir : string) (subjects : list subject) :
  get_configuration ini_path w = Done (rr_dir, subjects) w' ->
  exists cfg parsed ks s_last,
    ini_files w !! ini_path = Some cfg
    /\ parse_sections cfg (tail (cfg_sections cfg)) w = Done parsed w
    /\ last parsed = Some s_last
    /\ event_keys parsed = Some ks
    /\ subjects = snd <$> sort_by_key ks
    /\ w' = set_files (delete (rec_pid s_last +:+ "_brks.json") (files w)) w.
Proof.
  unfold get_configuration. rewrite bind_unfold.
  destruct (ini_files w !! ini_path) as [cfg|] eqn:Hcfg; [|discriminate].
  simpl or_raise. unfold ret at 1. rewrite bind_unfold.
  destruct (head (cfg_sections cfg)) as [sec0|]; [|discriminate].
  simpl or_raise. unfold ret at 1. rewrite bind_unfold.
  destruct (cfg_get cfg sec0 "rr_dir") as [e|rr]; [discriminate|].
  simpl lift_get. unfold ret at 1.
  destruct (List.length (tail (cfg_sections cfg)) =? 0)%nat eqn:Hlen;
    [discriminate|].
  rewrite bind_unfold.
  pose proof (parse_sections_pure cfg (tail (cfg_sections cfg)) w) as Hpure.
  destruct (parse_sections cfg (tail (cfg_sections cfg)) w)
    as [parsed w1| |] eqn:Hparsed; try discriminate.
  destruct Hpure as [-> _]. rewrite bind_unfold. unfold sort_by_event.
  destruct (event_keys parsed) as [ks|] eqn:Hks; [|discriminate].
  unfold ret at 1. rewrite bind_unfold.
  destruct (event_keys_spec _ _ Hks) as [Hsnd _].
  assert (Hne : parsed <> []).
  { intros ->. destruct (tail (cfg_sections cfg)) as [|i r]; [discriminate|].
    simpl in Hparsed. rewrite bind_unfold in Hparsed.
    destruct (parse_section cfg i w); try discriminate.
    rewrite bind_unfold in Hparsed.
    destruct (parse_sections cfg r w0); discriminate. }
  destruct (last parsed) as [s_last|] eqn:Hlast.
  2:{ apply last_None in Hlast. contradiction. }
  rewrite remove_same_file.
  - unfold ret. intros [= <- <- <-].
    exists cfg, parsed, ks, s_last. repeat split; assumption.
  - intros Hnil. apply fmap_nil_inv in Hnil.
    apply Hne. rewrite <- Hsnd.
    pose proof (sort_by_key_perm ks) as Hp. rewrite Hnil in Hp.
    apply Permutation.Permutation_nil in Hp. now rewrite Hp.
Qed.

(** C4 (amended).  A successful call of the registry returns the subjects of
    the configuration sections, all of them and nothing else, in ascending
    order of their numeric event ids; the order is not strict, since several
    subjects may share an event.  No check of the [(event, mutator)] keys is
    made: they are unique in the result exactly when they are unique among
    the sections. *)
Theorem registry_sorted_by_event (ini_path : string) (w w' : world)
    (rr_dir : string) (subjects : list subject) :
  get_configuration ini_path w = Done (rr_dir, subjects) w' ->
  exists cfg parsed,
    ini_files w !! ini_path = Some cfg
    /\ parse_sections cfg (tail (cfg_sections cfg)) w = Done parsed w
    /\ Permutation subjects parsed
    /\ Forall (fun s => is_Some (Py.int (event s))) subjects
    /\ StronglySorted event_le subjects
    /\ (NoDup (key <$> subjects) <-> NoDup (key <$> parsed)).
Proof.
  intros H.
  apply get_configuration_done in H
    as (cfg & parsed & ks & s_last & Hcfg & Hparsed & _ & Hks & -> & _).
  destruct (event_keys_spec _ _ Hks) as [Hsnd Hint].
  assert (Hperm : Permutation (snd <$> sort_by_key ks) parsed).
  { rewrite <- Hsnd. apply fmap_Permutation, sort_by_key_perm. }
  assert (Hint' : Forall (fun p => Py.int (event p.2) = Some p.1)
                         (sort_by_key ks)).
  { now rewrite sort_by_key_perm. }
  exists cfg, parsed. repeat split; try assumption.
  - rewrite Forall_fmap. eapply Forall_impl; [exact Hint'|].
    intros p Hp. simpl. rewrite Hp. eauto.
  - apply sorted_by_event_id; [assumption | apply sort_by_key_sorted].
  - intros Hnd. now rewrite <- Hperm.
  - intros Hnd. now rewrite Hperm.
Qed.

Lemma registry_sorted_by_event_witness :
  exists cfg parsed,
    ini_files w_two !! "config.ini" = Some cfg
    /\ parse_sections cfg (tail (cfg_sections cfg)) w_two = Done parsed w_two
    /\ Permutation [s5; s7] parsed
    /\ Forall (fun s => is_Some (Py.int (event s))) [s5; s7]
    /\ StronglySorted event_le [s5; s7]
    /\ (NoDup (key <$> [s5; s7]) <-> NoDup (key <$> parsed)).
Proof.
  apply (registry_sorted_by_event "config.ini" w_two
           (set_files (delete "200_brks.json" (files w_two)) w_two)
           "/traces" [s5; s7]).
  vm_compute. reflexivity.
Defined.

(** C4, as stated, fails: with two sections of the same event and the same
    mutator the registry returns both subjects, so the list is not strictly
    ascending and the keys are not unique. *)
Lemma registry_keeps_duplicate_keys :
  exists rr_dir subjects w',
    get_configuration "config.ini" w_dup = Done (rr_dir, subjects) w'
    /\ ~ StronglySorted event_lt subjects
    /\ ~ NoDup (key <$> subjects).
Proof.
  exists "/traces",
         [plain_subject "5" "100" "drop_write";
          plain_subject "5" "101" "drop_write"],
         (set_files (delete "101_brks.json" (files w_dup)) w_dup).
  split; [vm_compute; reflexivity|]. split.
  - intros Hs. inversion_clear Hs as [|? ? _ Hlt].
    inversion_clear Hlt as [|? ? Hlt' _]. vm_compute in Hlt'. discriminate.
  - intros Hnd. apply NoDup_cons in Hnd as [Hin _]. apply Hin.
    vm_compute. left.
Qed.

(** C5.  On a configuration with two subjects recorded as pids 100 and 200,
    each with a stale cache file, the registry removes the file of pid 200,
    the subject parsed last, and leaves the file of pid 100 in place. *)
Theorem stale_cache_of_earlier_subject_survives :
  exists subjects w',
    get_configuration "config.ini" w_two = Done ("/traces", subjects) w'
    /\ rec_pid <$> subjects = ["100"; "200"]
    /\ files w_two !! "100_brks.json" = Some "stale"
    /\ files w_two !! "200_brks.json" = Some "stale"
    /\ files w' !! "100_brks.json" = Some "stale"
    /\ files w' !! "200_brks.json" = None.
Proof.
  exists [s5; s7], (set_files (delete "200_brks.json" (files w_two)) w_two).
  repeat split; vm_compute; reflexivity.
Qed.

(** X7.  A successful call of the registry removes one file only, the cache
    file of the subject parsed last, whatever the number of subjects; every
    other file is left as it was. *)
Lemma registry_removes_one_file (ini_path : string) (w w' : world)
    (rr_dir : string) (subjects : list subject) :
  get_configuration ini_path w = Done (rr_dir, subjects) w' ->
  exists cfg parsed s_last,
    ini_files w !! ini_path = Some cfg
    /\ parse_sections cfg (tail (cfg_sections cfg)) w = Done parsed w
    /\ last parsed = Some s_last
    /\ files w' = delete (rec_pid s_last +:+ "_brks.json") (files w).
Proof.
  intros H.
  apply get_configuration_done in H
    as (cfg & parsed & ks & s_last & Hcfg & Hparsed & Hlast & _ & _ & ->).
  exists cfg, parsed, s_last. repeat split; assumption.
Qed.

(** ** Process-set matcher *)

Lemma undisturbed_refl (w : world) : undisturbed w w.
Proof.
  split; try reflexivity. exists []. split; [now rewrite app_nil_r | constructor].
Qed.

Lemma undisturbed_trans (a b c : world) :
  undisturbed a b -> undisturbed b c -> undisturbed a c.
Proof.
  intros [E1 S1 F1 (t1 & T1 & H1)] [E2 S2 F2 (t2 & T2 & H2)]. split.
  - congruence.
  - congruence.
  - intros Hq. rewrite F2, F1; [reflexivity | assumption |].
    intros t f. rewrite E1. apply Hq.
  - exists (t1 ++ t2). split; [|now apply Forall_app].
    now rewrite T2, T1, app_assoc.
Qed.

Lemma undisturbed_tick (w : world) : undisturbed w (tick w).
Proof.
  split; try reflexivity.
  - intros Hq. simpl. apply Hq.
  - exists []. split; [simpl; now rewrite app_nil_r | constructor].
Qed.

Lemma undisturbed_emit (e : effect) (w : world) :
  harmless e -> undisturbed w (emit e w).
Proof.
  intros He. split; try reflexivity.
  exists [e]. split; [reflexivity | now constructor].
Qed.

Lemma undisturbed_iter_tick (n : nat) (w : world) :
  undisturbed w (Nat.iter n tick w).
Proof.
  induction n as [|n IH]; [apply undisturbed_refl|].
  simpl. eapply undisturbed_trans; [exact IH | apply undisturbed_tick].
Qed.

Lemma get_message_undisturbed (fuel : nat) (name : string) (w w' : world)
    (r : string) :
  get_message fuel name w = Done r w' -> undisturbed w w'.
Proof.
  rewrite get_message_unfold. destruct (rrdump_pipe w).
  - intros H. apply read_message_done in H as (_ & _ & _ & -> & _);
      [|reflexivity].
    split; try reflexivity. exists []. split; [simpl; now rewrite app_nil_r | constructor].
  - destruct (wait_for_path fuel name w) as [u w1| |] eqn:Ew; try discriminate.
    apply wait_for_path_done in Ew as [n ->].
    intros H. apply read_message_done in H as (_ & _ & _ & -> & _);
      [|reflexivity].
    eapply undisturbed_trans; [apply undisturbed_iter_tick|].
    split; try reflexivity.
    exists [EOpen name]. split; [reflexivity | now repeat constructor].
Qed.

Lemma wait_alive_undisturbed (fuel : nat) (pid : string) (w w' : world)
    (u : unit) :
  wait_alive fuel pid w = Done u w' -> undisturbed w w'.
Proof.
  revert w. induction fuel as [|fuel IH]; intros w; simpl; [discriminate|].
  destruct (alive_at w (clock w) pid).
  - intros [= _ <-]. apply undisturbed_refl.
  - intros H. apply IH in H.
    eapply undisturbed_trans; [|exact H].
    eapply undisturbed_trans;
      [apply (undisturbed_emit (EPrint "waiting...")); exact I|].
    apply undisturbed_tick.
Qed.

Lemma dict_get_set_same (k : string) (v : Json.value)
    (m : list (string * Json.value)) :
  Json.dict_get k (Json.dict_set k v m) = Some v.
Proof.
  induction m as [|[k' v'] m IH]; simpl.
  - now rewrite String.eqb_refl.
  - destruct (String.eqb k k') eqn:E; simpl.
    + now rewrite String.eqb_refl.
    + now rewrite E.
Qed.

(** The INJECT branch on a subject whose state file is as the emitter wrote
    it for [s0]: the dict read back gets the live pid, is written under the
    pid-qualified name, the supervisor is started on that file and its handle
    is stored in the subject, whose key is now handled. *)
Lemma inject_subject_done (st : matcher) (i : nat) (s s0 : subject)
    (pid : string) (w : world) :
  let path := pid +:+ "_" +:+ injected_state_file s in
  let tmp := Json.dict_set "pid" (Json.Str pid) (subject_items s0) in
  files w !! injected_state_file s = Some (subject_text s0) ->
  can_spawn w ["inject"; "--verbosity=40"; path] = true ->
  exists w',
    inject_subject st i s pid w
    = Done (Matcher (<[i := with_handle (spawned w) s]> (m_subjects st))
                    (m_handled st ∪ {[ key s ]}) (Some i)) w'
    /\ files w' = <[path := Json.encode (Json.Obj tmp)]> (files w)
    /\ trace w'
       = trace w ++ [EPopen ["inject"; "--verbosity=40"; path] (spawned w)]
    /\ Json.dict_get "pid" tmp = Some (Json.Str pid).
Proof.
  intros path tmp Hfile Hspawn.
  unfold inject_subject, read_file. rewrite bind_unfold, Hfile.
  simpl or_raise. unfold ret at 1. rewrite bind_unfold, subject_text_loads.
  simpl or_raise. unfold ret at 1. fold path tmp.
  rewrite bind_unfold. unfold write_file. rewrite bind_unfold.
  unfold popen. simpl can_spawn. rewrite Hspawn. unfold ret.
  eexists. split; [reflexivity|]. split; [reflexivity|].
  split; [reflexivity | apply dict_get_set_same].
Qed.

(** A turn of the loop up to the choice on the keyword. *)
Lemma process_message_dispatch (consts : consts_module) (fuel : nat)
    (st : matcher) (w w1 w2 : world) (message inject ev pid : string) :
  get_message fuel (RR_PIPE consts) w = Done message w1 ->
  parse_notification message = Some (inject, ev, pid) ->
  wait_alive fuel pid w1 = Done tt w2 ->
  process_message consts fuel st w
  = dispatch inject pid
      (subjects_for_event (m_handled st) ev 0 (m_subjects st)) st w2.
Proof.
  intros Hm Hp Ha. unfold process_message.
  rewrite bind_unfold, Hm, bind_unfold, Hp. simpl.
  now rewrite bind_unfold, Ha.
Qed.

Lemma process_messages_loop_S (consts : consts_module) (fuel : nat)
    (st : matcher) (w : world) :
  process_messages_loop consts (S fuel) st w =
  if (size (m_handled st) <? List.length (m_subjects st))%nat
  then match process_message consts fuel st w with
       | Done st' w' => process_messages_loop consts fuel st' w'
       | Raise e tr => Raise e tr
       | OutOfFuel => OutOfFuel
       end
  else Done st w.
Proof. reflexivity. Qed.

(** C6 (amended).  Take a turn of the matcher in which the message read is
    an INJECT notification, the reported process is confirmed alive, and no
    subject of that event is still pending.  The turn ends normally with the matcher's
    state as it was (the same subject dicts, with their sibling lists and
    handles, the same handled keys, the same binding of [s]); the only
    effects after the wait are the two warnings; no file is written, no
    process is started, awaited or killed during the whole turn; and the
    loop, whose condition still holds, goes on to read the next message. *)
Theorem orphan_inject_is_ignored (consts : consts_module) (fuel : nat)
    (st : matcher) (w w1 w2 : world) (message ev pid : string) :
  get_message fuel (RR_PIPE consts) w = Done message w1 ->
  parse_notification message = Some ("INJECT", ev, pid) ->
  wait_alive fuel pid w1 = Done tt w2 ->
  subjects_for_event (m_handled st) ev 0 (m_subjects st) = [] ->
  exists w3,
    process_message consts fuel st w = Done st w3
    /\ trace w3 = trace w2 ++ [orphan_warning_1; orphan_warning_2]
    /\ files w3 = files w2
    /\ undisturbed w w3
    /\ ((size (m_handled st) <? List.length (m_subjects st))%nat = true ->
        process_messages_loop consts (S fuel) st w
        = process_messages_loop consts fuel st w3).
Proof.
  intros Hm Hp Ha Hnone.
  exists (emit orphan_warning_2 (emit orphan_warning_1 w2)).
  assert (Hturn : process_message consts fuel st w
                  = Done st (emit orphan_warning_2 (emit orphan_warning_1 w2))).
  { rewrite (process_message_dispatch _ _ _ _ _ _ _ _ _ _ Hm Hp Ha), Hnone.
    reflexivity. }
  split; [exact Hturn|]. split; [simpl; now rewrite <- app_assoc|].
  split; [reflexivity|]. split.
  - eapply undisturbed_trans; [eapply get_message_undisturbed; eassumption|].
    eapply undisturbed_trans; [eapply wait_alive_undisturbed; eassumption|].
    eapply undisturbed_trans;
      [apply (undisturbed_emit orphan_warning_1)
      |apply (undisturbed_emit orphan_warning_2)]; exact I.
  - intros Hguard. now rewrite process_messages_loop_S, Hguard, Hturn.
Qed.

Lemma orphan_inject_is_ignored_witness :
  exists w3,
    process_message consts0 50 st_5_handled w_extra = Done st_5_handled w3
    /\ trace w3
       = trace (set_pipe_data EmptyString
                  (set_rrdump_pipe true
                     (emit (EOpen "rrdump_proc.pipe") w_extra)))
         ++ [orphan_warning_1; orphan_warning_2]
    /\ files w3 = files (set_pipe_data EmptyString
                           (set_rrdump_pipe true
                              (emit (EOpen "rrdump_proc.pipe") w_extra)))
    /\ undisturbed w_extra w3
    /\ ((size (m_handled st_5_handled)
         <? List.length (m_subjects st_5_handled))%nat = true ->
        process_messages_loop consts0 51 st_5_handled w_extra
        = process_messages_loop consts0 50 st_5_handled w3).
Proof.
  apply (orphan_inject_is_ignored consts0 50 st_5_handled w_extra
           (set_pipe_data EmptyString
              (set_rrdump_pipe true (emit (EOpen "rrdump_proc.pipe") w_extra)))
           (set_pipe_data EmptyString
              (set_rrdump_pipe true (emit (EOpen "rrdump_proc.pipe") w_extra)))
           (line "INJECT" "5" "4250" "100") "5" "4250");
    vm_compute; reflexivity.
Defined.

(** C2 (amended).  Take a turn of the matcher in which the message read has
    at least five fields and a keyword that is neither INJECT nor
    DONT_INJECT, and the reported process is confirmed alive.  No exception
    is raised: the turn ends normally, the matcher's state and the world are
    as they were when the process was confirmed alive, and the loop, if its
    condition holds, goes on to read the next message. *)
Theorem unknown_keyword_is_skipped (consts : consts_module) (fuel : nat)
    (st : matcher) (w w1 w2 : world) (message inject ev pid : string) :
  get_message fuel (RR_PIPE consts) w = Done message w1 ->
  parse_notification message = Some (inject, ev, pid) ->
  inject <> "INJECT" ->
  inject <> "DONT_INJECT" ->
  wait_alive fuel pid w1 = Done tt w2 ->
  process_message consts fuel st w = Done st w2
  /\ undisturbed w w2
  /\ ((size (m_handled st) <? List.length (m_subjects st))%nat = true ->
      process_messages_loop consts (S fuel) st w
      = process_messages_loop consts fuel st w2).
Proof.
  intros Hm Hp Hi Hd Ha.
  assert (Hturn : process_message consts fuel st w = Done st w2).
  { rewrite (process_message_dispatch _ _ _ _ _ _ _ _ _ _ Hm Hp Ha).
    unfold dispatch. apply String.eqb_neq in Hi, Hd. now rewrite Hi, Hd. }
  split; [exact Hturn|]. split.
  - eapply undisturbed_trans; [eapply get_message_undisturbed; eassumption|].
    eapply wait_alive_undisturbed; eassumption.
  - intros Hguard. now rewrite process_messages_loop_S, Hguard, Hturn.
Qed.

Lemma unknown_keyword_is_skipped_witness :
  process_message consts0 50 (Matcher [s5] ∅ None) w_bogus
  = Done (Matcher [s5] ∅ None)
         (after_first_message (line "INJECT" "5" "4242" "100") w_bogus)
  /\ undisturbed w_bogus
       (after_first_message (line "INJECT" "5" "4242" "100") w_bogus)
  /\ ((size (m_handled (Matcher [s5] ∅ None))
       <? List.length (m_subjects (Matcher [s5] ∅ None)))%nat = true ->
      process_messages_loop consts0 51 (Matcher [s5] ∅ None) w_bogus
      = process_messages_loop consts0 50 (Matcher [s5] ∅ None)
          (after_first_message (line "INJECT" "5" "4242" "100") w_bogus)).
Proof.
  apply (unknown_keyword_is_skipped consts0 50 (Matcher [s5] ∅ None) w_bogus
           (after_first_message (line "INJECT" "5" "4242" "100") w_bogus)
           (after_first_message (line "INJECT" "5" "4242" "100") w_bogus)
           (line "BOGUS" "5" "4242" "100") "BOGUS" "5" "4242");
    first [discriminate | vm_compute; reflexivity].
Defined.

(** C2, as stated, fails: a line with the keyword BOGUS raises nothing, and
    the matcher goes on to read the INJECT line that follows and to start
    the supervisor for it. *)
Lemma unknown_keyword_raises_nothing :
  exists subjects w',
    process_messages consts0 50 [s5] w_bogus = Done subjects w'
    /\ s_handle <$> subjects = [Some 0]
    /\ pipe_data w' = EmptyString
    /\ trace w'
       = [EOpen "rrdump_proc.pipe";
          EPopen ["inject"; "--verbosity=40"; "4242_5_drop_write_state.json"]
                 0].
Proof.
  set (r := process_messages consts0 50 [s5] w_bogus). vm_compute in r.
  subst r. eexists _, _. split; [reflexivity|]. repeat split.
Qed.

(** With [s] unbound, or bound to the subject of another event, a
    DONT_INJECT notification is not recorded with a subject of its event. *)
Lemma track_other_proc_ignores_event (st : matcher) (pid : string) (w : world) :
  track_other_proc st pid w =
  match m_s st with
  | None => Raise UnboundLocalError (trace w)
  | Some i =>
      Done (Matcher
              (alter (fun s => with_other_procs (other_procs s ++ [pid]) s) i
                     (m_subjects st))
              (m_handled st) (m_s st)) w
  end.
Proof. unfold track_other_proc, bind, or_raise. now destruct (m_s st). Qed.

(** C1.  With subjects at events 5 and 7 and the messages INJECT for event 5,
    DONT_INJECT for event 7 (pid 4300), INJECT for event 7, the pid 4300 ends
    up in the sibling list of the subject of event 5 and the subject of
    event 7 has none.  With a DONT_INJECT message arriving before any INJECT
    message the matcher stops with UnboundLocalError. *)
Theorem sibling_recorded_with_last_injected_subject :
  (exists subjects w',
      process_messages consts0 50 [s5; s7] w_sibling_first = Done subjects w'
      /\ event <$> subjects = ["5"; "7"]
      /\ other_procs <$> subjects = [["4300"]; []])
  /\ process_messages consts0 50 [s5] w_sibling_only
     = Raise UnboundLocalError [EOpen "rrdump_proc.pipe"].
Proof.
  split.
  - set (r := process_messages consts0 50 [s5; s7] w_sibling_first).
    vm_compute in r. subst r. eexists _, _. split; [reflexivity|].
    split; reflexivity.
  - vm_compute. reflexivity.
Qed.

(** ** Supervisor waiter *)

(** A subject with a sibling to kill makes the waiter stop with TypeError,
    whatever its supervisor returned: the list of pids is indexed with a
    pid. *)
Lemma wait_on_handle_raises (s : subject) (w : world) :
  other_procs s <> [] ->
  exists tr, wait_on_handle s w = Raise TypeError tr.
Proof.
  intros Hne. unfold wait_on_handle. rewrite bind_unfold.
  destruct (other_procs s) as [|i r] eqn:Ho; [done|].
  destruct (s_handle s) as [h|].
  - unfold popen_wait. rewrite bind_unfold, for_each_cons.
    rewrite bind_unfold. unfold list_getitem, raise. eauto.
  - rewrite bind_unfold. unfold do_emit, ret.
    rewrite bind_unfold, for_each_cons.
    rewrite bind_unfold. unfold list_getitem, raise. eauto.
Qed.

(** X17.  Without siblings the waiter goes through all the subjects: it
    waits on every handle there is, and reports every missing handle and
    every supervisor that did not exit with status 0. *)
Lemma wait_on_handles_without_siblings (subjects : list subject) :
  forall w,
    Forall (fun s => other_procs s = []) subjects ->
    exists w',
      wait_on_handles subjects w = Done tt w'
      /\ trace w' = trace w ++ List.concat (waiter_report w <$> subjects)
      /\ files w' = files w.
Proof.
  assert (Hone : forall s v,
             other_procs s = [] ->
             exists v',
               wait_on_handle s v = Done tt v'
               /\ trace v' = trace v ++ waiter_report v s
               /\ files v' = files v
               /\ exit_status v' = exit_status v).
  { intros s v Hs. unfold wait_on_handle, waiter_report. rewrite Hs.
    destruct (s_handle s) as [h|].
    - rewrite bind_unfold. unfold popen_wait. rewrite bind_unfold.
      simpl for_each. unfold ret at 1.
      destruct (exit_status v h =? 0)%Z; unfold ret, do_emit.
      + eexists. repeat split; reflexivity.
      + eexists. repeat split; try reflexivity.
        simpl. now rewrite <- app_assoc.
    - rewrite !bind_unfold. unfold do_emit, ret. simpl.
      eexists. repeat split; try reflexivity.
      simpl. now rewrite <- app_assoc. }
  unfold wait_on_handles.
  induction subjects as [|s subjects IH]; intros w Hall.
  - exists w. simpl. unfold ret. now rewrite app_nil_r.
  - inversion_clear Hall as [|? ? Hs Hrest].
    destruct (Hone s w Hs) as (w1 & H1 & T1 & F1 & E1).
    destruct (IH w1 Hrest) as (w2 & H2 & T2 & F2).
    exists w2. rewrite for_each_cons, H1, H2. repeat split.
    + rewrite T2, T1. simpl. rewrite <- app_assoc. do 3 f_equal.
      unfold waiter_report. now rewrite E1.
    + congruence.
Qed.

(** C3.  For one matched subject with the sibling 4243 whose supervisor
    exits with status 1, the waiter waits on the handle and then stops with
    TypeError: pid 4243 is not killed, the failure of the supervisor is not
    reported, and any further subject would not be waited on. *)
Theorem waiter_stops_at_first_sibling :
  wait_on_handles [s5_matched] w_failed = Raise TypeError [EWait 0]
  /\ other_procs s5_matched = ["4243"]
  /\ exit_status w_failed 0 = 1%Z
  /\ wait_on_handles [s5_matched; with_handle 1 s7] w_failed
     = Raise TypeError [EWait 0].
Proof. repeat split; vm_compute; reflexivity. Qed.

(** ** Instances of the statements with hypotheses *)

Lemma emitted_configuration_round_trip_witness :
  exists text tmp,
    files (set_files (emitted_files [s5; s7] (files w_two)) w_two)
      !! injected_state_file s5 = Some text
    /\ Json.loads text = Some (Json.Obj tmp)
    /\ Json.dict_get "event" tmp = Some (Json.Str (event s5))
    /\ Json.dict_get "rec_pid" tmp = Some (Json.Str (rec_pid s5))
    /\ Json.dict_get "trace_file" tmp = Some (Json.Str (trace_file s5))
    /\ Json.dict_get "trace_start" tmp = Some (Json.Str (trace_start s5))
    /\ Json.dict_get "trace_end" tmp = Some (Json.Str (trace_end s5))
    /\ Json.dict_get "mutator" tmp = Some (Json.Str (mutator s5))
    /\ Json.dict_get "mmap_backing_files" tmp
       = Json.Str <$> mmap_backing_files s5
    /\ Json.dict_get "checker" tmp = Json.Str <$> checker s5.
Proof.
  apply (emitted_configuration_round_trip [] [s7] s5 w_two
           (set_files (emitted_files [s5; s7] (files w_two)) w_two)).
  - vm_compute. reflexivity.
  - compute_done.
  - repeat constructor.
Defined.

Lemma get_message_complete_or_empty_witness :
  ((line "INJECT" "5" "4250" "100" = EmptyString
    /\ pipe_data w_extra = EmptyString /\ pipe_eof w_extra = true)
   \/ complete_message (line "INJECT" "5" "4250" "100"))
  /\ pipe_data w_extra
     = line "INJECT" "5" "4250" "100"
       +:+ pipe_data (after_first_message EmptyString w_extra)
  /\ rrdump_pipe (after_first_message EmptyString w_extra) = true
  /\ opens (trace (after_first_message EmptyString w_extra))
     = opens (trace w_extra) + (if rrdump_pipe w_extra then 0 else 1).
Proof.
  apply (proj1 (get_message_complete_or_empty "rrdump_proc.pipe" w_extra) 50).
  vm_compute. reflexivity.
Defined.

Lemma get_message_termination_witness :
  get_message 1000 "rrdump_proc.pipe" w_partial = OutOfFuel.
Proof.
  apply (proj2 (get_message_termination "rrdump_proc.pipe" w_partial)).
  - discriminate.
  - reflexivity.
Defined.

(** * Further properties *)

(** ** Cleanup *)

Lemma cleanup_result (consts : consts_module) (v : world) :
  cleanup consts v
  = Done tt
      (let va := if bool_decide (is_Some (files v !! PROC_FILE consts))
                 then set_files (delete (PROC_FILE consts) (files v)) v
                 else v in
       if bool_decide (is_Some (files va !! RR_PIPE consts))
       then set_files (delete (RR_PIPE consts) (files va)) va
       else va).
Proof.
  assert (Hstep : forall p u,
             (b <- os_path_exists p ;;
              if b : bool then os_unlink p else ret tt) u
             = Done tt (if bool_decide (is_Some (files u !! p))
                        then set_files (delete p (files u)) u else u)).
  { intros p u. unfold bind, os_path_exists, os_unlink, ret.
    case_bool_decide as Hp; [|reflexivity].
    destruct Hp as [x Hx]. now rewrite Hx. }
  unfold cleanup. rewrite bind_unfold, Hstep. cbv beta iota.
  now rewrite Hstep.
Qed.

(** ** Replay engine launcher *)

Lemma events_string_from (subjects : list subject) (acc : string) :
  fold_left
    (fun events_str i => events_str +:+ rec_pid i +:+ ":" +:+ event i +:+ ",")
    subjects acc
  = acc +:+ joined ((fun s => event_request s +:+ ",") <$> subjects).
Proof.
  revert acc. induction subjects as [|s r IH]; intros acc.
  - simpl. now rewrite append_empty_r.
  - cbn [fold_left]. rewrite IH. cbn [fmap list_fmap joined].
    unfold event_request. rewrite !append_assoc'. reflexivity.
Qed.

Lemma append_single (c : ascii) (x : string) :
  String c EmptyString +:+ x = String c x.
Proof. reflexivity. Qed.

Lemma split_append (sep : ascii) (a b : string) :
  contains sep a = false ->
  Py.split sep (a +:+ String sep b) = a :: Py.split sep b.
Proof.
  induction a as [|c a IH]; intros Hc; simpl.
  - now rewrite Ascii.eqb_refl.
  - simpl in Hc. apply orb_false_iff in Hc as [Hc Ha].
    rewrite Hc. now rewrite IH.
Qed.

Lemma split_requests (subjects : list subject) :
  Forall (fun s => contains "," (event_request s) = false) subjects ->
  Py.split "," (joined ((fun s => event_request s +:+ ",") <$> subjects))
  = (event_request <$> subjects) ++ [EmptyString].
Proof.
  induction 1 as [|s r Hs Hr IH]; [reflexivity|].
  cbn [fmap list_fmap joined]. rewrite append_assoc', append_single.
  rewrite split_append by assumption.
  cbn [fmap list_fmap] in IH. rewrite IH. reflexivity.
Qed.

(** X10.  When rr can be started, [execute_rr] creates or empties the
    capture file and starts exactly one process, [rr replay -a -n] followed
    by the request string and the trace directory; nothing else is touched.
    The request string lists, in the order of the subjects, one
    [rec_pid:event] pair per subject, each followed by a comma: when no pair
    contains a comma, splitting it at the commas gives the pairs back and an
    empty last field. *)
Theorem execute_rr_starts_one_replay (consts : consts_module) (rr_dir : string)
    (subjects : list subject) (w : world) :
  can_spawn w ["rr"; "replay"; "-a"; "-n"; events_string subjects; rr_dir]
  = true ->
  exists w',
    execute_rr consts rr_dir subjects w = Done tt w'
    /\ trace w'
       = trace w
         ++ [EPopen ["rr"; "replay"; "-a"; "-n"; events_string subjects; rr_dir]
                    (spawned w)]
    /\ files w' = <[PROC_FILE consts := EmptyString]> (files w)
    /\ pipe_data w' = pipe_data w
    /\ (Forall (fun s => contains "," (event_request s) = false) subjects ->
        Py.split "," (events_string subjects)
        = (event_request <$> subjects) ++ [EmptyString]).
Proof.
  intros Hspawn. unfold execute_rr, write_file. rewrite bind_unfold.
  rewrite bind_unfold. unfold popen. simpl can_spawn. rewrite Hspawn.
  unfold ret. eexists. split; [reflexivity|]. repeat split.
  intros Hall. unfold events_string. rewrite events_string_from.
  now apply split_requests.
Qed.

Lemma execute_rr_starts_one_replay_witness :
  exists w',
    execute_rr consts0 "/traces" [s5; s7] w_two = Done tt w'
    /\ trace w'
       = trace w_two
         ++ [EPopen ["rr"; "replay"; "-a"; "-n"; events_string [s5; s7];
                     "/traces"] (spawned w_two)]
    /\ files w' = <[PROC_FILE consts0 := EmptyString]> (files w_two)
    /\ pipe_data w' = pipe_data w_two
    /\ (Forall (fun s => contains "," (event_request s) = false) [s5; s7] ->
        Py.split "," (events_string [s5; s7])
        = (event_request <$> [s5; s7]) ++ [EmptyString]).
Proof.
  apply (execute_rr_starts_one_replay consts0 "/traces" [s5; s7] w_two).
  reflexivity.
Defined.

(** ** Supervisor waiter *)

Lemma kills_app (a b : list effect) : kills (a ++ b) = kills a ++ kills b.
Proof.
  induction a as [|e a IH]; [reflexivity|].
  destruct e; simpl; rewrite IH; reflexivity.
Qed.

Lemma wait_on_handle_never_kills (s : subject) (w : world) :
  match wait_on_handle s w with
  | Done _ w' => kills (trace w') = kills (trace w)
  | Raise _ tr => kills tr = kills (trace w)
  | OutOfFuel => False
  end.
Proof.
  unfold wait_on_handle. rewrite bind_unfold.
  destruct (other_procs s) as [|i r] eqn:Ho.
  - destruct (s_handle s) as [h|].
    + unfold popen_wait. rewrite bind_unfold. simpl for_each. unfold ret at 1.
      destruct (exit_status w h =? 0)%Z; unfold ret, do_emit; simpl;
        rewrite ?kills_app; simpl; now rewrite ?app_nil_r.
    + rewrite !bind_unfold. unfold do_emit, ret. simpl.
      rewrite ?kills_app. simpl. now rewrite ?app_nil_r.
  - destruct (s_handle s) as [h|].
    + unfold popen_wait. rewrite bind_unfold, for_each_cons, bind_unfold.
      unfold list_getitem, raise. simpl. rewrite kills_app. simpl.
      now rewrite app_nil_r.
    + rewrite bind_unfold. unfold do_emit, ret.
      rewrite bind_unfold, for_each_cons, bind_unfold.
      unfold list_getitem, raise. simpl. rewrite kills_app. simpl.
      now rewrite app_nil_r.
Qed.

(** X16.  The waiter never sends a kill signal: whatever the subjects and
    however the call ends, normally or with an exception, the kills shown by
    the trace are those that were there before.  (A subject with siblings
    stops the waiter before [os.kill]; a subject without has nothing to
    kill.)  Nothing is said of a call that does not end. *)
Theorem wait_on_handles_never_kills (subjects : list subject) (w : world) :
  match wait_on_handles subjects w with
  | Done _ w' => kills (trace w') = kills (trace w)
  | Raise _ tr => kills tr = kills (trace w)
  | OutOfFuel => True
  end.
Proof.
  unfold wait_on_handles. revert w.
  induction subjects as [|s subjects IH]; intros w; [reflexivity|].
  rewrite for_each_cons. pose proof (wait_on_handle_never_kills s w) as Hs.
  destruct (wait_on_handle s w) as [u w1|e tr|]; [|assumption|exact I].
  specialize (IH w1).
  destruct (for_each subjects wait_on_handle w1); first [congruence | exact I].
Qed.

Lemma wait_on_handles_without_siblings_witness :
  exists w',
    wait_on_handles [with_handle 0 s5; s7] w_failed = Done tt w'
    /\ trace w'
       = trace w_failed
         ++ List.concat (waiter_report w_failed <$> [with_handle 0 s5; s7])
    /\ files w' = files w_failed.
Proof.
  apply (wait_on_handles_without_siblings [with_handle 0 s5; s7] w_failed).
  repeat constructor.
Defined.

(** ** Notification reader *)

Lemma get_message_keeps_eof (fuel : nat) (name : string) (w w' : world)
    (r : string) :
  get_message fuel name w = Done r w' -> pipe_eof w' = pipe_eof w.
Proof.
  rewrite get_message_unfold. destruct (rrdump_pipe w).
  - intros H. apply read_message_done in H as (_ & _ & _ & -> & _);
      reflexivity.
  - destruct (wait_for_path fuel name w) as [u w1| |] eqn:Ew; try discriminate.
    apply wait_for_path_done in Ew as [n ->].
    destruct (iter_tick_frame n w) as (_ & Fe & _).
    intros H. apply read_message_done in H as (_ & _ & _ & -> & _);
      [|reflexivity].
    exact Fe.
Qed.

(** X2.  Successive calls of [get_message] hand out the stream in order and
    without loss: the results, one after the other, followed by what is
    still pending, are the bytes that were pending before the first call.
    Once a call has returned the empty string, every later call returns the
    empty string. *)
Theorem get_messages_in_order (fuel : nat) (name : string) (n : nat) :
  forall (w w' : world) (rs : list string),
    get_messages fuel name n w = Done rs w' ->
    pipe_data w = joined rs +:+ pipe_data w'
    /\ (forall rs1 rs2,
           rs = rs1 ++ EmptyString :: rs2 -> Forall (eq EmptyString) rs2).
Proof.
  induction n as [|n IH]; intros w w' rs; simpl.
  - intros [= <- <-]. split; [reflexivity|].
    intros rs1 rs2 H. now destruct rs1.
  - unfold bind, ret.
    destruct (get_message fuel name w) as [r w1| |] eqn:E1; try discriminate.
    destruct (get_messages fuel name n w1) as [rs1 w2| |] eqn:E2;
      try discriminate.
    intros [= <- <-].
    pose proof (get_message_keeps_eof _ _ _ _ _ E1) as He.
    apply get_message_done in E1 as (Hr & Hp & _).
    destruct (IH _ _ _ E2) as (Hp2 & Hsticky).
    split; [simpl; now rewrite Hp, Hp2, append_assoc'|].
    intros l1 l2 Hsplit. destruct l1 as [|x l1]; simpl in Hsplit.
    + injection Hsplit as -> ->.
      destruct Hr as [(_ & Hd & Heof)|(body & Hb & _)];
        [|destruct body; discriminate].
      rewrite Hd in Hp. simpl in Hp.
      clear IH Hsticky Hp2. revert w1 w2 E2 He Hp.
      generalize dependent l2. induction n as [|n IHn]; intros l2 w1 w2; simpl.
      * intros [= <- <-]. constructor.
      * unfold bind, ret.
        destruct (get_message fuel name w1) as [r w3| |] eqn:E3;
          try discriminate.
        destruct (get_messages fuel name n w3) as [rs3 w4| |] eqn:E4;
          try discriminate.
        intros [= <- <-] He Hp.
        pose proof (get_message_keeps_eof _ _ _ _ _ E3) as He3.
        apply get_message_done in E3 as (Hr3 & Hp3 & _).
        assert (Hr_empty : r = EmptyString).
        { destruct Hr3 as [(H & _)|(body & -> & _)]; [exact H|].
          rewrite <- Hp in Hp3. destruct body; discriminate. }
        subst r. constructor; [reflexivity|].
        apply (IHn rs3 w3 w4 E4); [congruence|].
        rewrite <- Hp in Hp3. simpl in Hp3. exact Hp3.
    + injection Hsplit as -> ->. eapply Hsticky. reflexivity.
Qed.

Lemma get_messages_in_order_witness :
  pipe_data w_bogus
  = joined [line "BOGUS" "5" "4242" "100"; line "INJECT" "5" "4242" "100";
            EmptyString]
    +:+ pipe_data (after_first_message EmptyString w_bogus)
  /\ (forall rs1 rs2,
         [line "BOGUS" "5" "4242" "100"; line "INJECT" "5" "4242" "100";
          EmptyString]
         = rs1 ++ EmptyString :: rs2 -> Forall (eq EmptyString) rs2).
Proof.
  apply (get_messages_in_order 50 "rrdump_proc.pipe" 3 w_bogus).
  vm_compute. reflexivity.
Defined.

(** ** The protocol line *)

Lemma str_rev_app_twice (s a b : string) :
  Py.str_rev_app (Py.str_rev_app s a) b = Py.str_rev_app a (s +:+ b).
Proof.
  revert a b. induction s as [|c s IH]; intros a b; [reflexivity|].
  simpl. now rewrite IH.
Qed.

Lemma str_rev_app_append (x y acc : string) :
  Py.str_rev_app (x +:+ y) acc = Py.str_rev_app y (Py.str_rev_app x acc).
Proof.
  revert acc. induction x as [|c x IH]; intros acc; [reflexivity|].
  simpl. now rewrite IH.
Qed.

(** A string that ends in a character which is not white space loses
    nothing on the right. *)
Lemma rstrip_ends_solid (x : string) (c : ascii) :
  Py.is_space c = false ->
  Py.rstrip (x +:+ String c EmptyString) = x +:+ String c EmptyString.
Proof.
  intros Hc. unfold Py.rstrip, Py.str_rev.
  rewrite str_rev_app_append. simpl. rewrite Hc.
  change (String c (Py.str_rev_app x EmptyString))
    with (Py.str_rev_app (String c EmptyString) (Py.str_rev_app x EmptyString)).
  change (Py.str_rev_app (Py.str_rev_app (String c EmptyString)
                            (Py.str_rev_app x EmptyString)) EmptyString)
    with (Py.str_rev_app (Py.str_rev_app x EmptyString) (String c EmptyString)).
  now rewrite str_rev_app_twice.
Qed.

Lemma lstrip_starts_solid (d t : string) :
  has_space d = false -> d <> EmptyString -> Py.lstrip (d +:+ t) = d +:+ t.
Proof.
  destruct d as [|c d]; [done|]. simpl. intros H _.
  apply orb_false_iff in H as [Hc _]. now rewrite Hc.
Qed.

Lemma drop_last_append_char (x : string) (c : ascii) :
  Py.drop_last (x +:+ String c EmptyString) = x.
Proof.
  induction x as [|a x IH]; [reflexivity|].
  simpl. rewrite IH.
  destruct (x +:+ String c EmptyString) eqn:E; [|reflexivity].
  now apply append_char_not_empty in E.
Qed.

Lemma has_space_contains (s : string) :
  has_space s = false -> contains " " s = false.
Proof.
  induction s as [|c s IH]; [reflexivity|]. simpl. intros H.
  apply orb_false_iff in H as [Hc Hs]. rewrite (IH Hs), orb_false_r.
  destruct (Ascii.eqb_spec c " ") as [->|]; [discriminate | reflexivity].
Qed.

Lemma line_fields (d e p r : string) :
  has_space d = false ->
  contains " " e = false ->
  contains " " p = false ->
  Py.split " " (line d e p r)
  = (d +:+ ":") :: "EVENT:" :: e :: "PID:" :: p :: "REC_PID:"
      :: Py.split " " (r +:+ nl).
Proof.
  intros Hd He Hp.
  assert (Hline : line d e p r
                  = (d +:+ ":") +:+ String " "
                      ("EVENT:" +:+ String " "
                         (e +:+ String " "
                            ("PID:" +:+ String " "
                               (p +:+ String " "
                                  ("REC_PID:" +:+ String " " (r +:+ nl))))))).
  { unfold line. rewrite !append_assoc'. reflexivity. }
  rewrite Hline.
  rewrite split_append
    by (rewrite contains_append, (has_space_contains _ Hd); reflexivity).
  rewrite split_append by reflexivity.
  rewrite split_append by assumption.
  rewrite split_append by reflexivity.
  rewrite split_append by assumption.
  rewrite split_append by reflexivity.
  reflexivity.
Qed.

(** X11.  The matcher reads a protocol line back into its fields: for a
    keyword without white space and an event and a pid without spaces, the
    line [<keyword>: EVENT: <event> PID: <pid> REC_PID: <rec>] followed by
    the line terminator gives that keyword, that event and that pid,
    whatever the recorded pid is. *)
Theorem parse_notification_of_line (d e p r : string) :
  has_space d = false ->
  contains " " e = false ->
  contains " " p = false ->
  parse_notification (line d e p r) = Some (d, e, p).
Proof.
  intros Hd He Hp. unfold parse_notification.
  rewrite line_fields by assumption. simpl.
  assert (Hstrip : Py.strip (d +:+ ":") = d +:+ ":").
  { unfold Py.strip. rewrite rstrip_ends_solid by reflexivity.
    destruct d as [|c d]; [reflexivity|].
    now apply lstrip_starts_solid. }
  rewrite Hstrip. now rewrite drop_last_append_char.
Qed.

Lemma parse_notification_of_line_witness :
  parse_notification (line "DONT_INJECT" "7" "4300" "200")
  = Some ("DONT_INJECT", "7", "4300").
Proof.
  apply (parse_notification_of_line "DONT_INJECT" "7" "4300" "200");
    reflexivity.
Defined.

(** ** The matcher at the end of the stream *)

(** X12.  When rr has closed the channel with nothing left to read while
    subjects are still to be matched, [process_messages] does not wait: the
    empty message has no third field and the run stops with IndexError.  The
    only effect is the opening of the channel, if it was not open yet. *)
Theorem closed_channel_stops_matcher (consts : consts_module) (fuel : nat)
    (subjects : list subject) (w : world) :
  subjects <> [] ->
  pipe_data w = EmptyString ->
  pipe_eof w = true ->
  rrdump_pipe w = true \/ is_Some (files w !! RR_PIPE consts) ->
  process_messages consts (S (S fuel)) subjects w
  = Raise IndexError
      (trace w ++ if rrdump_pipe w then [] else [EOpen (RR_PIPE consts)]).
Proof.
  intros Hne Hd He Hopen.
  unfold process_messages. rewrite bind_unfold, process_messages_loop_S.
  simpl m_handled. simpl m_subjects. rewrite size_empty.
  replace (0 <? List.length subjects)%nat with true
    by (destruct subjects; [done | reflexivity]).
  unfold process_message. rewrite bind_unfold, get_message_unfold.
  destruct (rrdump_pipe w) eqn:Hrp.
  - rewrite read_message_at_eof by assumption.
    rewrite bind_unfold. unfold or_raise, raise. simpl.
    now rewrite app_nil_r.
  - destruct Hopen as [|Hex]; [discriminate|].
    simpl wait_for_path. rewrite bool_decide_eq_true_2 by assumption.
    rewrite read_message_at_eof by assumption.
    rewrite bind_unfold. reflexivity.
Qed.

Lemma closed_channel_stops_matcher_witness :
  process_messages consts0 2 [s5; s7] (quiet_world ∅ state_files EmptyString 0)
  = Raise IndexError
      (trace (quiet_world ∅ state_files EmptyString 0)
       ++ if rrdump_pipe (quiet_world ∅ state_files EmptyString 0)
          then [] else [EOpen (RR_PIPE consts0)]).
Proof.
  apply (closed_channel_stops_matcher consts0 0 [s5; s7]
           (quiet_world ∅ state_files EmptyString 0)).
  - discriminate.
  - reflexivity.
  - reflexivity.
  - right. vm_compute. eauto.
Defined.

(** ** What a turn of the matcher can do *)

Lemma subjects_for_event_elem (handled : gset (string * string))
    (ev : string) (l : list subject) :
  forall (k i : nat) (s : subject),
    (i, s) ∈ subjects_for_event handled ev k l ->
    exists j, i = k + j /\ l !! j = Some s
              /\ event s = ev /\ key s ∉ handled.
Proof.
  induction l as [|x l IH]; intros k i s Hin; simpl in Hin.
  - now apply elem_of_nil in Hin.
  - destruct (decide (event x = ev ∧ key x ∉ handled)) as [[He Hk]|_].
    + apply elem_of_cons in Hin as [[= -> ->]|Hin].
      * exists 0. rewrite Nat.add_0_r. auto.
      * destruct (IH _ _ _ Hin) as (j & -> & Hj & H).
        exists (S j). split; [lia | auto].
    + destruct (IH _ _ _ Hin) as (j & -> & Hj & H).
      exists (S j). split; [lia | auto].
Qed.

Lemma insert_as_alter {A} (f : A -> A) (l : list A) (i : nat) (x : A) :
  l !! i = Some x -> <[i := f x]> l = alter f i l.
Proof.
  revert i. induction l as [|y l IH]; intros [|i] H; try done.
  - now injection H as ->.
  - simpl. f_equal. now apply IH.
Qed.

(** The three things a turn that ends normally can have done: nothing to
    the state; a pid appended to the sibling list of the subject [s] is
    bound to; or a pending subject given a handle, its key handled, one
    supervisor started. *)
Lemma process_message_step (consts : consts_module) (fuel : nat)
    (st st' : matcher) (w w' : world) :
  process_message consts fuel st w = Done st' w' ->
  exists w2,
    undisturbed w w2
    /\ ((st' = st /\ undisturbed w2 w')
        \/ (exists i pid,
               m_s st = Some i
               /\ st' = Matcher
                          (alter (fun s =>
                                    with_other_procs (other_procs s ++ [pid]) s)
                                 i (m_subjects st))
                          (m_handled st) (m_s st)
               /\ w' = w2)
        \/ (exists i s argv,
               m_subjects st !! i = Some s
               /\ (key s ∉ m_handled st)
               /\ st' = Matcher
                          (alter (with_handle (spawned w2)) i (m_subjects st))
                          (m_handled st ∪ {[ key s ]}) (Some i)
               /\ trace w' = trace w2 ++ [EPopen argv (spawned w2)])).
Proof.
  unfold process_message. rewrite bind_unfold.
  destruct (get_message fuel (RR_PIPE consts) w) as [message w1| |] eqn:Hm;
    try discriminate.
  rewrite bind_unfold.
  destruct (parse_notification message) as [[[inject ev] pid]|];
    [|discriminate].
  simpl or_raise. unfold ret at 1. rewrite bind_unfold.
  destruct (wait_alive fuel pid w1) as [u w2| |] eqn:Ha; try discriminate.
  intros Hd. exists w2. split.
  { eapply undisturbed_trans; [eapply get_message_undisturbed; eassumption|].
    eapply wait_alive_undisturbed; eassumption. }
  unfold dispatch in Hd.
  destruct (String.eqb inject "INJECT").
  - destruct (last _) as [[i s]|] eqn:Hlast.
    + right. right.
      apply last_Some_elem_of in Hlast.
      apply subjects_for_event_elem in Hlast as (j & -> & Hj & _ & Hk).
      simpl in Hd. unfold inject_subject, read_file in Hd.
      rewrite bind_unfold in Hd.
      destruct (files w2 !! injected_state_file s) as [text|];
        [|discriminate].
      simpl or_raise in Hd. unfold ret at 1 in Hd. rewrite bind_unfold in Hd.
      destruct (Json.loads text) as [[?|?|tmp]|]; try discriminate.
      simpl or_raise in Hd. unfold ret at 1 in Hd.
      rewrite bind_unfold in Hd. unfold write_file in Hd.
      rewrite bind_unfold in Hd. unfold popen in Hd. simpl can_spawn in Hd.
      destruct (can_spawn w2 _); [|discriminate].
      unfold ret in Hd. injection Hd as <- <-.
      eexists j, s, _. repeat split; try assumption.
      f_equal. now apply insert_as_alter.
    + left. unfold orphan_warnings in Hd. rewrite !bind_unfold in Hd.
      unfold do_emit, ret in Hd. injection Hd as <- <-.
      split; [reflexivity|].
      eapply undisturbed_trans;
        [apply (undisturbed_emit orphan_warning_1)
        |apply (undisturbed_emit orphan_warning_2)]; exact I.
  - destruct (String.eqb inject "DONT_INJECT").
    + right. left. rewrite track_other_proc_ignores_event in Hd.
      destruct (m_s st) as [i|]; [|discriminate].
      injection Hd as <- <-. eauto.
    + left. unfold ret in Hd. injection Hd as <- <-.
      split; [reflexivity | apply undisturbed_refl].
Qed.

(** Anything kept by every turn is kept by the loop, and the loop ends
    only when nothing is pending. *)
Lemma process_messages_loop_invariant (consts : consts_module)
    (P : matcher -> world -> Prop) :
  (forall fuel st w st' w',
      P st w -> pending st = true ->
      process_message consts fuel st w = Done st' w' -> P st' w') ->
  forall fuel st w st' w',
    P st w ->
    process_messages_loop consts fuel st w = Done st' w' ->
    P st' w' /\ pending st' = false.
Proof.
  intros Hstep. induction fuel as [|fuel IH]; intros st w st' w' HP;
    [discriminate|].
  rewrite process_messages_loop_S. fold (pending st).
  destruct (pending st) eqn:Hp.
  - destruct (process_message consts fuel st w) as [st1 w1| |] eqn:E;
      try discriminate.
    apply IH. eapply Hstep; eassumption.
  - intros [= <- <-]. now split.
Qed.

(** ** The subject dicts under the matcher *)

Lemma grown_refl (s : subject) : grown s s.
Proof. now split. Qed.

Lemma grown_sibling (a b : subject) (pid : string) :
  grown a b -> grown a (with_other_procs (other_procs b ++ [pid]) b).
Proof. intros []. split; try assumption. simpl. now apply prefix_app_r. Qed.

Lemma grown_handle (a b : subject) (h : handle) :
  grown a b -> grown a (with_handle h b).
Proof. intros []. now split. Qed.

Lemma process_messages_loop_grows (consts : consts_module) (fuel : nat)
    (subjects : list subject) (st' : matcher) (w w' : world) :
  process_messages_loop consts fuel (Matcher subjects ∅ None) w = Done st' w' ->
  Forall2 grown subjects (m_subjects st').
Proof.
  intros E.
  apply (process_messages_loop_invariant consts
           (fun st _ => Forall2 grown subjects (m_subjects st))) in E
    as [H _]; [exact H| |].
  - intros f st v st1 v1 HP _ Hturn.
    apply process_message_step in Hturn
      as (w2 & _ & [(-> & _)|[(i & pid & _ & -> & _)|(i & s & argv & _ & _ & -> & _)]]).
    + exact HP.
    + simpl. apply Forall2_alter_r; [exact HP|].
      intros x y _ _. apply grown_sibling.
    + simpl. apply Forall2_alter_r; [exact HP|].
      intros x y _ _. apply grown_handle.
  - simpl. apply Forall_Forall2_diag, Forall_forall. intros x _.
    apply grown_refl.
Qed.

(** X14.  [process_messages] changes the subject dicts in two ways only: it
    appends pids to sibling lists and it sets handles.  When it returns, the
    list has the same length, every dict has the event, recorded pid, trace
    file, trace range, mutator, state-file name, backing files and checker
    it had, and its earlier sibling list is a prefix of the final one. *)
Theorem process_messages_grows_subjects (consts : consts_module) (fuel : nat)
    (subjects subjects' : list subject) (w w' : world) :
  process_messages consts fuel subjects w = Done subjects' w' ->
  Forall2 grown subjects subjects'.
Proof.
  unfold process_messages. rewrite bind_unfold.
  destruct (process_messages_loop consts fuel (Matcher subjects ∅ None) w)
    as [st1 w1| |] eqn:E; try discriminate.
  intros [= <- <-]. eapply process_messages_loop_grows. exact E.
Qed.

Lemma process_messages_grows_subjects_witness :
  Forall2 grown [s5]
    [with_handle 0 s5].
Proof.
  apply (process_messages_grows_subjects consts0 50 [s5] [with_handle 0 s5]
           w_bogus
           (set_spawned 1
              (emit (EPopen ["inject"; "--verbosity=40";
                             "4242_5_drop_write_state.json"] 0)
                 (set_files
                    (<["4242_5_drop_write_state.json" :=
                         Json.encode
                           (Json.Obj
                              (Json.dict_set "pid" (Json.Str "4242")
                                 (subject_items s5)))]> (files w_bogus))
                    (after_first_message EmptyString w_bogus))))).
  vm_compute. reflexivity.
Defined.

(** ** Every subject is matched, once *)

Lemma popens_app (a b : list effect) : popens (a ++ b) = popens a ++ popens b.
Proof.
  induction a as [|e a IH]; [reflexivity|].
  destruct e; simpl; rewrite IH; reflexivity.
Qed.

Lemma harmless_quiet (added : list effect) :
  Forall harmless added -> popens added = [] /\ kills added = [].
Proof.
  induction 1 as [|e r He _ [IH1 IH2]]; [now split|].
  destruct e; simpl in *; try contradiction; now split.
Qed.

Lemma undisturbed_quiet (w w' : world) :
  undisturbed w w' ->
  popens (trace w') = popens (trace w) /\ kills (trace w') = kills (trace w).
Proof.
  intros [_ _ _ (added & -> & Hadded)].
  destruct (harmless_quiet _ Hadded) as [Hp Hk].
  now rewrite popens_app, kills_app, Hp, Hk, !app_nil_r.
Qed.

Lemma matched_at_alter (l : list subject) (h : gset (string * string))
    (v v' : option nat) (J : list nat) (f : subject -> subject) (i : nat) :
  (forall s, key (f s) = key s) ->
  (forall s, is_Some (s_handle s) -> is_Some (s_handle (f s))) ->
  matched_at (Matcher l h v) J ->
  matched_at (Matcher (alter f i l) h v') J.
Proof.
  intros Hkey Hhandle (HJ & ks & HF & Hks & Hh).
  split; [exact HJ|]. exists ks. split; [|now split].
  eapply Forall2_impl; [exact HF|]. simpl.
  intros j k (s & Hj & Hk & Hs). rewrite list_lookup_alter.
  destruct (decide (i = j)) as [->|Hne].
  - exists (f s). rewrite Hj. simpl. rewrite Hkey. auto.
  - exists s. auto.
Qed.

Lemma matched_at_elem (st : matcher) (J : list nat) (j : nat) :
  matched_at st J -> j ∈ J ->
  exists s, m_subjects st !! j = Some s
            /\ key s ∈ m_handled st /\ is_Some (s_handle s).
Proof.
  intros (_ & ks & HF & _ & Hh) Hj.
  apply list_elem_of_lookup_1 in Hj as [a Ha].
  destruct (Forall2_lookup_l _ _ _ _ _ HF Ha) as (k & Hk & s & Hs & Hkey & Hhd).
  exists s. split; [exact Hs|]. split; [|exact Hhd].
  rewrite Hh, elem_of_list_to_set, Hkey.
  eapply list_elem_of_lookup_2. exact Hk.
Qed.

Lemma matched_at_new (l : list subject) (h : gset (string * string))
    (v v' : option nat) (J : list nat) (i : nat) (s : subject) (hd : handle) :
  matched_at (Matcher l h v) J ->
  l !! i = Some s ->
  key s ∉ h ->
  matched_at (Matcher (alter (with_handle hd) i l) (h ∪ {[ key s ]}) v')
             (i :: J).
Proof.
  intros HM Hi Hfresh.
  assert (HiJ : i ∉ J).
  { intros Hin. destruct (matched_at_elem _ _ _ HM Hin) as (s' & Hs' & Hk & _).
    simpl in Hs', Hk. rewrite Hi in Hs'. injection Hs' as <-. contradiction. }
  pose proof (matched_at_alter l h v v' J (with_handle hd) i
                (fun _ => eq_refl) (fun _ _ => mk_is_Some _ _ eq_refl) HM)
    as (HJ & ks & HF & Hks & Hh).
  simpl in Hh. split; [now constructor|].
  exists (key s :: ks). split; [|split].
  - constructor; [|exact HF]. exists (with_handle hd s). simpl.
    rewrite list_lookup_alter_eq, Hi. repeat split. eauto.
  - constructor; [|exact Hks]. intros Hin. apply Hfresh.
    rewrite Hh. now apply elem_of_list_to_set.
  - simpl. rewrite <- Hh. apply union_comm_L.
Qed.

(** When nothing is pending any more the matched positions are all the
    positions. *)
Lemma matched_at_all (st : matcher) (J : list nat) :
  matched_at st J -> pending st = false ->
  Forall (fun s => is_Some (s_handle s)) (m_subjects st)
  /\ NoDup (key <$> m_subjects st)
  /\ List.length J = List.length (m_subjects st).
Proof.
  intros HM Hp. pose proof HM as (HJ & ks & HF & Hks & Hh).
  set (n := List.length (m_subjects st)).
  assert (Hlen : n <= List.length J).
  { unfold pending in Hp. apply Nat.ltb_ge in Hp.
    rewrite Hh, size_list_to_set in Hp by assumption.
    now rewrite (Forall2_length _ _ _ HF). }
  assert (Hin : forall j, j ∈ J -> j ∈ seq 0 n).
  { intros j Hj. destruct (matched_at_elem _ _ _ HM Hj) as (s & Hs & _).
    apply lookup_lt_Some in Hs. apply elem_of_seq. unfold n. lia. }
  assert (Hperm : J ≡ₚ seq 0 n).
  { apply submseteq_length_Permutation; [now apply NoDup_submseteq|].
    now rewrite length_seq. }
  assert (Hall : forall i, i < n -> i ∈ J).
  { intros i Hi. rewrite Hperm. apply elem_of_seq. lia. }
  split; [|split].
  - apply Forall_lookup. intros i x Hx.
    destruct (matched_at_elem _ _ i HM) as (s & Hs & _ & Hhd).
    + apply Hall. eapply lookup_lt_Some. exact Hx.
    + congruence.
  - apply NoDup_alt. intros i j x Hi Hj.
    rewrite list_lookup_fmap in Hi, Hj.
    destruct (m_subjects st !! i) as [si|] eqn:Esi; [|discriminate].
    destruct (m_subjects st !! j) as [sj|] eqn:Esj; [|discriminate].
    simpl in Hi, Hj. injection Hi as Hi. injection Hj as Hj.
    assert (HiJ : i ∈ J) by (apply Hall; eapply lookup_lt_Some; exact Esi).
    assert (HjJ : j ∈ J) by (apply Hall; eapply lookup_lt_Some; exact Esj).
    apply list_elem_of_lookup_1 in HiJ as [a Ha].
    apply list_elem_of_lookup_1 in HjJ as [b Hb].
    destruct (Forall2_lookup_l _ _ _ _ _ HF Ha) as (ka & Hka & sa & Hsa & Hkeya & _).
    destruct (Forall2_lookup_l _ _ _ _ _ HF Hb) as (kb & Hkb & sb & Hsb & Hkeyb & _).
    rewrite Esi in Hsa. rewrite Esj in Hsb.
    injection Hsa as <-. injection Hsb as <-.
    assert (a = b).
    { eapply NoDup_lookup; [exact Hks | exact Hka |]. congruence. }
    subst b. congruence.
  - apply Permutation_length in Hperm. now rewrite length_seq in Hperm.
Qed.

Lemma process_messages_loop_matches (consts : consts_module) (fuel : nat)
    (subjects : list subject) (st' : matcher) (w w' : world) :
  process_messages_loop consts fuel (Matcher subjects ∅ None) w = Done st' w' ->
  pending st' = false
  /\ kills (trace w') = kills (trace w)
  /\ exists J,
       matched_at st' J
       /\ List.length (popens (trace w'))
          = List.length (popens (trace w)) + List.length J.
Proof.
  intros E.
  apply (process_messages_loop_invariant consts
           (fun st v =>
              kills (trace v) = kills (trace w)
              /\ exists J,
                   matched_at st J
                   /\ List.length (popens (trace v))
                      = List.length (popens (trace w)) + List.length J)) in E
    as [H Hp]; [now split| |].
  - intros f st v st1 v1 (Hk & J & HM & Hn) _ Hturn.
    apply process_message_step in Hturn
      as (w2 & Hw2 & [(-> & Hw')|[(i & pid & _ & -> & ->)
                                  |(i & s & argv & Hi & Hfresh & -> & Htr)]]).
    + pose proof (undisturbed_quiet _ _ (undisturbed_trans _ _ _ Hw2 Hw'))
        as [Hq1 Hq2].
      split; [congruence|]. exists J. split; [exact HM | congruence].
    + destruct (undisturbed_quiet _ _ Hw2) as [Hq1 Hq2].
      split; [congruence|]. exists J. split; [|congruence].
      destruct st as [l h v0].
      apply (matched_at_alter l h v0); [reflexivity | auto | exact HM].
    + destruct (undisturbed_quiet _ _ Hw2) as [Hq1 Hq2].
      split; [rewrite Htr, kills_app; simpl; rewrite app_nil_r; congruence|].
      exists (i :: J). split.
      * destruct st as [l h v0]. now apply (matched_at_new l h v0).
      * rewrite Htr, popens_app, length_app, Hq1, Hn. simpl. lia.
  - split; [reflexivity|]. exists []. split; [|simpl; lia].
    split; [constructor|]. exists []. repeat split; constructor.
Qed.

(** X15.  When [process_messages] returns, every subject has been matched:
    each dict has a handle, exactly one supervisor was started per subject,
    and no process was killed.  It can only return for subjects whose
    [(event, mutator)] keys are pairwise distinct: with a key present twice
    the loop condition never becomes false, and the call ends with an
    exception or not at all. *)
Theorem process_messages_matches_all (consts : consts_module) (fuel : nat)
    (subjects subjects' : list subject) (w w' : world) :
  process_messages consts fuel subjects w = Done subjects' w' ->
  Forall (fun s => is_Some (s_handle s)) subjects'
  /\ NoDup (key <$> subjects)
  /\ List.length (popens (trace w'))
     = List.length (popens (trace w)) + List.length subjects
  /\ kills (trace w') = kills (trace w).
Proof.
  unfold process_messages. rewrite bind_unfold.
  destruct (process_messages_loop consts fuel (Matcher subjects ∅ None) w)
    as [st1 w1| |] eqn:E; try discriminate.
  intros [= <- <-].
  pose proof (process_messages_loop_grows _ _ _ _ _ _ E) as Hgrown.
  apply process_messages_loop_matches in E as (Hp & Hk & J & HM & Hn).
  destruct (matched_at_all _ _ HM Hp) as (Hall & Hnd & Hlen).
  assert (Hkeys : key <$> m_subjects st1 = key <$> subjects).
  { clear -Hgrown. induction Hgrown as [|a b l k [] _ IH]; [reflexivity|].
    rewrite !fmap_cons, IH. unfold key. congruence. }
  repeat split; try assumption.
  - now rewrite <- Hkeys.
  - rewrite Hn, Hlen. f_equal. symmetry. eapply Forall2_length. exact Hgrown.
Qed.

Lemma process_messages_matches_all_witness :
  Forall (fun s => is_Some (s_handle s)) [with_handle 0 s5]
  /\ NoDup (key <$> [s5])
  /\ List.length
       (popens
          (trace
             (set_spawned 1
                (emit (EPopen ["inject"; "--verbosity=40";
                               "4242_5_drop_write_state.json"] 0)
                   (after_first_message EmptyString w_bogus)))))
     = List.length (popens (trace w_bogus)) + List.length [s5]
  /\ kills
       (trace
          (set_spawned 1
             (emit (EPopen ["inject"; "--verbosity=40";
                            "4242_5_drop_write_state.json"] 0)
                (after_first_message EmptyString w_bogus))))
     = kills (trace w_bogus).
Proof.
  apply (process_messages_matches_all consts0 50 [s5] [with_handle 0 s5]
           w_bogus
           (set_spawned 1
              (emit (EPopen ["inject"; "--verbosity=40";
                             "4242_5_drop_write_state.json"] 0)
                 (set_files
                    (<["4242_5_drop_write_state.json" :=
                         Json.encode
                           (Json.Obj
                              (Json.dict_set "pid" (Json.Str "4242")
                                 (subject_items s5)))]> (files w_bogus))
                    (after_first_message EmptyString w_bogus))))).
  vm_compute. reflexivity.
Defined.

(** ** The per-process configuration *)

Lemma subject_items_with_pid (s : subject) (pid : string) :
  let tmp := Json.dict_set "pid" (Json.Str pid) (subject_items s) in
  json_wf (Json.Obj tmp)
  /\ Json.dict_get "pid" tmp = Some (Json.Str pid)
  /\ Json.dict_get "event" tmp = Some (Json.Str (event s))
  /\ Json.dict_get "rec_pid" tmp = Some (Json.Str (rec_pid s))
  /\ Json.dict_get "trace_file" tmp = Some (Json.Str (trace_file s))
  /\ Json.dict_get "trace_start" tmp = Some (Json.Str (trace_start s))
  /\ Json.dict_get "trace_end" tmp = Some (Json.Str (trace_end s))
  /\ Json.dict_get "mutator" tmp = Some (Json.Str (mutator s))
  /\ Json.dict_get "injected_state_file" tmp
     = Some (Json.Str (injected_state_file s))
  /\ Json.dict_get "mmap_backing_files" tmp
     = Json.Str <$> mmap_backing_files s
  /\ Json.dict_get "checker" tmp = Json.Str <$> checker s.
Proof.
  intros tmp. split.
  - apply json_wf_obj. split.
    + unfold tmp, subject_items.
      destruct (mmap_backing_files s), (checker s); cbn; compute_done.
    + assert (Ho : json_wf (Json.Arr (Json.Str <$> other_procs s))).
      { apply json_wf_arr.
        induction (other_procs s); constructor; [exact I | assumption]. }
      unfold tmp, subject_items.
      destruct (mmap_backing_files s), (checker s); cbn;
        repeat (constructor; try exact I; try exact Ho).
  - unfold tmp, subject_items.
    destruct (mmap_backing_files s), (checker s); cbn; repeat split.
Qed.

(** X13.  Take a turn of the matcher in which the message read is an INJECT
    notification, the reported process is confirmed alive, a subject of that
    event is still pending, its state file holds the text the emitter wrote
    for a subject [s0], and the supervisor can be started.  Then the turn
    ends normally: the subject chosen is the last pending one of the event;
    it gets the handle of a supervisor started as
    [inject --verbosity=40 <pid>_<state file>] and its key becomes handled;
    and the file of that name, the only file written, loads as a dict that
    has the live pid under [pid] and every entry the emitter wrote for
    [s0]. *)
Theorem inject_writes_process_configuration (consts : consts_module)
    (fuel : nat) (st : matcher) (w w1 w2 : world)
    (message ev pid : string) (i : nat) (s s0 : subject) :
  let path := pid +:+ "_" +:+ injected_state_file s in
  get_message fuel (RR_PIPE consts) w = Done message w1 ->
  parse_notification message = Some ("INJECT", ev, pid) ->
  wait_alive fuel pid w1 = Done tt w2 ->
  last (subjects_for_event (m_handled st) ev 0 (m_subjects st)) = Some (i, s) ->
  files w2 !! injected_state_file s = Some (subject_text s0) ->
  can_spawn w2 ["inject"; "--verbosity=40"; path] = true ->
  exists w3 text tmp,
    process_message consts fuel st w
    = Done (Matcher (<[i := with_handle (spawned w2) s]> (m_subjects st))
                    (m_handled st ∪ {[ key s ]}) (Some i)) w3
    /\ files w3 = <[path := text]> (files w2)
    /\ trace w3
       = trace w2 ++ [EPopen ["inject"; "--verbosity=40"; path] (spawned w2)]
    /\ Json.loads text = Some (Json.Obj tmp)
    /\ Json.dict_get "pid" tmp = Some (Json.Str pid)
    /\ Json.dict_get "event" tmp = Some (Json.Str (event s0))
    /\ Json.dict_get "rec_pid" tmp = Some (Json.Str (rec_pid s0))
    /\ Json.dict_get "trace_file" tmp = Some (Json.Str (trace_file s0))
    /\ Json.dict_get "trace_start" tmp = Some (Json.Str (trace_start s0))
    /\ Json.dict_get "trace_end" tmp = Some (Json.Str (trace_end s0))
    /\ Json.dict_get "mutator" tmp = Some (Json.Str (mutator s0))
    /\ Json.dict_get "injected_state_file" tmp
       = Some (Json.Str (injected_state_file s0))
    /\ Json.dict_get "mmap_backing_files" tmp
       = Json.Str <$> mmap_backing_files s0
    /\ Json.dict_get "checker" tmp = Json.Str <$> checker s0.
Proof.
  intros path Hm Hp Ha Hlast Hfile Hspawn.
  destruct (inject_subject_done st i s s0 pid w2 Hfile Hspawn)
    as (w3 & Hdone & Hfiles & Htrace & _).
  destruct (subject_items_with_pid s0 pid) as (Hwf & Hfields).
  exists w3, (Json.encode
                (Json.Obj (Json.dict_set "pid" (Json.Str pid) (subject_items s0)))),
         (Json.dict_set "pid" (Json.Str pid) (subject_items s0)).
  split.
  { rewrite (process_message_dispatch _ _ _ _ _ _ _ _ _ _ Hm Hp Ha).
    unfold dispatch. simpl String.eqb. rewrite Hlast. exact Hdone. }
  split; [exact Hfiles|]. split; [exact Htrace|].
  split; [now apply loads_encode | exact Hfields].
Qed.

Lemma inject_writes_process_configuration_witness :
  exists w3 text tmp,
    process_message consts0 50 (Matcher [s5; s7] ∅ None) w_extra
    = Done (Matcher (<[0 := with_handle
                              (spawned (after_first_message EmptyString w_extra))
                              s5]> [s5; s7])
                    (∅ ∪ {[ key s5 ]}) (Some 0)) w3
    /\ files w3
       = <["4250" +:+ "_" +:+ injected_state_file s5 := text]>
           (files (after_first_message EmptyString w_extra))
    /\ trace w3
       = trace (after_first_message EmptyString w_extra)
         ++ [EPopen ["inject"; "--verbosity=40";
                     "4250" +:+ "_" +:+ injected_state_file s5]
                    (spawned (after_first_message EmptyString w_extra))]
    /\ Json.loads text = Some (Json.Obj tmp)
    /\ Json.dict_get "pid" tmp = Some (Json.Str "4250")
    /\ Json.dict_get "event" tmp = Some (Json.Str (event s5))
    /\ Json.dict_get "rec_pid" tmp = Some (Json.Str (rec_pid s5))
    /\ Json.dict_get "trace_file" tmp = Some (Json.Str (trace_file s5))
    /\ Json.dict_get "trace_start" tmp = Some (Json.Str (trace_start s5))
    /\ Json.dict_get "trace_end" tmp = Some (Json.Str (trace_end s5))
    /\ Json.dict_get "mutator" tmp = Some (Json.Str (mutator s5))
    /\ Json.dict_get "injected_state_file" tmp
       = Some (Json.Str (injected_state_file s5))
    /\ Json.dict_get "mmap_backing_files" tmp
       = Json.Str <$> mmap_backing_files s5
    /\ Json.dict_get "checker" tmp = Json.Str <$> checker s5.
Proof.
  apply (inject_writes_process_configuration consts0 50
           (Matcher [s5; s7] ∅ None) w_extra
           (after_first_message EmptyString w_extra)
           (after_first_message EmptyString w_extra)
           (line "INJECT" "5" "4250" "100") "5" "4250" 0 s5 s5);
    vm_compute; reflexivity.
Defined.

(** ** What the registry accepts, and what it returns *)

Lemma find_section_elem (cfg : config) (i : string) (sec : ini_section) :
  find_section cfg i = Some sec -> sec ∈ cfg /\ sec_name sec = i.
Proof.
  induction cfg as [|x cfg IH]; simpl; [discriminate|].
  destruct (String.eqb (sec_name x) i) eqn:E.
  - intros [= ->]. apply String.eqb_eq in E. split; [left | exact E].
  - intros H. destruct (IH H). split; [now right | assumption].
Qed.

Lemma find_section_unique (cfg : config) (sec : ini_section) :
  NoDup (sec_name <$> cfg) -> sec ∈ cfg ->
  find_section cfg (sec_name sec) = Some sec.
Proof.
  induction cfg as [|x cfg IH]; intros Hnd Hin; [now apply elem_of_nil in Hin|].
  rewrite fmap_cons in Hnd. apply NoDup_cons in Hnd as [Hx Hnd]. simpl.
  destruct (String.eqb (sec_name x) (sec_name sec)) eqn:E.
  - apply String.eqb_eq in E. apply elem_of_cons in Hin as [->|Hin]; [reflexivity|].
    exfalso. apply Hx. rewrite E. now apply list_elem_of_fmap_2.
  - apply elem_of_cons in Hin as [->|Hin]; [|now apply IH].
    now rewrite String.eqb_refl in E.
Qed.

Lemma parse_section_cases (cfg : config) (i : string) (w : world) :
  match parse_section cfg i w with
  | Done s w' =>
      w' = w /\ exists sec, find_section cfg i = Some sec /\ read_from sec s
  | Raise e tr =>
      tr = trace w
      /\ match find_section cfg i with
         | None => e = NoSectionError
         | Some sec => e = NoOptionError /\ incomplete sec
         end
  | OutOfFuel => False
  end.
Proof.
  unfold parse_section, cfg_get_optional, cfg_get, incomplete, required_keys.
  destruct (find_section cfg i) as [sec|]; [|now split].
  repeat (rewrite bind_unfold;
          match goal with
          | |- context [lift_get (match sec_options sec !! ?k with _ => _ end)] =>
              destruct (sec_options sec !! k) eqn:?;
              [simpl lift_get; unfold ret at 1
              |simpl; unfold raise; split; [reflexivity|];
               split; [reflexivity|];
               repeat (first [now apply Exists_cons_hd | apply Exists_cons_tl])]
          end).
  rewrite bind_unfold.
  destruct (sec_options sec !! "mmap_backing_files") eqn:?;
    unfold ret at 1; rewrite bind_unfold;
    destruct (sec_options sec !! "checker") eqn:?;
    unfold ret; (split; [reflexivity|]); exists sec;
    (split; [reflexivity|]); now split.
Qed.

Lemma parse_section_done (cfg : config) (i : string) (sec : ini_section)
    (s : subject) (w : world) :
  find_section cfg i = Some sec -> read_from sec s ->
  parse_section cfg i w = Done s w.
Proof.
  intros Hf []. destruct s. simpl in *.
  unfold parse_section, cfg_get_optional, cfg_get. rewrite Hf.
  subst.
  rewrite rf_event0, rf_pid0, rf_trace_file0, rf_trace_start0, rf_trace_end0,
    rf_mutator0.
  destruct (sec_options sec !! "mmap_backing_files"),
    (sec_options sec !! "checker"); reflexivity.
Qed.

Lemma parse_sections_cases (cfg : config) (sections : list string) (w : world) :
  match parse_sections cfg sections w with
  | Done l w' =>
      w' = w
      /\ Forall2 (fun i s => exists sec,
                      find_section cfg i = Some sec /\ read_from sec s)
                 sections l
  | Raise e tr =>
      tr = trace w
      /\ Exists (fun i => match find_section cfg i with
                          | None => e = NoSectionError
                          | Some sec => e = NoOptionError /\ incomplete sec
                          end) sections
  | OutOfFuel => False
  end.
Proof.
  induction sections as [|i r IH]; simpl.
  - unfold ret. split; [reflexivity | constructor].
  - rewrite bind_unfold. pose proof (parse_section_cases cfg i w) as Hs.
    destruct (parse_section cfg i w) as [s w1|e tr|]; [| |exact Hs].
    + destruct Hs as (-> & Hs). rewrite bind_unfold.
      destruct (parse_sections cfg r w) as [l w2|e tr|]; [| |exact IH].
      * destruct IH as (-> & Hl). unfold ret. split; [reflexivity|].
        now constructor.
      * destruct IH as (-> & Hl). split; [reflexivity|].
        now apply Exists_cons_tl.
    + destruct Hs as (-> & Hs). split; [reflexivity|].
      now apply Exists_cons_hd.
Qed.

Lemma event_keys_total (subjects : list subject) :
  Forall (fun s => is_Some (Py.int (event s))) subjects ->
  is_Some (event_keys subjects).
Proof.
  induction 1 as [|s r [k Hk] _ [ks IH]]; simpl; [eauto|].
  rewrite Hk, IH. simpl. eauto.
Qed.

Lemma event_keys_none (subjects : list subject) :
  event_keys subjects = None ->
  Exists (fun s => Py.int (event s) = None) subjects.
Proof.
  induction subjects as [|s r IH]; simpl; [discriminate|].
  destruct (Py.int (event s)) as [k|] eqn:Hk; [|intros _; now left].
  simpl. destruct (event_keys r); [discriminate|].
  intros _. right. now apply IH.
Qed.

(** The registry, stage by stage. *)
Lemma get_configuration_unfold (ini_path : string) (w : world) :
  get_configuration ini_path w =
  match ini_files w !! ini_path with
  | None => Raise IOError (trace w)
  | Some [] => Raise IndexError (trace w)
  | Some ((sec0 :: secs) as cfg) =>
      match sec_options sec0 !! "rr_dir" with
      | None => Raise NoOptionError (trace w)
      | Some rr_dir =>
          match secs with
          | [] => Raise NoSectionError (trace w)
          | _ :: _ =>
              match parse_sections cfg (sec_name <$> secs) w with
              | Done parsed _ =>
                  match event_keys parsed with
                  | None => Raise ValueError (trace w)
                  | Some ks =>
                      match last parsed with
                      | Some s_last =>
                          Done (rr_dir, snd <$> sort_by_key ks)
                               (set_files
                                  (delete (rec_pid s_last +:+ "_brks.json")
                                          (files w)) w)
                      | None => Done (rr_dir, snd <$> sort_by_key ks) w
                      end
                  end
              | Raise e tr => Raise e tr
              | OutOfFuel => OutOfFuel
              end
          end
      end
  end.
Proof.
  unfold get_configuration. rewrite bind_unfold.
  destruct (ini_files w !! ini_path) as [cfg|]; [|reflexivity].
  simpl or_raise. unfold ret at 1. rewrite bind_unfold.
  destruct cfg as [|sec0 secs]; [reflexivity|].
  simpl head. simpl or_raise. unfold ret at 1. rewrite bind_unfold.
  unfold cfg_get. simpl find_section. rewrite String.eqb_refl.
  destruct (sec_options sec0 !! "rr_dir") as [rr_dir|]; [|reflexivity].
  simpl lift_get. unfold ret at 1.
  destruct secs as [|sec1 secs]; [reflexivity|].
  change (tail (cfg_sections (sec0 :: sec1 :: secs)))
    with (sec_name <$> sec1 :: secs).
  change (List.length (sec_name <$> sec1 :: secs) =? 0)%nat with false.
  cbv iota. rewrite bind_unfold.
  pose proof (parse_sections_cases (sec0 :: sec1 :: secs)
                (sec_name <$> sec1 :: secs) w) as Hp.
  destruct (parse_sections (sec0 :: sec1 :: secs) (sec_name <$> sec1 :: secs) w)
    as [parsed w1| |]; [|reflexivity|reflexivity].
  destruct Hp as (-> & Hp). rewrite bind_unfold. unfold sort_by_event.
  destruct (event_keys parsed) as [ks|] eqn:Hks; [|reflexivity].
  unfold ret at 1. rewrite bind_unfold.
  apply Forall2_length in Hp. rewrite fmap_cons in Hp. simpl in Hp.
  destruct (last parsed) as [s_last|] eqn:Hlast.
  - rewrite remove_same_file; [reflexivity|].
    intros Hnil. apply fmap_nil_inv in Hnil.
    pose proof (sort_by_key_perm ks) as Hperm. rewrite Hnil in Hperm.
    apply Permutation.Permutation_nil in Hperm. subst ks.
    destruct (event_keys_spec _ _ Hks) as [Hsnd _]. subst parsed. discriminate.
  - apply last_None in Hlast. subst parsed. discriminate.
Qed.

Lemma find_section_some (cfg : config) (sec : ini_section) :
  sec ∈ cfg -> is_Some (find_section cfg (sec_name sec)).
Proof.
  induction cfg as [|x cfg IH]; intros Hin; [now apply elem_of_nil in Hin|].
  simpl. destruct (String.eqb (sec_name x) (sec_name sec)) eqn:E; [eauto|].
  apply elem_of_cons in Hin as [->|Hin]; [|now apply IH].
  now rewrite String.eqb_refl in E.
Qed.

Lemma read_from_usable (sec : ini_section) (s : subject) :
  read_from sec s -> is_Some (Py.int (event s)) -> usable sec.
Proof.
  intros [] Hint. split; [|eauto].
  unfold required_keys. repeat constructor; eauto.
Qed.

Lemma usable_read_from (sec : ini_section) :
  usable sec ->
  exists s, read_from sec s /\ is_Some (Py.int (event s)).
Proof.
  intros [Hall (ev & Hev & Hint)]. unfold required_keys in Hall.
  repeat match goal with
         | H : Forall _ (_ :: _) |- _ => apply Forall_cons in H as [[? ?] H]
         end.
  eexists (Subject _ _ _ _ _ _ _ [] _ _ None).
  split; [split; simpl; try eassumption; reflexivity|].
  simpl. congruence.
Qed.

(** X4.  The registry accepts every configuration whose sections have
    distinct names, whose first section gives [rr_dir], and which has at
    least one further section, each with the six required options and a
    numeric event.  It then returns [rr_dir] and one subject per further
    section, read from that section, in some order, and records no
    effect. *)
Theorem registry_accepts (ini_path : string) (w : world)
    (sec0 : ini_section) (secs : list ini_section) (rr_dir : string) :
  ini_files w !! ini_path = Some (sec0 :: secs) ->
  NoDup (sec_name <$> sec0 :: secs) ->
  sec_options sec0 !! "rr_dir" = Some rr_dir ->
  secs <> [] ->
  Forall usable secs ->
  exists parsed subjects w',
    get_configuration ini_path w = Done (rr_dir, subjects) w'
    /\ Forall2 read_from secs parsed
    /\ Permutation subjects parsed
    /\ trace w' = trace w.
Proof.
  intros Hini Hnd Hrr Hne Hall.
  set (cfg := sec0 :: secs) in *.
  assert (Hparse : forall l,
             Forall usable l -> (forall sec, sec ∈ l -> sec ∈ cfg) ->
             exists parsed,
               parse_sections cfg (sec_name <$> l) w = Done parsed w
               /\ Forall2 read_from l parsed
               /\ Forall (fun s => is_Some (Py.int (event s))) parsed).
  { induction l as [|sec l IH]; intros Hl Hin.
    - exists []. repeat split; constructor.
    - apply Forall_cons in Hl as [Hsec Hl].
      destruct (usable_read_from _ Hsec) as (s & Hs & Hint).
      destruct IH as (parsed & Hp & HF & Hints); [exact Hl| |].
      { intros x Hx. apply Hin. now right. }
      exists (s :: parsed). rewrite fmap_cons. simpl parse_sections.
      rewrite bind_unfold.
      rewrite (parse_section_done cfg _ sec s w); [|
        apply find_section_unique; [exact Hnd | apply Hin; left] | exact Hs].
      rewrite bind_unfold, Hp. unfold ret. repeat split; now constructor. }
  destruct (Hparse secs Hall) as (parsed & Hp & HF & Hints).
  { intros sec Hsec. now right. }
  destruct (event_keys_total _ Hints) as [ks Hks].
  destruct (event_keys_spec _ _ Hks) as [Hsnd _].
  assert (Hperm : Permutation (snd <$> sort_by_key ks) parsed).
  { rewrite <- Hsnd. apply fmap_Permutation, sort_by_key_perm. }
  rewrite get_configuration_unfold, Hini. subst cfg. cbv beta iota.
  rewrite Hrr.
  destruct secs as [|sec1 secs]; [contradiction|].
  rewrite Hp, Hks.
  destruct (last parsed); eexists parsed, _, _; repeat split; eassumption.
Qed.

Lemma registry_accepts_witness :
  exists parsed subjects w',
    get_configuration "config.ini" w_two = Done ("/traces", subjects) w'
    /\ Forall2 read_from
         [subject_section "a" "5" "100" "drop_write";
          subject_section "b" "7" "200" "drop_write"] parsed
    /\ Permutation subjects parsed
    /\ trace w' = trace w_two.
Proof.
  apply (registry_accepts "config.ini" w_two rr_section
           [subject_section "a" "5" "100" "drop_write";
            subject_section "b" "7" "200" "drop_write"] "/traces").
  - reflexivity.
  - compute_done.
  - reflexivity.
  - discriminate.
  - repeat constructor; try (eexists; vm_compute; reflexivity).
    all: eexists; split; vm_compute; eauto.
Defined.

(** X5.  Every subject the registry returns was read from a usable section
    of the file: it has the values of the six required options, the
    state-file name [<event>_<mutator>_state.json], an empty sibling list,
    the backing files and the checker exactly when the section gives them,
    and no handle.  There is one subject per section after the first, and
    the first section gives the trace directory. *)
Theorem registry_reads_sections (ini_path : string) (w w' : world)
    (rr_dir : string) (subjects : list subject) :
  get_configuration ini_path w = Done (rr_dir, subjects) w' ->
  exists sec0 secs parsed,
    ini_files w !! ini_path = Some (sec0 :: secs)
    /\ sec_options sec0 !! "rr_dir" = Some rr_dir
    /\ Forall2 (fun sec s =>
                  exists sec',
                    find_section (sec0 :: secs) (sec_name sec) = Some sec'
                    /\ read_from sec' s /\ usable sec')
               secs parsed
    /\ Permutation subjects parsed
    /\ trace w' = trace w.
Proof.
  rewrite get_configuration_unfold.
  destruct (ini_files w !! ini_path) as [[|sec0 secs]|]; try discriminate.
  destruct (sec_options sec0 !! "rr_dir") as [rr|] eqn:Hrr; [|discriminate].
  destruct secs as [|sec1 secs]; [discriminate|].
  set (cfg := sec0 :: sec1 :: secs).
  pose proof (parse_sections_cases cfg (sec_name <$> sec1 :: secs) w) as Hp.
  destruct (parse_sections cfg (sec_name <$> sec1 :: secs) w)
    as [parsed w1| |]; try discriminate.
  destruct Hp as (-> & Hp).
  destruct (event_keys parsed) as [ks|] eqn:Hks; [|discriminate].
  destruct (event_keys_spec _ _ Hks) as [Hsnd Hint].
  assert (Hperm : Permutation (snd <$> sort_by_key ks) parsed).
  { rewrite <- Hsnd. apply fmap_Permutation, sort_by_key_perm. }
  assert (Hints : Forall (fun s => is_Some (Py.int (event s))) parsed).
  { rewrite <- Hsnd, Forall_fmap. eapply Forall_impl; [exact Hint|].
    intros p Hpk. simpl in *. rewrite Hpk. eauto. }
  assert (HF : Forall2 (fun sec s =>
                          exists sec',
                            find_section cfg (sec_name sec) = Some sec'
                            /\ read_from sec' s /\ usable sec')
                       (sec1 :: secs) parsed).
  { apply Forall2_fmap_l in Hp. apply Forall2_same_length_lookup.
    split; [eapply Forall2_length; exact Hp|].
    intros n sec s Hsec Hs.
    destruct (Forall2_lookup_l _ _ _ _ _ Hp Hsec) as (s' & Hs' & sec' & Hf & Hr).
    rewrite Hs in Hs'. injection Hs' as <-. exists sec'.
    split; [exact Hf|]. split; [exact Hr|].
    eapply read_from_usable; [exact Hr|].
    rewrite Forall_lookup in Hints. eapply Hints. exact Hs. }
  destruct (last parsed); intros [= <- <- <-];
    exists sec0, (sec1 :: secs), parsed; repeat split;
    first [assumption | reflexivity].
Qed.

Lemma registry_reads_sections_witness :
  exists sec0 secs parsed,
    ini_files w_two !! "config.ini" = Some (sec0 :: secs)
    /\ sec_options sec0 !! "rr_dir" = Some "/traces"
    /\ Forall2 (fun sec s =>
                  exists sec',
                    find_section (sec0 :: secs) (sec_name sec) = Some sec'
                    /\ read_from sec' s /\ usable sec')
               secs parsed
    /\ Permutation [s5; s7] parsed
    /\ trace (set_files (delete "200_brks.json" (files w_two)) w_two)
       = trace w_two.
Proof.
  apply (registry_reads_sections "config.ini" w_two
           (set_files (delete "200_brks.json" (files w_two)) w_two)
           "/traces" [s5; s7]).
  vm_compute. reflexivity.
Defined.

(** ** From the registry to the emitter *)

Lemma contains_lstrip (c : ascii) (s : string) :
  Py.is_space c = false -> contains c (Py.lstrip s) = contains c s.
Proof.
  intros Hc. induction s as [|a s IH]; [reflexivity|]. simpl.
  destruct (Py.is_space a) eqn:Ha; [|reflexivity].
  rewrite IH. destruct (Ascii.eqb_spec a c) as [->|_]; [congruence|reflexivity].
Qed.

Lemma contains_str_rev_app (c : ascii) (s acc : string) :
  contains c (Py.str_rev_app s acc) = contains c s || contains c acc.
Proof.
  revert acc. induction s as [|a s IH]; intros acc; [reflexivity|].
  simpl. rewrite IH. simpl.
  destruct (Ascii.eqb a c), (contains c s), (contains c acc); reflexivity.
Qed.

Lemma contains_strip (c : ascii) (s : string) :
  Py.is_space c = false -> contains c (Py.strip s) = contains c s.
Proof.
  intros Hc. unfold Py.strip, Py.rstrip, Py.str_rev.
  rewrite contains_lstrip, contains_str_rev_app, contains_lstrip,
    contains_str_rev_app by assumption.
  simpl. now rewrite !orb_false_r.
Qed.

Lemma digits_value_solid (c : ascii) (s : string) :
  Py.is_digit c = false ->
  forall acc z, Py.digits_value acc s = Some z -> contains c s = false.
Proof.
  intros Hc. induction s as [|a s IH]; intros acc z H; [reflexivity|].
  simpl in H. destruct (Py.is_digit a) eqn:Ha; [|discriminate].
  simpl. rewrite (IH _ _ H).
  destruct (Ascii.eqb_spec a c) as [->|_]; [congruence|reflexivity].
Qed.

Lemma unsigned_int_solid (c : ascii) (s : string) (z : Z) :
  Py.is_digit c = false ->
  Py.unsigned_int s = Some z -> contains c s = false.
Proof.
  intros Hc H. destruct s as [|a s]; [reflexivity|].
  eapply digits_value_solid; [exact Hc | exact H].
Qed.

(** A string that [int] accepts has no underscore. *)
Lemma int_no_underscore (s : string) (z : Z) :
  Py.int s = Some z -> contains "_" s = false.
Proof.
  intros H. rewrite <- (contains_strip "_" s) by reflexivity.
  unfold Py.int in H. destruct (Py.strip s) as [|a r]; [reflexivity|].
  destruct a as [[] [] [] [] [] [] [] []]; cbv beta iota in H;
    first [ exact (unsigned_int_solid "_" _ z eq_refl H)
          | destruct (Py.unsigned_int r) as [n|] eqn:Hn; [|discriminate];
            exact (unsigned_int_solid "_" r n eq_refl Hn)
          | exact (unsigned_int_solid "_" r z eq_refl H) ].
Qed.

Lemma append_inj_r (a b c : string) : a +:+ c = b +:+ c -> a = b.
Proof.
  revert b. induction a as [|x a IH]; intros [|y b] H; [reflexivity| | |].
  - apply (f_equal String.length) in H. simpl in H.
    rewrite length_append' in H. lia.
  - apply (f_equal String.length) in H. simpl in H.
    rewrite length_append' in H. lia.
  - rewrite !append_cons in H. injection H as -> H. f_equal. now apply IH.
Qed.

Lemma append_sep_inj (c : ascii) (a b x y : string) :
  contains c a = false -> contains c b = false ->
  a +:+ String c x = b +:+ String c y -> a = b /\ x = y.
Proof.
  revert b. induction a as [|p a IH]; intros [|q b] Ha Hb H.
  - simpl in H. injection H as ->. now split.
  - simpl in H, Hb. injection H as <- _. now rewrite Ascii.eqb_refl in Hb.
  - simpl in H, Ha. injection H as -> _. now rewrite Ascii.eqb_refl in Ha.
  - rewrite !append_cons in H. injection H as -> H. simpl in Ha, Hb.
    apply orb_false_iff in Ha as [_ Ha]. apply orb_false_iff in Hb as [_ Hb].
    destruct (IH _ Ha Hb H) as [-> ->]. now split.
Qed.

(** The state-file name built by the registry determines the event and the
    mutator. *)
Lemma state_file_name_inj (ev1 mu1 ev2 mu2 : string) :
  is_Some (Py.int ev1) -> is_Some (Py.int ev2) ->
  ev1 +:+ "_" +:+ mu1 +:+ "_state.json" = ev2 +:+ "_" +:+ mu2 +:+ "_state.json" ->
  ev1 = ev2 /\ mu1 = mu2.
Proof.
  intros [z1 H1] [z2 H2] H.
  change ("_" +:+ mu1 +:+ "_state.json")
    with (String "_" (mu1 +:+ "_state.json")) in H.
  change ("_" +:+ mu2 +:+ "_state.json")
    with (String "_" (mu2 +:+ "_state.json")) in H.
  apply append_sep_inj in H as [-> H];
    [|eapply int_no_underscore; eassumption..].
  split; [reflexivity|]. eapply append_inj_r. exact H.
Qed.

Lemma NoDup_fmap_transfer {A B C : Type} (f : A -> B) (g : A -> C)
    (l : list A) :
  (forall x y, x ∈ l -> y ∈ l -> g x = g y -> f x = f y) ->
  NoDup (f <$> l) -> NoDup (g <$> l).
Proof.
  induction l as [|a l IH]; intros Hfg Hnd; [constructor|].
  rewrite fmap_cons in *. apply NoDup_cons in Hnd as [Ha Hnd].
  apply NoDup_cons. split.
  - intros Hin. apply list_elem_of_fmap_1 in Hin as (y & Hy & Hyl).
    apply Ha. rewrite (Hfg a y); [now apply list_elem_of_fmap_2| left
                                  | now right | exact Hy].
  - apply IH; [|exact Hnd]. intros x y Hx Hy. apply Hfg; now right.
Qed.

(** ** The order of subjects of one event *)

Lemma insert_by_key_stable (z : Z) (x : Z * subject) (l : list (Z * subject)) :
  filter (fun p => p.1 = z) (insert_by_key x l)
  = filter (fun p => p.1 = z) (x :: l).
Proof.
  induction l as [|y l IH]; [reflexivity|]. simpl.
  destruct (Z.leb_spec x.1 y.1) as [Hle|Hgt]; [reflexivity|].
  rewrite filter_cons, IH, !filter_cons.
  destruct (decide (y.1 = z)), (decide (x.1 = z)); try reflexivity. lia.
Qed.

Lemma sort_by_key_stable (z : Z) (l : list (Z * subject)) :
  filter (fun p => p.1 = z) (sort_by_key l) = filter (fun p => p.1 = z) l.
Proof.
  induction l as [|x l IH]; [reflexivity|]. simpl.
  rewrite insert_by_key_stable, !filter_cons, IH. reflexivity.
Qed.

Lemma filter_by_event_id (z : Z) (ks : list (Z * subject)) :
  Forall (fun p => Py.int (event p.2) = Some p.1) ks ->
  filter (fun s => event_id s = z) (snd <$> ks)
  = snd <$> filter (fun p => p.1 = z) ks.
Proof.
  induction 1 as [|p ks Hp _ IH]; [reflexivity|].
  rewrite fmap_cons, !filter_cons, IH.
  assert (Hid : event_id p.2 = p.1) by (unfold event_id; now rewrite Hp).
  destruct (decide (event_id p.2 = z)), (decide (p.1 = z));
    try reflexivity; congruence.
Qed.

(** X6.  The sort of the registry is stable: the subjects of any one
    numeric event id appear, among the subjects returned, in the order of
    their sections.  (The matcher takes the last pending subject of an
    event first.) *)
Theorem registry_sort_is_stable (ini_path : string) (w w' : world)
    (rr_dir : string) (subjects : list subject) (z : Z) :
  get_configuration ini_path w = Done (rr_dir, subjects) w' ->
  exists cfg parsed,
    ini_files w !! ini_path = Some cfg
    /\ parse_sections cfg (tail (cfg_sections cfg)) w = Done parsed w
    /\ filter (fun s => event_id s = z) subjects
       = filter (fun s => event_id s = z) parsed.
Proof.
  intros H.
  apply get_configuration_done in H
    as (cfg & parsed & ks & s_last & Hcfg & Hparsed & _ & Hks & -> & _).
  destruct (event_keys_spec _ _ Hks) as [Hsnd Hint].
  exists cfg, parsed. split; [exact Hcfg|]. split; [exact Hparsed|].
  rewrite <- Hsnd. rewrite !filter_by_event_id.
  - now rewrite sort_by_key_stable.
  - exact Hint.
  - now rewrite sort_by_key_perm.
Qed.

Lemma registry_sort_is_stable_witness :
  exists cfg parsed,
    ini_files w_dup !! "config.ini" = Some cfg
    /\ parse_sections cfg (tail (cfg_sections cfg)) w_dup = Done parsed w_dup
    /\ filter (fun s => event_id s = 5%Z)
              [plain_subject "5" "100" "drop_write";
               plain_subject "5" "101" "drop_write"]
       = filter (fun s => event_id s = 5%Z) parsed.
Proof.
  apply (registry_sort_is_stable "config.ini" w_dup
           (set_files (delete "101_brks.json" (files w_dup)) w_dup)
           "/traces"
           [plain_subject "5" "100" "drop_write";
            plain_subject "5" "101" "drop_write"] 5%Z).
  vm_compute. reflexivity.
Defined.

(** ** The whole run *)

Lemma cleanup_removes (consts : consts_module) (w w1 : world) :
  cleanup consts w = Done tt w1 ->
  files w1 !! PROC_FILE consts = None
  /\ files w1 !! RR_PIPE consts = None
  /\ trace w1 = trace w
  /\ spawned w1 = spawned w
  /\ forall p, files w !! p = None -> files w1 !! p = None.
Proof.
  rewrite cleanup_result. intros [= <-]. cbv zeta.
  repeat case_bool_decide; simpl;
    repeat match goal with
           | H : ¬ is_Some _ |- _ => apply eq_None_not_Some in H
           end;
    simpl in *; repeat split; try assumption;
    try (intros p Hp); rewrite ?lookup_delete_None; auto.
  all: try (right; apply lookup_delete_None; auto).
Qed.

(** X19.  For a test whose directory does not exist, [call_replay] removes
    the capture file and the FIFO if they are there, prints that the test
    does not exist, and exits with status 1: the configuration is not read,
    no file is written and no process is started. *)
Theorem call_replay_missing_test (consts : consts_module)
    (DEFAULT_CONFIG_PATH : string) (fuel : nat) (test_name : string)
    (verbosity : option Z) (w : world) :
  files w !! (DEFAULT_CONFIG_PATH +:+ test_name) = None ->
  exists w1 w',
    cleanup consts w = Done tt w1
    /\ call_replay consts DEFAULT_CONFIG_PATH fuel test_name verbosity w
       = Exited 1 w'
    /\ files w' = files w1
    /\ spawned w' = spawned w
    /\ trace w'
       = trace w
         ++ [EPrint ("Test " +:+ test_name +:+
                     " does not exist. Create before attempting to configure!")].
Proof.
  intros Hdir. unfold call_replay.
  destruct (cleanup consts w) as [[] w1| |] eqn:Hc;
    [|now rewrite cleanup_result in Hc..].
  destruct (cleanup_removes _ _ _ Hc) as (_ & _ & Htr & Hsp & Hkeep).
  exists w1. eexists. split; [reflexivity|].
  rewrite bool_decide_eq_false_2.
  - split; [reflexivity|]. simpl. rewrite Htr. now repeat split.
  - rewrite (Hkeep _ Hdir). now intros [x Hx].
Qed.

Lemma call_replay_missing_test_witness :
  exists w1 w',
    cleanup consts0 w_two = Done tt w1
    /\ call_replay consts0 "tests/" 10 "absent" None w_two = Exited 1 w'
    /\ files w' = files w1
    /\ spawned w' = spawned w_two
    /\ trace w'
       = trace w_two
         ++ [EPrint ("Test " +:+ "absent" +:+
                     " does not exist. Create before attempting to configure!")].
Proof.
  apply (call_replay_missing_test consts0 "tests/" 10 "absent" None w_two).
  reflexivity.
Defined.

Lemma emitter_keeps_trace (subjects : list subject) :
  forall w w',
    create_event_configuration_files subjects w = Done tt w' ->
    trace w' = trace w /\ spawned w' = spawned w.
Proof.
  unfold create_event_configuration_files.
  induction subjects as [|s subjects IH]; intros w w'.
  - intros [= <-]. now split.
  - rewrite for_each_cons, bind_unfold.
    destruct (subject_json s) as [d|]; [|discriminate].
    simpl or_raise. unfold ret at 1, write_file.
    intros H. apply IH in H as [-> ->]. now split.
Qed.

Lemma wait_on_handle_done (s : subject) (w w' : world) :
  wait_on_handle s w = Done tt w' ->
  other_procs s = []
  /\ popens (trace w') = popens (trace w)
  /\ kills (trace w') = kills (trace w)
  /\ files w' = files w.
Proof.
  unfold wait_on_handle. rewrite bind_unfold.
  destruct (other_procs s) as [|i r] eqn:Ho.
  - destruct (s_handle s) as [h|].
    + unfold popen_wait. rewrite bind_unfold. simpl for_each. unfold ret at 1.
      destruct (exit_status w h =? 0)%Z; unfold ret, do_emit;
        intros [= <-]; simpl; rewrite ?popens_app, ?kills_app; simpl;
        now rewrite ?app_nil_r.
    + rewrite !bind_unfold. unfold do_emit, ret. simpl.
      intros [= <-]. simpl. rewrite ?popens_app, ?kills_app. simpl.
      now rewrite ?app_nil_r.
  - destruct (s_handle s) as [h|].
    + unfold popen_wait. rewrite bind_unfold, for_each_cons, bind_unfold.
      unfold list_getitem, raise. discriminate.
    + rewrite bind_unfold. unfold do_emit, ret.
      rewrite bind_unfold, for_each_cons, bind_unfold.
      unfold list_getitem, raise. discriminate.
Qed.

Lemma wait_on_handles_done (subjects : list subject) :
  forall w w',
    wait_on_handles subjects w = Done tt w' ->
    Forall (fun s => other_procs s = []) subjects
    /\ popens (trace w') = popens (trace w)
    /\ kills (trace w') = kills (trace w)
    /\ files w' = files w.
Proof.
  unfold wait_on_handles.
  induction subjects as [|s subjects IH]; intros w w'.
  - intros [= <-]. repeat split. constructor.
  - rewrite for_each_cons.
    destruct (wait_on_handle s w) as [[] w1| |] eqn:Hs; try discriminate.
    intros H. apply IH in H as (Hall & Hp & Hk & Hf).
    apply wait_on_handle_done in Hs as (Ho & Hp1 & Hk1 & Hf1).
    repeat split; [now constructor | congruence..].
Qed.

(** X20.  A run of [call_replay] that ends normally.  The registry returned
    subjects with pairwise distinct keys; every one of them was matched and
    got a handle; none had a sibling recorded (a recorded sibling stops the
    waiter with an exception); exactly one rr and one supervisor per subject
    were started; no process was killed; and at the end neither the capture
    file nor the FIFO exists. *)
Theorem call_replay_normal_end (consts : consts_module)
    (DEFAULT_CONFIG_PATH : string) (fuel : nat) (test_name : string)
    (verbosity : option Z) (w w' : world) :
  call_replay consts DEFAULT_CONFIG_PATH fuel test_name verbosity w
  = Ran (Done tt w') ->
  exists w1 w2 rr_dir subjects subjects',
    cleanup consts w = Done tt w1
    /\ get_configuration
         ((DEFAULT_CONFIG_PATH +:+ test_name) +:+ "/" +:+ "config.ini") w1
       = Done (rr_dir, subjects) w2
    /\ NoDup (key <$> subjects)
    /\ Forall2 grown subjects subjects'
    /\ Forall (fun s => is_Some (s_handle s) /\ other_procs s = []) subjects'
    /\ List.length (popens (trace w'))
       = List.length (popens (trace w)) + 1 + List.length subjects
    /\ kills (trace w') = kills (trace w)
    /\ files w' !! PROC_FILE consts = None
    /\ files w' !! RR_PIPE consts = None.
Proof.
  unfold call_replay.
  destruct (cleanup consts w) as [[] w1| |] eqn:Hc; try discriminate.
  destruct (cleanup_removes _ _ _ Hc) as (_ & _ & Htr1 & _ & _).
  case_bool_decide as Hdir; [|discriminate].
  intros [= H]. rewrite bind_unfold in H.
  destruct (get_configuration _ w1) as [[rr_dir subjects] w2| |] eqn:Hreg;
    try discriminate.
  pose proof Hreg as Hreg'.
  apply get_configuration_done in Hreg'
    as (cfg & parsed & ks & s_last & _ & _ & _ & _ & _ & Hw2).
  rewrite bind_unfold in H.
  destruct (create_event_configuration_files subjects w2) as [[] w3| |] eqn:Hem;
    try discriminate.
  apply emitter_keeps_trace in Hem as [Htr3 _].
  rewrite bind_unfold in H. unfold execute_rr at 1 in H.
  rewrite bind_unfold in H. unfold write_file at 1 in H.
  rewrite bind_unfold in H. unfold popen at 1 in H.
  destruct (can_spawn _ _); [|discriminate].
  unfold ret at 1 in H. rewrite bind_unfold in H.
  match type of H with
  | context [process_messages consts fuel subjects ?v] => set (w4 := v) in H
  end.
  unfold process_messages in H. rewrite bind_unfold in H.
  destruct (process_messages_loop consts fuel (Matcher subjects ∅ None) w4)
    as [st w5| |] eqn:Hloop; try discriminate.
  unfold ret at 1 in H. rewrite bind_unfold in H.
  destruct (wait_on_handles (m_subjects st) w5) as [[] w6| |] eqn:Hwait;
    try discriminate.
  apply cleanup_removes in H as (Hproc & Hpipe & Htr7 & _ & _).
  apply wait_on_handles_done in Hwait as (Hnone & Hp6 & Hk6 & _).
  pose proof (process_messages_loop_grows _ _ _ _ _ _ Hloop) as Hgrown.
  apply process_messages_loop_matches in Hloop as (Hpend & Hk5 & J & HM & Hn).
  destruct (matched_at_all _ _ HM Hpend) as (Hall & Hnd & Hlen).
  assert (Hkeys : key <$> m_subjects st = key <$> subjects).
  { clear -Hgrown. induction Hgrown as [|a b l k [] _ IH]; [reflexivity|].
    rewrite !fmap_cons, IH. unfold key. congruence. }
  assert (Htr4 : trace w4 = trace w ++ [EPopen
             ["rr"; "replay"; "-a"; "-n"; events_string subjects; rr_dir]
             (spawned w3)]).
  { unfold w4. simpl. rewrite Htr3, Hw2. simpl. now rewrite Htr1. }
  exists w1, w2, rr_dir, subjects, (m_subjects st).
  split; [reflexivity|]. split; [exact Hreg|].
  split; [now rewrite <- Hkeys|]. split; [exact Hgrown|].
  split.
  { apply Forall_forall. intros s Hs. rewrite Forall_forall in Hall, Hnone.
    auto. }
  split.
  { rewrite Htr7, Hp6, Hn, Hlen, Htr4, popens_app, length_app. simpl.
    rewrite <- (Forall2_length _ _ _ Hgrown). lia. }
  split; [|now split].
  rewrite Htr7, Hk6, Hk5, Htr4, kills_app. simpl. now rewrite app_nil_r.
Qed.

Lemma call_replay_normal_end_witness :
  exists w1 w2 rr_dir subjects subjects',
    cleanup consts0 w_run = Done tt w1
    /\ get_configuration (("tests/" +:+ "demo") +:+ "/" +:+ "config.ini") w1
       = Done (rr_dir, subjects) w2
    /\ NoDup (key <$> subjects)
    /\ Forall2 grown subjects subjects'
    /\ Forall (fun s => is_Some (s_handle s) /\ other_procs s = []) subjects'
    /\ List.length (popens (trace w_run_end))
       = List.length (popens (trace w_run)) + 1 + List.length subjects
    /\ kills (trace w_run_end) = kills (trace w_run)
    /\ files w_run_end !! PROC_FILE consts0 = None
    /\ files w_run_end !! RR_PIPE consts0 = None.
Proof.
  apply (call_replay_normal_end consts0 "tests/" 60 "demo" None
           w_run w_run_end).
  vm_compute. reflexivity.
Defined.

(** ** The emitter and handles *)

Lemma registry_removes_one_file_witness :
  exists cfg parsed s_last,
    ini_files w_two !! "config.ini" = Some cfg
    /\ parse_sections cfg (tail (cfg_sections cfg)) w_two = Done parsed w_two
    /\ last parsed = Some s_last
    /\ files (set_files (delete "200_brks.json" (files w_two)) w_two)
       = delete (rec_pid s_last +:+ "_brks.json") (files w_two).
Proof.
  apply (registry_removes_one_file "config.ini" w_two
           (set_files (delete "200_brks.json" (files w_two)) w_two)
           "/traces" [s5; s7]).
  vm_compute. reflexivity.
Defined.

Lemma get_messages_open_once_witness :
  opens (trace (after_first_message EmptyString w_bogus))
  = opens (trace w_bogus)
    + (if rrdump_pipe w_bogus then 0 else match 3 with O => 0 | S _ => 1 end)
  /\ Forall (fun r => r = EmptyString \/ complete_message r)
            [line "BOGUS" "5" "4242" "100"; line "INJECT" "5" "4242" "100";
             EmptyString].
Proof.
  apply (get_messages_open_once 50 "rrdump_proc.pipe" 3 w_bogus).
  vm_compute. reflexivity.
Defined.

(** ** An orphan that is never alive *)

Lemma iter_tick_alive (n : nat) (w : world) :
  alive_at (Nat.iter n tick w) = alive_at w.
Proof. induction n as [|n IH]; simpl; [reflexivity | exact IH]. Qed.

Lemma get_message_keeps_alive_at (fuel : nat) (name : string) (w w' : world)
    (r : string) :
  get_message fuel name w = Done r w' -> alive_at w' = alive_at w.
Proof.
  rewrite get_message_unfold. destruct (rrdump_pipe w).
  - intros H. apply read_message_done in H as (taken & _ & _ & Hw & _);
      [|reflexivity].
    now rewrite Hw.
  - destruct (wait_for_path fuel name w) as [u w1| |] eqn:Ew; try discriminate.
    apply wait_for_path_done in Ew as [n ->].
    intros H. apply read_message_done in H as (taken & _ & _ & Hw & _);
      [|reflexivity].
    rewrite Hw. simpl. apply iter_tick_alive.
Qed.

(** The poll for a process that is never reported alive does not end. *)
Lemma wait_alive_never (pid : string) (fuel : nat) :
  forall w,
    (forall t, alive_at w t pid = false) -> wait_alive fuel pid w = OutOfFuel.
Proof.
  induction fuel as [|fuel IH]; intros w H; [reflexivity|].
  simpl. rewrite H. apply IH. intros t. apply H.
Qed.

(** A turn whose notification names such a process does not end either,
    whatever the keyword and the state of the matcher. *)
Lemma dead_pid_blocks_turn (consts : consts_module) (fuel : nat)
    (st : matcher) (w : world) (body inject ev pid : string) :
  pipe_data w = body +:+ nl ->
  contains Py.newline body = false ->
  parse_notification (body +:+ nl) = Some (inject, ev, pid) ->
  (forall t, alive_at w t pid = false) ->
  process_message consts fuel st w = OutOfFuel.
Proof.
  intros Hdata Hbody Hparse Hdead. unfold process_message.
  rewrite bind_unfold.
  destruct (get_message fuel (RR_PIPE consts) w) as [m w1|e tr|] eqn:E;
    [|now apply get_message_never_raises in E|reflexivity].
  pose proof (get_message_keeps_alive_at _ _ _ _ _ E) as Halive.
  apply get_message_done in E as (Hshape & Hsplit & _).
  assert (Hm : m = body +:+ nl).
  { destruct Hshape as [(_ & Hnil & _)|(b & -> & Hb)].
    - rewrite Hdata in Hnil. destruct body; discriminate.
    - rewrite Hdata in Hsplit. unfold nl in *.
      rewrite append_assoc', append_single in Hsplit.
      apply append_sep_inj in Hsplit as [-> _]; [reflexivity|assumption..]. }
  subst m. rewrite bind_unfold, Hparse. simpl or_raise. unfold ret at 1.
  rewrite bind_unfold, wait_alive_never; [reflexivity|].
  intros t. rewrite Halive. apply Hdead.
Qed.

(** C6, as stated, fails: the poll for the liveness of the reported process
    comes before the branch on the keyword.  Event 5 has no pending subject
    and rr reports one more process to inject for it, which is never
    reported alive: the line is read, and then, whatever the fuel, the turn
    and the loop do not end, so no warning is logged and no further
    notification is read. *)
Lemma dead_orphan_is_never_warned_about :
  parse_notification (line "INJECT" "5" "4250" "100")
  = Some ("INJECT", "5", "4250")
  /\ subjects_for_event (m_handled st_5_handled) "5" 0
       (m_subjects st_5_handled) = []
  /\ get_message 50 (RR_PIPE consts0) w_dead_orphan
     = Done (line "INJECT" "5" "4250" "100")
            (after_first_message EmptyString w_dead_orphan)
  /\ (forall fuel,
         process_message consts0 fuel st_5_handled w_dead_orphan = OutOfFuel)
  /\ (forall fuel,
         process_messages_loop consts0 fuel st_5_handled w_dead_orphan
         = OutOfFuel).
Proof.
  assert (Hturn : forall fuel,
             process_message consts0 fuel st_5_handled w_dead_orphan
             = OutOfFuel).
  { intros fuel.
    apply (dead_pid_blocks_turn consts0 fuel st_5_handled w_dead_orphan
             "INJECT: EVENT: 5 PID: 4250 REC_PID: 100" "INJECT" "5" "4250");
      reflexivity. }
  split; [vm_compute; reflexivity|].
  split; [vm_compute; reflexivity|].
  split; [vm_compute; reflexivity|].
  split; [exact Hturn|].
  intros [|fuel]; [reflexivity|].
  rewrite process_messages_loop_S.
  change ((size (m_handled st_5_handled)
           <? List.length (m_subjects st_5_handled))%nat) with (pending st_5_handled).
  replace (pending st_5_handled) with true by (vm_compute; reflexivity).
  now rewrite Hturn.
Qed.

(** ** Cleanup, when it returns *)

(** X18.  A cleanup that returns normally has removed the capture file and
    the FIFO and nothing else, has no observable effect, and leaves the open
    channel handle and the pending bytes as they are (the handle is never
    closed or reset). *)
Theorem cleanup_leaves_the_rest (consts : consts_module) (w w1 : world) :
  cleanup consts w = Done tt w1 ->
  files w1 !! PROC_FILE consts = None
  /\ files w1 !! RR_PIPE consts = None
  /\ trace w1 = trace w
  /\ rrdump_pipe w1 = rrdump_pipe w
  /\ pipe_data w1 = pipe_data w
  /\ ini_files w1 = ini_files w
  /\ forall p,
       p <> PROC_FILE consts -> p <> RR_PIPE consts ->
       files w1 !! p = files w !! p.
Proof.
  intros H. destruct (cleanup_removes _ _ _ H) as (Hp & Hr & Ht & _ & _).
  split; [exact Hp|]. split; [exact Hr|]. split; [exact Ht|].
  clear Hp Hr Ht. rewrite cleanup_result in H. injection H as <-. cbv zeta.
  repeat case_bool_decide; simpl; repeat split; try reflexivity;
    intros p H1 H2; rewrite ?lookup_delete_ne by congruence; reflexivity.
Qed.

Lemma cleanup_leaves_the_rest_witness :
  files (set_files (delete "rrdump_proc.pipe" (files w_extra)) w_extra)
    !! PROC_FILE consts0 = None
  /\ files (set_files (delete "rrdump_proc.pipe" (files w_extra)) w_extra)
       !! RR_PIPE consts0 = None
  /\ trace (set_files (delete "rrdump_proc.pipe" (files w_extra)) w_extra)
     = trace w_extra
  /\ rrdump_pipe (set_files (delete "rrdump_proc.pipe" (files w_extra)) w_extra)
     = rrdump_pipe w_extra
  /\ pipe_data (set_files (delete "rrdump_proc.pipe" (files w_extra)) w_extra)
     = pipe_data w_extra
  /\ ini_files (set_files (delete "rrdump_proc.pipe" (files w_extra)) w_extra)
     = ini_files w_extra
  /\ forall p,
       p <> PROC_FILE consts0 -> p <> RR_PIPE consts0 ->
       files (set_files (delete "rrdump_proc.pipe" (files w_extra)) w_extra) !! p
       = files w_extra !! p.
Proof.
  apply (cleanup_leaves_the_rest consts0 w_extra
           (set_files (delete "rrdump_proc.pipe" (files w_extra)) w_extra)).
  vm_compute. reflexivity.
Defined.

(** ** The emitter, when it returns *)

Lemma emitted_files_some (subjects : list subject) (p : string) :
  forall f,
    is_Some (f !! p) \/ p ∈ injected_state_file <$> subjects ->
    is_Some (emitted_files subjects f !! p).
Proof.
  induction subjects as [|s subjects IH]; intros f H.
  - destruct H as [H|H]; [exact H | now apply elem_of_nil in H].
  - unfold emitted_files. simpl. fold (emitted_files subjects). apply IH.
    destruct (decide (p = injected_state_file s)) as [->|Hne].
    + left. rewrite lookup_insert_eq. eauto.
    + rewrite lookup_insert_ne by congruence.
      destruct H as [H|H]; [now left|].
      rewrite fmap_cons in H. apply elem_of_cons in H as [H|H];
        [contradiction | now right].
Qed.

(** X8.  An emitter call that returns normally met no subject with a handle
    (a process object cannot be written as JSON, so the emitter cannot be
    run again once a subject is matched); it has recorded no effect and
    started no process; after it the state file of every subject exists, and
    every file that is not the state file of a subject is as it was. *)
Theorem emitter_normal_return (subjects : list subject) (w w' : world) :
  create_event_configuration_files subjects w = Done tt w' ->
  Forall (fun s => s_handle s = None) subjects
  /\ trace w' = trace w
  /\ spawned w' = spawned w
  /\ (forall s, s ∈ subjects -> is_Some (files w' !! injected_state_file s))
  /\ (forall p,
         p ∉ injected_state_file <$> subjects -> files w' !! p = files w !! p).
Proof.
  intros H. apply emitter_done_inv in H as [Hall ->].
  split; [exact Hall|]. split; [reflexivity|]. split; [reflexivity|]. split.
  - intros s Hs. simpl. apply emitted_files_some. right.
    now apply list_elem_of_fmap_2.
  - intros p Hp. simpl. now apply emitted_files_other.
Qed.

Lemma emitter_normal_return_witness :
  Forall (fun s => s_handle s = None) [s5; s7]
  /\ trace (set_files (emitted_files [s5; s7] (files w_two)) w_two)
     = trace w_two
  /\ spawned (set_files (emitted_files [s5; s7] (files w_two)) w_two)
     = spawned w_two
  /\ (forall s,
         s ∈ [s5; s7] ->
         is_Some (files (set_files (emitted_files [s5; s7] (files w_two)) w_two)
                    !! injected_state_file s))
  /\ (forall p,
         p ∉ injected_state_file <$> [s5; s7] ->
         files (set_files (emitted_files [s5; s7] (files w_two)) w_two) !! p
         = files w_two !! p).
Proof.
  apply (emitter_normal_return [s5; s7] w_two
           (set_files (emitted_files [s5; s7] (files w_two)) w_two)).
  vm_compute. reflexivity.
Defined.

(** ** From the registry to the emitter: no two subjects share a file *)

(** X9.  From the registry to the emitter.  When the subjects returned by
    the registry have pairwise distinct [(event, mutator)] keys, their
    state-file names are pairwise distinct too, so that no subject's file is
    overwritten by another's: if the emitter then returns normally, it has
    recorded nothing, and the state file of every subject whose strings are
    ASCII loads back as a dict with that subject's own fields. *)
Theorem registry_then_emitter (ini_path : string) (w w1 w2 : world)
    (rr_dir : string) (subjects : list subject) :
  get_configuration ini_path w = Done (rr_dir, subjects) w1 ->
  NoDup (key <$> subjects) ->
  create_event_configuration_files subjects w1 = Done tt w2 ->
  NoDup (injected_state_file <$> subjects)
  /\ trace w2 = trace w
  /\ forall s,
       s ∈ subjects -> ascii_subject s ->
       exists text tmp,
         files w2 !! injected_state_file s = Some text
         /\ Json.loads text = Some (Json.Obj tmp)
         /\ Json.dict_get "event" tmp = Some (Json.Str (event s))
         /\ Json.dict_get "rec_pid" tmp = Some (Json.Str (rec_pid s))
         /\ Json.dict_get "trace_file" tmp = Some (Json.Str (trace_file s))
         /\ Json.dict_get "trace_start" tmp = Some (Json.Str (trace_start s))
         /\ Json.dict_get "trace_end" tmp = Some (Json.Str (trace_end s))
         /\ Json.dict_get "mutator" tmp = Some (Json.Str (mutator s))
         /\ Json.dict_get "mmap_backing_files" tmp
            = Json.Str <$> mmap_backing_files s
         /\ Json.dict_get "checker" tmp = Json.Str <$> checker s.
Proof.
  intros Hreg Hkeys Hem.
  assert (Hshape : Forall (fun s =>
                             is_Some (Py.int (event s))
                             /\ injected_state_file s
                                = event s +:+ "_" +:+ mutator s +:+ "_state.json")
                          subjects /\ trace w1 = trace w).
  { rewrite get_configuration_unfold in Hreg.
    destruct (ini_files w !! ini_path) as [[|sec0 secs]|]; try discriminate.
    destruct (sec_options sec0 !! "rr_dir") as [rr|]; [|discriminate].
    destruct secs as [|sec1 secs]; [discriminate|].
    pose proof (parse_sections_cases (sec0 :: sec1 :: secs)
                  (sec_name <$> sec1 :: secs) w) as Hp.
    destruct (parse_sections (sec0 :: sec1 :: secs)
                (sec_name <$> sec1 :: secs) w)
      as [parsed w0| |]; try discriminate.
    destruct Hp as (-> & Hp).
    destruct (event_keys parsed) as [ks|] eqn:Hks; [|discriminate].
    destruct (event_keys_spec _ _ Hks) as [Hsnd Hint].
    assert (Hall : Forall (fun s =>
                             is_Some (Py.int (event s))
                             /\ injected_state_file s
                                = event s +:+ "_" +:+ mutator s +:+ "_state.json")
                          (snd <$> sort_by_key ks)).
    { assert (Hperm : Permutation (snd <$> sort_by_key ks) parsed).
      { rewrite <- Hsnd. apply fmap_Permutation, sort_by_key_perm. }
      rewrite Hperm. apply Forall_lookup. intros n s Hs.
      destruct (Forall2_lookup_r _ _ _ _ _ Hp Hs) as (i & _ & sec & _ & Hr).
      split; [|apply Hr].
      rewrite <- Hsnd, list_lookup_fmap in Hs.
      destruct (ks !! n) as [p|] eqn:Hpn; [|discriminate].
      injection Hs as <-. rewrite Forall_lookup in Hint.
      rewrite (Hint _ _ Hpn). eauto. }
    destruct (last parsed); injection Hreg as <- <- <-; now split. }
  destruct Hshape as [Hshape Htrace].
  assert (Hnames : NoDup (injected_state_file <$> subjects)).
  { apply (NoDup_fmap_transfer key); [|exact Hkeys].
    rewrite Forall_forall in Hshape.
    intros x y Hx Hy Hxy.
    destruct (Hshape _ Hx) as (Hix & Hfx).
    destruct (Hshape _ Hy) as (Hiy & Hfy).
    rewrite Hfx, Hfy in Hxy.
    apply state_file_name_inj in Hxy as [He Hm]; [|assumption..].
    unfold key. congruence. }
  apply emitter_done_inv in Hem as [_ ->].
  split; [exact Hnames|]. split; [exact Htrace|].
  intros s Hs _.
  apply list_elem_of_split in Hs as (pre & post & ->).
  rewrite fmap_app in Hnames. apply NoDup_app in Hnames as (_ & _ & Hnd).
  rewrite fmap_cons in Hnd. apply NoDup_cons in Hnd as [Hnot _].
  exists (subject_text s), (subject_items s).
  split; [simpl; now apply emitted_files_last_writer|].
  split; [apply subject_text_loads|].
  apply subject_items_fields.
Qed.

Lemma registry_then_emitter_witness :
  NoDup (injected_state_file <$> [s5; s7])
  /\ trace
       (set_files
          (emitted_files [s5; s7]
             (files (set_files (delete "200_brks.json" (files w_two)) w_two)))
          (set_files (delete "200_brks.json" (files w_two)) w_two))
     = trace w_two
  /\ forall s,
       s ∈ [s5; s7] -> ascii_subject s ->
       exists text tmp,
         files
           (set_files
              (emitted_files [s5; s7]
                 (files (set_files (delete "200_brks.json" (files w_two))
                                   w_two)))
              (set_files (delete "200_brks.json" (files w_two)) w_two))
           !! injected_state_file s = Some text
         /\ Json.loads text = Some (Json.Obj tmp)
         /\ Json.dict_get "event" tmp = Some (Json.Str (event s))
         /\ Json.dict_get "rec_pid" tmp = Some (Json.Str (rec_pid s))
         /\ Json.dict_get "trace_file" tmp = Some (Json.Str (trace_file s))
         /\ Json.dict_get "trace_start" tmp = Some (Json.Str (trace_start s))
         /\ Json.dict_get "trace_end" tmp = Some (Json.Str (trace_end s))
         /\ Json.dict_get "mutator" tmp = Some (Json.Str (mutator s))
         /\ Json.dict_get "mmap_backing_files" tmp
            = Json.Str <$> mmap_backing_files s
         /\ Json.dict_get "checker" tmp = Json.Str <$> checker s.
Proof.
  apply (registry_then_emitter "config.ini" w_two
           (set_files (delete "200_brks.json" (files w_two)) w_two)
           (set_files
              (emitted_files [s5; s7]
                 (files (set_files (delete "200_brks.json" (files w_two))
                                   w_two)))
              (set_files (delete "200_brks.json" (files w_two)) w_two))
           "/traces" [s5; s7]).
  - vm_compute. reflexivity.
  - compute_done.
  - vm_compute. reflexivity.
Defined.

(** ** What the registry rejects *)

Lemma complete_read_from (sec : ini_section) :
  complete sec -> exists s, read_from sec s.
Proof.
  unfold complete, required_keys. intros Hall.
  repeat match goal with
         | H : Forall _ (_ :: _) |- _ => apply Forall_cons in H as [[? ?] H]
         end.
  eexists (Subject _ _ _ _ _ _ _ [] _ _ None).
  split; simpl; try eassumption; reflexivity.
Qed.

Lemma read_from_not_incomplete (sec : ini_section) (s : subject) :
  read_from sec s -> incomplete sec -> False.
Proof.
  intros [] Hinc. unfold incomplete, required_keys in Hinc.
  repeat match goal with
         | H : Exists _ (_ :: _) |- _ => apply Exists_cons in H as [H|H]
         | H : Exists _ [] |- _ => now apply Exists_nil in H
         end; congruence.
Qed.

Lemma parse_sections_complete (cfg : config) (w : world)
    (l : list ini_section) :
  (forall sec, sec ∈ l -> find_section cfg (sec_name sec) = Some sec) ->
  Forall complete l ->
  exists parsed,
    parse_sections cfg (sec_name <$> l) w = Done parsed w
    /\ Forall2 read_from l parsed.
Proof.
  induction l as [|sec l IH]; intros Hfind Hall.
  - exists []. split; [reflexivity | constructor].
  - apply Forall_cons in Hall as [Hsec Hall].
    destruct (complete_read_from _ Hsec) as [s Hs].
    destruct IH as (parsed & Hp & HF); [|exact Hall|].
    { intros x Hx. apply Hfind. now right. }
    exists (s :: parsed). rewrite fmap_cons. simpl parse_sections.
    rewrite bind_unfold.
    rewrite (parse_section_done cfg _ sec s w); [|apply Hfind; left|exact Hs].
    rewrite bind_unfold, Hp. unfold ret. split; [reflexivity|].
    now constructor.
Qed.

Lemma parse_sections_incomplete (cfg : config) (w : world)
    (l : list ini_section) :
  (forall sec, sec ∈ l -> find_section cfg (sec_name sec) = Some sec) ->
  Exists incomplete l ->
  parse_sections cfg (sec_name <$> l) w = Raise NoOptionError (trace w).
Proof.
  induction l as [|sec l IH]; intros Hfind Hex.
  - now apply Exists_nil in Hex.
  - rewrite fmap_cons. simpl parse_sections. rewrite bind_unfold.
    pose proof (parse_section_cases cfg (sec_name sec) w) as Hc.
    rewrite (Hfind sec) in Hc by left.
    destruct (parse_section cfg (sec_name sec) w) as [s w1|e tr|];
      [| |contradiction].
    + destruct Hc as (-> & sec' & [= <-] & Hr).
      apply Exists_cons in Hex as [Hex|Hex].
      * destruct (read_from_not_incomplete _ _ Hr Hex).
      * rewrite bind_unfold, IH; [reflexivity| |exact Hex].
        intros x Hx. apply Hfind. now right.
    + destruct Hc as (-> & -> & _). reflexivity.
Qed.

Lemma event_keys_bad (subjects : list subject) :
  Exists (fun s => Py.int (event s) = None) subjects ->
  event_keys subjects = None.
Proof.
  induction 1 as [s r Hs|s r _ IH]; simpl.
  - now rewrite Hs.
  - rewrite IH. now destruct (Py.int (event s)).
Qed.

(** X3.  What the registry rejects, and how.  A file that cannot be read
    gives IOError; a file without any section, IndexError; a first section
    without [rr_dir], NoOptionError; no section after the first,
    NoSectionError.  With distinct section names, a section after the first
    that lacks one of the six required options gives NoOptionError, whatever
    the events are: all the sections are read before any event is looked at.
    When none lacks an option, an event that is not a number gives
    ValueError.  In each of these cases nothing observable has been
    recorded. *)
Theorem registry_rejects (ini_path : string) (w : world) :
  (ini_files w !! ini_path = None ->
   get_configuration ini_path w = Raise IOError (trace w))
  /\ (ini_files w !! ini_path = Some [] ->
      get_configuration ini_path w = Raise IndexError (trace w))
  /\ (forall sec0 secs,
         ini_files w !! ini_path = Some (sec0 :: secs) ->
         (sec_options sec0 !! "rr_dir" = None ->
          get_configuration ini_path w = Raise NoOptionError (trace w))
         /\ (is_Some (sec_options sec0 !! "rr_dir") ->
             (secs = [] ->
              get_configuration ini_path w = Raise NoSectionError (trace w))
             /\ (NoDup (sec_name <$> sec0 :: secs) ->
                 Exists incomplete secs ->
                 get_configuration ini_path w
                 = Raise NoOptionError (trace w))
             /\ (NoDup (sec_name <$> sec0 :: secs) ->
                 secs <> [] ->
                 Forall complete secs ->
                 Exists bad_event secs ->
                 get_configuration ini_path w
                 = Raise ValueError (trace w)))).
Proof.
  split; [|split].
  - intros H. now rewrite get_configuration_unfold, H.
  - intros H. now rewrite get_configuration_unfold, H.
  - intros sec0 secs Hini.
    assert (Hfind : NoDup (sec_name <$> sec0 :: secs) ->
                    forall sec, sec ∈ secs ->
                      find_section (sec0 :: secs) (sec_name sec) = Some sec).
    { intros Hnd sec Hsec. apply find_section_unique; [exact Hnd | now right]. }
    split; [|intros [rr_dir Hrr]; split; [|split]].
    + intros Hrr. now rewrite get_configuration_unfold, Hini, Hrr.
    + intros ->. now rewrite get_configuration_unfold, Hini, Hrr.
    + intros Hnd Hex. rewrite get_configuration_unfold, Hini, Hrr.
      destruct secs as [|sec1 secs]; [now apply Exists_nil in Hex|].
      now rewrite (parse_sections_incomplete _ w _ (Hfind Hnd) Hex).
    + intros Hnd Hne Hall Hbad.
      rewrite get_configuration_unfold, Hini, Hrr.
      destruct secs as [|sec1 secs]; [contradiction|].
      destruct (parse_sections_complete _ w _ (Hfind Hnd) Hall)
        as (parsed & Hp & HF).
      rewrite Hp, event_keys_bad; [reflexivity|].
      apply Exists_exists in Hbad as (sec & Hsec & ev & Hev & Hint).
      apply list_elem_of_lookup_1 in Hsec as [n Hn].
      destruct (Forall2_lookup_l _ _ _ _ _ HF Hn) as (s & Hs & Hr).
      apply Exists_exists. exists s.
      split; [eapply list_elem_of_lookup_2; exact Hs|].
      destruct Hr as [Hevent]. rewrite Hevent in Hev. injection Hev as ->.
      exact Hint.
Qed.

Lemma registry_rejects_witness :
  get_configuration "config.ini" w_bad_event
  = Raise ValueError (trace w_bad_event).
Proof.
  destruct (registry_rejects "config.ini" w_bad_event) as (_ & _ & H).
  destruct (H rr_section
              [subject_section "a" "5" "100" "drop_write";
               subject_section "b" "x7" "200" "drop_write"])
    as (_ & H2); [reflexivity|].
  destruct H2 as (_ & _ & H3); [now exists "/traces"|].
  apply H3.
  - compute_done.
  - discriminate.
  - repeat constructor; eexists; vm_compute; reflexivity.
  - right. left. exists "x7". split; vm_compute; reflexivity.
Defined.
